(** * fixter: the reason / reflect / act loop, its input normaliser,
      the loop selector and the session entity map

    A shallow embedding of
      - fixter/agents/conversation_agent.py  (module [ConversationAgent])
      - fixter/agents/extraction_agent.py    (module [ExtractionAgent])
      - fixter/agents/coordinator.py         (module [Coordinator])
      - fixter/session_memory.py             (modules [Session], [Sessions])
    together with the pieces of Python they rest on: [str] methods
    (module [Text]), the [re] functions the sources call (module [Re]) and
    the dynamically typed values that travel as tool inputs (module [Py]).

    Conventions.
      - A Python [str] is a [string]; a character is a code point below 256.
      - A Python [int] is a [Z].
      - A Python exception that leaves a function is the [Raise] branch of
        [result].
      - The language model, the tools and the JSON decoder are collaborators
        of the program, not part of it: they are variables of the sections.
      - The graph library that [process] hands its nodes to is no part of
        the sources.  What it does with them is written out where the two
        graphs are defined: a node and a router are given a dict read from
        the state of the run; the dict a node returns is folded into that
        state, item by item, with the reducer the state class declares;
        of a router the label alone is kept; and [app.invoke], called
        without a config, gives a run 25 supersteps. *)

From Stdlib Require Import ZArith QArith Ascii String List Bool Lia Sorted.
From stdpp Require Import gmap strings list.

Local Open Scope Z_scope.
#[local] Set Warnings "-register-all".

(* ===================================================================== *)
(** ** Python [str] methods                                               *)
(* ===================================================================== *)

Module Text.

Definition code (c : ascii) : nat := nat_of_ascii c.

Definition between (lo hi : nat) (c : ascii) : bool :=
  (Nat.leb lo (code c) && Nat.leb (code c) hi)%bool.

(** [str.isspace] on one code point below 256: TAB..CR, FS..US, SPACE,
    NEL and NBSP.  [str.strip()] and the class [\s] use the same set. *)
Definition is_space (c : ascii) : bool :=
  (between 9 13 c || between 28 32 c
   || Nat.eqb (code c) 133 || Nat.eqb (code c) 160)%bool.

Definition is_digit (c : ascii) : bool := between 48 57 c.

Definition is_ascii_letter (c : ascii) : bool :=
  (between 65 90 c || between 97 122 c)%bool.

(** [\w] on code points below 256: what [str.isalnum] accepts, and [_]. *)
Definition is_word (c : ascii) : bool :=
  (is_ascii_letter c || is_digit c || Nat.eqb (code c) 95
   || Nat.eqb (code c) 170 || between 178 179 c || Nat.eqb (code c) 181
   || between 185 186 c || between 188 190 c
   || between 192 214 c || between 216 246 c || between 248 255 c)%bool.

Definition is_upper (c : ascii) : bool :=
  (between 65 90 c || between 192 214 c || between 216 222 c)%bool.

Definition lower_char (c : ascii) : ascii :=
  if is_upper c then ascii_of_nat (code c + 32) else c.

(** [s.lower()] *)
Fixpoint lower (s : string) : string :=
  match s with
  | EmptyString => EmptyString
  | String c s' => String (lower_char c) (lower s')
  end.

Fixpoint lstrip_by (p : ascii -> bool) (s : string) : string :=
  match s with
  | EmptyString => EmptyString
  | String c s' => if p c then lstrip_by p s' else s
  end.

Fixpoint rstrip_by (p : ascii -> bool) (s : string) : string :=
  match s with
  | EmptyString => EmptyString
  | String c s' =>
      match rstrip_by p s' with
      | EmptyString => if p c then EmptyString else String c EmptyString
      | r => String c r
      end
  end.

Definition strip_by (p : ascii -> bool) (s : string) : string :=
  rstrip_by p (lstrip_by p s).

(** [s.strip()] *)
Definition strip (s : string) : string := strip_by is_space s.

Fixpoint mem_char (c : ascii) (chars : string) : bool :=
  match chars with
  | EmptyString => false
  | String d r => if Ascii.eqb c d then true else mem_char c r
  end.

(** [s.strip(chars)] *)
Definition strip_chars (chars s : string) : string :=
  strip_by (fun c => mem_char c chars) s.

(** the double and the single quote: the characters the sources pass
    to [.strip(chars)] *)
Definition quotes : string :=
  String (ascii_of_nat 34) (String (ascii_of_nat 39) EmptyString).

Fixpoint drop (n : nat) (s : string) : string :=
  match n, s with
  | O, _ => s
  | S n', String _ s' => drop n' s'
  | S _, EmptyString => EmptyString
  end.

(** [s[:n]] *)
Fixpoint take (n : nat) (s : string) : string :=
  match n, s with
  | S n', String c s' => String c (take n' s')
  | _, _ => EmptyString
  end.

(** [s.startswith(p)] *)
Fixpoint starts_with (p s : string) : bool :=
  match p, s with
  | EmptyString, _ => true
  | String a p', String b s' => if Ascii.eqb a b then starts_with p' s' else false
  | String _ _, EmptyString => false
  end.

(** [s.split(sep)[-1]] for a non-empty [sep]: the text after the last
    cut, cuts being found from the left without overlap.  [skip] counts
    the characters of a separator still to be jumped over. *)
Fixpoint after_last_cut (sep : string) (skip : nat) (s acc : string) : string :=
  match s with
  | EmptyString => acc
  | String _ s' =>
      match skip with
      | S k => after_last_cut sep k s' acc
      | O =>
          if starts_with sep s
          then after_last_cut sep (String.length sep - 1) s' (drop (String.length sep) s)
          else after_last_cut sep O s' acc
      end
  end.

Definition split_last (sep s : string) : string := after_last_cut sep O s s.

Definition newline : string := String (ascii_of_nat 10) EmptyString.

(** the text after the first occurrence of [needle], if there is one *)
Fixpoint find_after (needle s : string) : option string :=
  if starts_with needle s then Some (drop (String.length needle) s)
  else match s with
       | EmptyString => None
       | String _ s' => find_after needle s'
       end.

(** the text up to the first line break *)
Fixpoint first_line (s : string) : string :=
  match s with
  | EmptyString => EmptyString
  | String c s' => if Nat.eqb (code c) 10 then EmptyString else String c (first_line s')
  end.

(** [int(s)] for a [str]: optional blanks, an optional sign, decimal
    digits that single underscores may separate. *)
Fixpoint digits_value (acc : Z) (prev_digit : bool) (s : string) : option Z :=
  match s with
  | EmptyString => if prev_digit then Some acc else None
  | String c s' =>
      if is_digit c
      then digits_value (10 * acc + Z.of_nat (code c - 48)) true s'
      else if (Nat.eqb (code c) 95 && prev_digit)%bool
           then digits_value acc false s'
           else None
  end.

Definition int_of_str (s : string) : option Z :=
  match strip s with
  | String c r =>
      if Nat.eqb (code c) 45 then option_map Z.opp (digits_value 0 false r)
      else if Nat.eqb (code c) 43 then digits_value 0 false r
      else digits_value 0 false (String c r)
  | EmptyString => None
  end.

End Text.

(* ===================================================================== *)
(** ** The part of [re] the sources use                                   *)
(* ===================================================================== *)

Module Re.

(** Patterns.  [Star true r] is [r*], [Star false r] is [r*?]; [Group] is
    the (single) capturing group; [Ahead r] is [(?=r)]; [Eos] is [$]
    without MULTILINE: the end of the text, or just before a final
    newline. *)
Inductive regex : Type :=
| Eps : regex
| Set_ : (ascii -> bool) -> regex
| Seq : regex -> regex -> regex
| Alt : regex -> regex -> regex
| Star : bool -> regex -> regex
| Group : regex -> regex
| Ahead : regex -> regex
| Eos : regex.

Definition Chr (c : ascii) : regex := Set_ (Ascii.eqb c).

(** a literal piece of pattern text *)
Fixpoint Lit (s : string) : regex :=
  match s with
  | EmptyString => Eps
  | String c s' => Seq (Chr c) (Lit s')
  end.

Definition Plus (r : regex) : regex := Seq r (Star true r).
Definition Opt (r : regex) : regex := Alt r Eps.
(** [.] with DOTALL, and without *)
Definition AnyChar : regex := Set_ (fun _ => true).
Definition Dot : regex := Set_ (fun c => negb (Nat.eqb (Text.code c) 10)).

Definition orelse {A} (x y : option A) : option A :=
  match x with Some _ => x | None => y end.

(** A loop [r*] or [r*?]: [body] matches [r] once.  An iteration that
    reads nothing ends the loop; [fuel] bounds the iterations by the
    length of the text. *)
Fixpoint iterate {R : Type} (greedy : bool)
    (body : string -> option string -> (string -> option string -> option R) -> option R)
    (k : string -> option string -> option R)
    (fuel : nat) (s : string) (cap : option string) {struct fuel} : option R :=
  match fuel with
  | O => k s cap
  | S fuel' =>
      let again :=
        body s cap (fun s1 cap1 =>
          if Nat.ltb (String.length s1) (String.length s)
          then iterate greedy body k fuel' s1 cap1 else None) in
      if greedy then orelse again (k s cap) else orelse (k s cap) again
  end.

(** Backtracking matcher in continuation-passing style.  [s] is the text
    still to be read, [cap] the text of the group so far; alternatives are
    tried in Python's order (left branch first, greedy loops longest first,
    lazy loops shortest first). *)
Fixpoint exec (r : regex) {R : Type} (s : string) (cap : option string)
         (k : string -> option string -> option R) {struct r} : option R :=
  match r with
  | Eps => k s cap
  | Set_ p =>
      match s with
      | String c s' => if p c then k s' cap else None
      | EmptyString => None
      end
  | Seq r1 r2 => exec r1 s cap (fun s1 cap1 => exec r2 s1 cap1 k)
  | Alt r1 r2 => orelse (exec r1 s cap k) (exec r2 s cap k)
  | Star greedy r1 => iterate greedy (@exec r1 R) k (String.length s) s cap
  | Group r1 =>
      exec r1 s cap (fun s1 _ =>
        k s1 (Some (Text.take (String.length s - String.length s1) s)))
  | Ahead r1 =>
      match exec r1 s cap (fun _ _ => Some tt) return option R with
      | Some _ => k s cap
      | None => None
      end
  | Eos =>
      match s with
      | EmptyString => k s cap
      | String c EmptyString => if Nat.eqb (Text.code c) 10 then k s cap else None
      | _ => None
      end
  end.

(** the result of [k] at the first suffix of [s] where it has one *)
Fixpoint first_success {R : Type} (k : string -> option string -> option R)
    (s : string) (cap : option string) : option R :=
  match k s cap with
  | Some r => Some r
  | None =>
      match s with
      | String _ s' => first_success k s' cap
      | EmptyString => None
      end
  end.

(** A match: the text it covers, the group, and the text after it. *)
Record match_ : Type := { whole : string; group1 : option string; rest : string }.

Definition match_at (r : regex) (s : string) : option match_ :=
  exec r s None (fun s1 cap =>
    Some {| whole := Text.take (String.length s - String.length s1) s;
            group1 := cap; rest := s1 |}).

(** [re.search(r, s)]: the leftmost match. *)
Fixpoint search (r : regex) (s : string) : option match_ :=
  match match_at r s with
  | Some m => Some m
  | None =>
      match s with
      | String _ s' => search r s'
      | EmptyString => None
      end
  end.

(** [re.findall(r, s)] for a pattern without groups. *)
Fixpoint findall_fuel (fuel : nat) (r : regex) (s : string) : list string :=
  match fuel with
  | O => []
  | S fuel' =>
      match match_at r s, s with
      | Some m, String _ s' =>
          if Nat.eqb (String.length (whole m)) 0
          then whole m :: findall_fuel fuel' r s'
          else whole m :: findall_fuel fuel' r (rest m)
      | Some m, EmptyString => [whole m]
      | None, String _ s' => findall_fuel fuel' r s'
      | None, EmptyString => []
      end
  end.

Definition findall (r : regex) (s : string) : list string :=
  findall_fuel (S (String.length s)) r s.

(** [re.sub(r, '', s)]: every match is removed. *)
Fixpoint remove_fuel (fuel : nat) (r : regex) (s : string) : string :=
  match fuel with
  | O => s
  | S fuel' =>
      match match_at r s, s with
      | Some m, String c s' =>
          if Nat.eqb (String.length (whole m)) 0
          then String c (remove_fuel fuel' r s')
          else remove_fuel fuel' r (rest m)
      | Some _, EmptyString => EmptyString
      | None, String c s' => String c (remove_fuel fuel' r s')
      | None, EmptyString => EmptyString
      end
  end.

Definition remove_all (r : regex) (s : string) : string :=
  remove_fuel (S (String.length s)) r s.

End Re.

(* ===================================================================== *)
(** ** Python values and exceptions                                       *)
(* ===================================================================== *)

Module Py.

(** What a tool input can be: the values JSON text decodes to.  A [dict]
    is its items in insertion order (keys are distinct).  Numbers are
    integers: no source path looks inside a float. *)
Inductive Value : Type :=
| VNone : Value
| VBool : bool -> Value
| VInt : Z -> Value
| VStr : string -> Value
| VList : list Value -> Value
| VDict : list (string * Value) -> Value.

Inductive Exn : Type :=
| AttributeError
| UnboundLocalError
| ToolFailure
| LLMFailure.

Inductive result (A : Type) : Type :=
| Ok : A -> result A
| Raise : Exn -> result A.
Arguments Ok {A} _.
Arguments Raise {A} _.

Definition bind {A B} (x : result A) (f : A -> result B) : result B :=
  match x with
  | Ok a => f a
  | Raise e => Raise e
  end.

Definition raises {A} (x : result A) : Prop := exists e, x = Raise e.

(** [d.get(key)] on the items of a dict *)
Fixpoint lookup_item (key : string) (d : list (string * Value)) : option Value :=
  match d with
  | [] => None
  | (k, v) :: d' => if String.eqb k key then Some v else lookup_item key d'
  end.

(** [d.setdefault(key, v)] on the items of a dict *)
Definition setdefault_item (key : string) (v : Value) (d : list (string * Value))
  : list (string * Value) :=
  match lookup_item key d with
  | Some _ => d
  | None => d ++ [(key, v)]
  end.

(** what [d.get(key, default)] gives on the items of a dict *)
Definition item_or (key : string) (default : Value) (d : list (string * Value)) : Value :=
  match lookup_item key d with
  | Some v => v
  | None => default
  end.

(** [x.get(key, default)]: only a dict has the method. *)
Definition get (x : Value) (key : string) (default : Value) : result Value :=
  match x with
  | VDict d => Ok (item_or key default d)
  | _ => Raise AttributeError
  end.

(** [x.setdefault(key, v)], for its effect on [x] *)
Definition setdefault (x : Value) (key : string) (v : Value) : result Value :=
  match x with
  | VDict d => Ok (VDict (setdefault_item key v d))
  | _ => Raise AttributeError
  end.

(** [x.strip().strip(chars)]: only a str has the method. *)
Definition strip_quoted (x : Value) : result string :=
  match x with
  | VStr s => Ok (Text.strip_chars Text.quotes (Text.strip s))
  | _ => Raise AttributeError
  end.

(** truth value of [x], as [or] and [if] test it *)
Definition truthy (x : Value) : bool :=
  match x with
  | VNone => false
  | VBool b => b
  | VInt n => negb (Z.eqb n 0)
  | VStr s => negb (String.eqb s EmptyString)
  | VList l => match l with [] => false | _ => true end
  | VDict d => match d with [] => false | _ => true end
  end.

(** [isinstance(x, int)]: a bool is an int. *)
Definition is_int (x : Value) : bool :=
  match x with
  | VInt _ | VBool _ => true
  | _ => false
  end.

Definition is_dict (x : Value) : bool :=
  match x with
  | VDict _ => true
  | _ => false
  end.

End Py.

(* ===================================================================== *)
(** ** session_memory.py: the entity map                                  *)
(* ===================================================================== *)

Module Session.

(** clock readings of [time.time()] *)
Definition Time : Type := Z.

Record EntityInfo : Type := {
  type_ : string;
  value : string;
  last_mentioned : Time;
  metadata : list (string * Py.Value)
}.

Record SessionMemory : Type := {
  session_id : string;
  created_at : Time;
  last_accessed : Time;
  entities : gmap string EntityInfo
}.

(** the f-string [{entity_type}:{value}] *)
Definition entity_key (entity_type val : string) : string :=
  entity_type +:+ ":" +:+ val.

Definition update_access_time (now : Time) (s : SessionMemory) : SessionMemory :=
  {| session_id := session_id s; created_at := created_at s;
     last_accessed := now; entities := entities s |}.

(** [SessionMemory.add_entity]; [now1] and [now2] are the two clock
    readings it takes, [meta] is [None] when the argument is omitted. *)
Definition add_entity (entity_type val : string)
    (meta : option (list (string * Py.Value))) (now1 now2 : Time)
    (s : SessionMemory) : SessionMemory :=
  let key := entity_key entity_type val in
  let info := {| type_ := entity_type; value := val; last_mentioned := now1;
                 metadata := match meta with Some d => d | None => [] end |} in
  update_access_time now2
    {| session_id := session_id s; created_at := created_at s;
       last_accessed := last_accessed s;
       entities := <[key := info]> (entities s) |}.

Definition entity_count (s : SessionMemory) : nat := size (entities s).

End Session.

(* ===================================================================== *)
(** ** session_memory.py: the whole session                               *)
(* ===================================================================== *)

Module Sessions.
Import Py Session.

(** an item of [conversation_history], as [add_conversation_turn] writes
    it: the keys timestamp, query and response *)
Record Turn : Type := {
  timestamp : Time;
  query : string;
  response : option string
}.

(** [active_task], as [set_active_task] writes it: a dict of three keys,
    which is never empty and so counts as true where it is tested *)
Record Task : Type := {
  description : string;
  started_at : Time;
  data : list (string * Value)
}.

(** [entities] is a dict: its items in insertion order, which is the
    order [.values()] lists them in.  Module [Session] has the same dict
    as a finite map, see [entity_map]. *)
Record SessionMemory : Type := {
  session_id : string;
  created_at : Time;
  last_accessed : Time;
  conversation_history : list Turn;
  entities : list (string * EntityInfo);
  context : list (string * Value);
  active_task : option Task
}.

(** [d[key] = v]: a key that is there keeps its place *)
Fixpoint dict_set {V : Type} (key : string) (v : V) (d : list (string * V))
  : list (string * V) :=
  match d with
  | [] => [(key, v)]
  | (k, x) :: d' =>
      if String.eqb k key then (k, v) :: d' else (k, x) :: dict_set key v d'
  end.

(** [d.get(key)] *)
Fixpoint dict_get {V : Type} (key : string) (d : list (string * V)) : option V :=
  match d with
  | [] => None
  | (k, x) :: d' => if String.eqb k key then Some x else dict_get key d'
  end.

Definition keys {V : Type} (d : list (string * V)) : list string := map fst d.
Definition values {V : Type} (d : list (string * V)) : list V := map snd d.

(** the dict as module [Session] has it *)
Definition entity_map (s : SessionMemory) : gmap string EntityInfo :=
  list_to_map (entities s).

Definition update_access_time (now : Time) (s : SessionMemory) : SessionMemory :=
  {| session_id := session_id s; created_at := created_at s; last_accessed := now;
     conversation_history := conversation_history s; entities := entities s;
     context := context s; active_task := active_task s |}.

Definition set_conversation_history (v : list Turn) (s : SessionMemory) : SessionMemory :=
  {| session_id := session_id s; created_at := created_at s;
     last_accessed := last_accessed s;
     conversation_history := v; entities := entities s;
     context := context s; active_task := active_task s |}.

Definition set_entities (v : list (string * EntityInfo)) (s : SessionMemory)
  : SessionMemory :=
  {| session_id := session_id s; created_at := created_at s;
     last_accessed := last_accessed s;
     conversation_history := conversation_history s; entities := v;
     context := context s; active_task := active_task s |}.

Definition set_active_task_item (v : option Task) (s : SessionMemory) : SessionMemory :=
  {| session_id := session_id s; created_at := created_at s;
     last_accessed := last_accessed s;
     conversation_history := conversation_history s; entities := entities s;
     context := context s; active_task := v |}.

(** [xs[-n:]] for [n > 0] *)
Definition last_items {A} (n : nat) (xs : list A) : list A :=
  skipn (length xs - n) xs.

(** [add_conversation_turn]; [now1] and [now2] are the two clock readings
    it takes, [response] is [None] when the argument is omitted. *)
Definition add_conversation_turn (query_ : string) (response_ : option string)
    (now1 now2 : Time) (s : SessionMemory) : SessionMemory :=
  let turn := {| timestamp := now1; query := query_; response := response_ |} in
  let s := set_conversation_history (conversation_history s ++ [turn]) s in
  let s := update_access_time now2 s in
  if Nat.ltb 20 (length (conversation_history s))
  then set_conversation_history (last_items 20 (conversation_history s)) s
  else s.

(** a call of [add_conversation_turn]: query, response and the two clock
    readings; and a sequence of calls *)
Definition TurnCall : Type := (string * option string * Time * Time)%type.

Definition turn_of (call : TurnCall) : Turn :=
  let '(q, r, now1, _) := call in
  {| timestamp := now1; query := q; response := r |}.

Definition add_conversation_turns (calls : list TurnCall) (s : SessionMemory)
  : SessionMemory :=
  fold_left (fun s call =>
               let '(q, r, now1, now2) := call in add_conversation_turn q r now1 now2 s)
            calls s.
(** [add_entity], on the dict in insertion order *)
Definition add_entity (entity_type val : string)
    (meta : option (list (string * Value))) (now1 now2 : Time)
    (s : SessionMemory) : SessionMemory :=
  let key := entity_key entity_type val in
  let info := {| type_ := entity_type; value := val; last_mentioned := now1;
                 metadata := match meta with Some d => d | None => [] end |} in
  update_access_time now2 (set_entities (dict_set key info (entities s)) s).

(** [sorted(entities, key=lambda e: e.last_mentioned, reverse=True)]: the
    most recent first, and entities mentioned at the same time in the
    order they come in ([sorted] is stable, also with [reverse]). *)
Fixpoint insert_by_recency (e : EntityInfo) (sorted : list EntityInfo)
  : list EntityInfo :=
  match sorted with
  | [] => [e]
  | x :: rest =>
      if last_mentioned e <? last_mentioned x
      then x :: insert_by_recency e rest
      else e :: sorted
  end.

Definition sorted_by_recency (es : list EntityInfo) : list EntityInfo :=
  fold_right insert_by_recency [] es.

(** [xs[:limit]]: a negative [limit] counts from the end *)
Definition slice_to {A} (limit : Z) (xs : list A) : list A :=
  if 0 <=? limit then firstn (Z.to_nat limit) xs
  else firstn (length xs - Z.to_nat (- limit)) xs.

(** the entities [get_recent_entities] sorts: all of them when
    [entity_type] is [None] or empty *)
Definition entities_of_type (entity_type : option string) (s : SessionMemory)
  : list EntityInfo :=
  match entity_type with
  | Some t =>
      if String.eqb t EmptyString then values (entities s)
      else List.filter (fun e => String.eqb (type_ e) t) (values (entities s))
  | None => values (entities s)
  end.

Definition get_recent_entities (entity_type : option string) (limit : Z)
    (s : SessionMemory) : list EntityInfo :=
  let entities := entities_of_type entity_type s in
  let sorted_entities := sorted_by_recency entities in
  slice_to limit sorted_entities.

(** [set_active_task]; [task_data] is [None] when the argument is omitted *)
Definition set_active_task (task_description : string)
    (task_data : option (list (string * Value))) (now1 now2 : Time)
    (s : SessionMemory) : SessionMemory :=
  update_access_time now2
    (set_active_task_item
       (Some {| description := task_description; started_at := now1;
                data := match task_data with Some d => d | None => [] end |}) s).

Definition clear_active_task (now : Time) (s : SessionMemory) : SessionMemory :=
  update_access_time now (set_active_task_item None s).

(** *** [extract_entities_from_query] *)

Definition word : Re.regex := Re.Set_ Text.is_word.
Definition word_or_dash : Re.regex :=
  Re.Set_ (fun c => (Text.is_word c || Text.mem_char c "-")%bool).
Definition path_char : Re.regex :=
  Re.Set_ (fun c => (Text.is_word c || Text.mem_char c "/.-")%bool).
Definition alnum : Re.regex :=
  Re.Set_ (fun c => (Text.is_ascii_letter c || Text.is_digit c)%bool).

(** [/[\w/\.-]+\.\w+] *)
Definition file_path_pattern : Re.regex :=
  Re.Seq (Re.Lit "/") (Re.Seq (Re.Plus path_char) (Re.Seq (Re.Lit ".") (Re.Plus word))).

(** [/[\w/\.-]+/?] *)
Definition dir_path_pattern : Re.regex :=
  Re.Seq (Re.Lit "/") (Re.Seq (Re.Plus path_char) (Re.Opt (Re.Lit "/"))).

(** [(?:github\.com/|https://github\.com/)[\w-]+/[\w-]+] *)
Definition repo_pattern : Re.regex :=
  Re.Seq (Re.Alt (Re.Lit "github.com/") (Re.Lit "https://github.com/"))
         (Re.Seq (Re.Plus word_or_dash) (Re.Seq (Re.Lit "/") (Re.Plus word_or_dash))).

(** [\.([a-zA-Z0-9]+)\b].  The boundary stands after a letter or digit,
    so it holds exactly when no word character follows: at the end of the
    text or before a character that is not of [\w]. *)
Definition extension_pattern : Re.regex :=
  Re.Seq (Re.Lit ".")
         (Re.Seq (Re.Group (Re.Plus alnum))
                 (Re.Ahead (Re.Alt (Re.Set_ (fun c => negb (Text.is_word c))) Re.Eos))).

(** [re.findall(r, s)] for a pattern with one group, which no match leaves
    unset and no match of which is empty: the texts of the group. *)
Fixpoint findall_group_fuel (fuel : nat) (r : Re.regex) (s : string) : list string :=
  match fuel with
  | O => []
  | S fuel' =>
      match Re.match_at r s, s with
      | Some m, String _ s' =>
          match Re.group1 m with Some g => g | None => EmptyString end
          :: findall_group_fuel fuel' r
               (if Nat.eqb (String.length (Re.whole m)) 0 then s' else Re.rest m)
      | Some m, EmptyString =>
          [match Re.group1 m with Some g => g | None => EmptyString end]
      | None, String _ s' => findall_group_fuel fuel' r s'
      | None, EmptyString => []
      end
  end.

Definition findall_group (r : Re.regex) (s : string) : list string :=
  findall_group_fuel (S (String.length s)) r s.

Section World.
(** [time.time()] at its n-th call, and the file system as
    [os.path.exists] and [os.path.isdir] see it *)
Variable time : nat -> Time.
Variable os_path_exists : string -> bool.
Variable os_path_isdir : string -> bool.

(** A session together with the number of clock readings taken so far. *)
Definition Clocked : Type := (nat * SessionMemory)%type.

(** [self.add_entity(...)] at the clock *)
Definition add_entity_now (entity_type val : string)
    (meta : option (list (string * Value))) (cs : Clocked) : Clocked :=
  let (n, s) := cs in
  (S (S n), add_entity entity_type val meta (time n) (time (S n)) s).

Definition exists_true : option (list (string * Value)) :=
  Some [("exists", VBool true)].

Definition extract_entities_from_query (query_ : string) (cs : Clocked) : Clocked :=
  let file_paths := Re.findall file_path_pattern query_ in
  let cs := fold_left (fun cs path =>
                         if os_path_exists path
                         then add_entity_now "file" path exists_true cs else cs)
                      file_paths cs in
  let dir_paths := Re.findall dir_path_pattern query_ in
  let cs := fold_left (fun cs path =>
                         if os_path_isdir path
                         then add_entity_now "directory" path exists_true cs else cs)
                      dir_paths cs in
  let repos := Re.findall repo_pattern query_ in
  let cs := fold_left (fun cs repo => add_entity_now "repository" repo None cs)
                      repos cs in
  let extensions := findall_group extension_pattern query_ in
  fold_left (fun cs ext =>
               if Nat.leb (String.length ext) 5
               then add_entity_now "extension" ("." +:+ ext) None cs else cs)
            extensions cs.

(** an entity as one of the four loops of [extract_entities_from_query]
    writes it *)
Definition written (e : EntityInfo) : Prop :=
  (type_ e = "file" /\ os_path_exists (value e) = true
   /\ metadata e = [("exists", VBool true)])
  \/ (type_ e = "directory" /\ os_path_isdir (value e) = true
      /\ metadata e = [("exists", VBool true)])
  \/ (type_ e = "repository" /\ metadata e = [])
  \/ (type_ e = "extension" /\ metadata e = []
      /\ exists ext, value e = "." +:+ ext /\ (String.length ext <= 5)%nat).

(** what holds of a session [cs] got from [cs0] by adding such entities
    (used in the proofs below) *)
Definition extended (cs0 cs : Clocked) : Prop :=
  (fst cs0 <= fst cs)%nat
  /\ session_id (snd cs) = session_id (snd cs0)
  /\ created_at (snd cs) = created_at (snd cs0)
  /\ conversation_history (snd cs) = conversation_history (snd cs0)
  /\ context (snd cs) = context (snd cs0)
  /\ active_task (snd cs) = active_task (snd cs0)
  /\ keys (entities (snd cs0)) `prefix_of` keys (entities (snd cs))
  /\ forall key e,
       dict_get key (entities (snd cs)) = Some e ->
       dict_get key (entities (snd cs0)) = Some e
       \/ (key = entity_key (type_ e) (value e)
           /\ written e
           /\ exists m, (fst cs0 <= m < fst cs)%nat /\ last_mentioned e = time m).

End World.

End Sessions.

(* ===================================================================== *)
(** ** What the two loops share: actions, outcomes, tools, prompts        *)
(* ===================================================================== *)

Module Agent.

Record AgentAction : Type := {
  tool : string;
  tool_input : Py.Value;
  log : string
}.

(** [AgentFinish(return_values={output: ...}, log=...)] *)
Record AgentFinish : Type := {
  output : string;
  finish_log : string
}.

(** a value of [agent_outcome] other than [None] *)
Inductive Outcome : Type :=
| Action : AgentAction -> Outcome
| Finish : AgentFinish -> Outcome.

(** [isinstance(o, AgentFinish)] on the content of [agent_outcome] *)
Definition is_finish (o : option Outcome) : bool :=
  match o with
  | Some (Finish _) => true
  | _ => false
  end.

(** One call of [agent_runnable.invoke]: an outcome, the parser's
    exception carrying [str(e)], or any other failure. *)
Inductive PolicyReply : Type :=
| Parsed : Outcome -> PolicyReply
| OutputParserException : string -> PolicyReply
| PolicyFailure : PolicyReply.

(** A reply of [llm.invoke]: its [.content] and the text an f-string
    prints for it. *)
Record Message : Type := {
  content : string;
  shown : string
}.

(** The prompts the sources build, by the data they put in them. *)
Inductive Prompt : Type :=
| LoopPrompt (tool_sequence : list string) (recent : list (AgentAction * string))
| EfficiencyPrompt (steps : Z) (tool_sequence : list string)
                   (recent : list (AgentAction * string))
| SynthesisPrompt (user_query : string) (tool_results : list (string * string))
| RoutingPrompt (query : string).

(** A registered tool.  [invoke] is given the moment of the call, so that
    two calls with equal inputs may answer differently; [None] is a tool
    that raises. *)
Record Tool : Type := {
  name : string;
  invoke : nat -> Py.Value -> option string
}.

(** [tool_map[tool_name]] for [tool_map = {tool.name: tool for tool in tools}]:
    the last tool of that name. *)
Fixpoint tool_map_get (tool_name : string) (tools : list Tool) : option Tool :=
  match tools with
  | [] => None
  | t :: rest =>
      match tool_map_get tool_name rest with
      | Some t' => Some t'
      | None => if String.eqb (name t) tool_name then Some t else None
      end
  end.

(** [list(tool_map.keys())]: the names, each at its first position *)
Fixpoint tool_map_keys (seen : list string) (tools : list Tool) : list string :=
  match tools with
  | [] => []
  | t :: rest =>
      if existsb (String.eqb (name t)) seen then tool_map_keys seen rest
      else name t :: tool_map_keys (name t :: seen) rest
  end.

(** [xs[-n:]] for [n > 0] *)
Definition last_n {A} (n : nat) (xs : list A) : list A :=
  skipn (length xs - n) xs.

(** [len(set(xs)) == 1] *)
Definition one_distinct (xs : list string) : bool :=
  match xs with
  | [] => false
  | x :: rest => forallb (String.eqb x) rest
  end.

(** *** [repr] of a list of str, as an f-string prints [list(...)] *)

Definition hex_digit (n : nat) : ascii :=
  ascii_of_nat (if Nat.ltb n 10 then 48 + n else 87 + n).

Definition printable (c : ascii) : bool :=
  (Text.between 32 126 c || (Text.between 161 255 c && negb (Nat.eqb (Text.code c) 173)))%bool.

Fixpoint repr_body (q : ascii) (s : string) : string :=
  match s with
  | EmptyString => EmptyString
  | String c s' =>
      let n := Text.code c in
      (if Nat.eqb n 92 then "\\"
       else if Ascii.eqb c q then String "\" (String q EmptyString)
       else if Nat.eqb n 10 then "\n"
       else if Nat.eqb n 13 then "\r"
       else if Nat.eqb n 9 then "\t"
       else if printable c then String c EmptyString
       else String "\" (String "x" (String (hex_digit (n / 16))
                                   (String (hex_digit (n mod 16)) EmptyString))))
      +:+ repr_body q s'
  end.

Definition repr_str (s : string) : string :=
  let dq := ascii_of_nat 34 in
  let sq := ascii_of_nat 39 in
  let q := if (Text.mem_char sq s && negb (Text.mem_char dq s))%bool then dq else sq in
  String q (repr_body q s +:+ String q EmptyString).

Fixpoint repr_items (xs : list string) : string :=
  match xs with
  | [] => EmptyString
  | [x] => repr_str x
  | x :: rest => repr_str x +:+ ", " +:+ repr_items rest
  end.

Definition repr_list (xs : list string) : string := "[" +:+ repr_items xs +:+ "]".

End Agent.

(* ===================================================================== *)
(** ** The routing patterns of [can_handle] (both agents list the same)   *)
(* ===================================================================== *)

Module Routing.

Definition extraction_patterns : list Re.regex :=
  [ Re.Seq (Re.Lit "extract") (Re.Opt (Re.Group (Re.Lit "ion")));   (* extract(ion)? *)
    Re.Lit "get content";
    Re.Lit "pull files";
    Re.Seq (Re.Lit "fetch") (Re.Seq (Re.Star true Re.Dot) (Re.Lit "content"));   (* fetch.*content *)
    Re.Seq (Re.Lit "get") (Re.Seq (Re.Star true Re.Dot) (Re.Lit "files from"));  (* get.*files from *)
    Re.Lit ".git";          (* \.git *)
    Re.Lit "github.com";    (* github\.com *)
    Re.Lit "repository";
    Re.Lit "folder";
    Re.Lit "directory" ].

(** [re.search(pattern, text)] as a truth value *)
Definition found (text : string) (pattern : Re.regex) : bool :=
  match Re.search pattern text with
  | Some _ => true
  | None => false
  end.

Definition any_extraction_pattern (query : string) : bool :=
  existsb (found (Text.lower query)) extraction_patterns.

End Routing.

(* ===================================================================== *)
(** ** Texts inside texts (used to state what the patterns look for)      *)
(* ===================================================================== *)

Module Words.

(** every character of [s] is in the class [p] *)
Fixpoint all_chars (p : ascii -> bool) (s : string) : bool :=
  match s with
  | EmptyString => true
  | String c s' => (p c && all_chars p s')%bool
  end.

(** [kw in s] *)
Definition contains (kw s : string) : Prop :=
  exists pre post, s = pre +:+ kw +:+ post.

(** [kw1], and later on the same line [kw2] *)
Definition contains_then (kw1 kw2 s : string) : Prop :=
  exists pre mid post,
    s = pre +:+ kw1 +:+ mid +:+ kw2 +:+ post
    /\ all_chars (fun c => negb (Nat.eqb (Text.code c) 10)) mid = true.

(** a dot and letters: what the pattern of the extensions matches *)
Definition dotted (e : string) : Prop :=
  exists letters, e = "." +:+ letters /\ letters <> EmptyString
                  /\ all_chars Text.is_ascii_letter letters = true.

Definition keywords : list string :=
  ["extract"; "get content"; "pull files"; ".git"; "github.com";
   "repository"; "folder"; "directory"].

(** what the ten patterns of [can_handle] look for, said with [in] *)
Definition asks_for_extraction (s : string) : Prop :=
  (exists kw, In kw keywords /\ contains kw s)
  \/ contains_then "fetch" "content" s
  \/ contains_then "get" "files from" s.

End Words.

(* ===================================================================== *)
(** ** agents/conversation_agent.py                                       *)
(* ===================================================================== *)

Module ConversationAgent.
Import Py Agent.

(** [can_handle] *)
Definition can_handle (query : string) : Q :=
  if Routing.any_extraction_pattern query then 3 # 10 else 7 # 10.

(** *** [_parse_tool_input] *)

Definition space : Re.regex := Re.Set_ Text.is_space.
Definition digit : Re.regex := Re.Set_ Text.is_digit.
Definition quote : Re.regex := Re.Set_ (fun c => Text.mem_char c Text.quotes).

(** [limit\s*=\s*(\d+)] *)
Definition limit_pattern : Re.regex :=
  Re.Seq (Re.Lit "limit") (Re.Seq (Re.Star true space) (Re.Seq (Re.Lit "=")
    (Re.Seq (Re.Star true space) (Re.Group (Re.Plus digit))))).

(** [entity_type\s*=\s*[dq sq]?([a-zA-Z_]+)[dq sq]?] *)
Definition entity_type_pattern : Re.regex :=
  Re.Seq (Re.Lit "entity_type") (Re.Seq (Re.Star true space) (Re.Seq (Re.Lit "=")
    (Re.Seq (Re.Star true space) (Re.Seq (Re.Opt quote)
      (Re.Seq (Re.Group (Re.Plus (Re.Set_ (fun c =>
                 (Text.is_ascii_letter c || Nat.eqb (Text.code c) 95)%bool))))
              (Re.Opt quote)))))).

(** [int(m.group(1)) if m else 5] *)
Definition group_int_or (default : Z) (m : option Re.match_) : Z :=
  match m with
  | Some m' =>
      match Re.group1 m' with
      | Some g => match Text.int_of_str g with Some n => n | None => default end
      | None => default
      end
  | None => default
  end.

Definition group_or (default : string) (m : option Re.match_) : string :=
  match m with
  | Some m' => match Re.group1 m' with Some g => g | None => default end
  | None => default
  end.

(** the [except json.JSONDecodeError] branch: [s] is free text *)
Definition parse_free_text (tool_name s : string) : Value :=
  if String.eqb tool_name "get_system_time" then
    VDict [("format", VStr (Text.strip_chars Text.quotes (Text.strip s)))]
  else if String.eqb tool_name "tavily_search_results_json" then
    VDict [("query", VStr (Text.strip_chars Text.quotes (Text.strip s)))]
  else if String.eqb tool_name "get_conversation_history" then
    let limit :=
      match Text.int_of_str s with
      | Some n => n
      | None => group_int_or 5 (Re.search limit_pattern s)
      end in
    VDict [("limit", VInt limit)]
  else if String.eqb tool_name "get_memory_entities" then
    let entity_type := group_or EmptyString (Re.search entity_type_pattern s) in
    let limit := group_int_or 5 (Re.search limit_pattern s) in
    VDict [("entity_type", VStr entity_type); ("limit", VInt limit)]
  else
    VDict [("input", VStr (Text.strip_chars Text.quotes (Text.strip s)))].

(** lines 401-416: [x] is a decoded JSON text or an input that was no str *)
Definition parse_decoded (tool_name : string) (x : Value) : result Value :=
  if String.eqb tool_name "get_system_time" then
    bind (get x "format" (VStr "%Y-%m-%d %H:%M:%S")) (fun f =>
    bind (strip_quoted f) (fun s =>
    Ok (VDict [("format", VStr s)])))
  else if String.eqb tool_name "tavily_search_results_json" then
    bind (get x "query" VNone) (fun q1 =>
    bind (if truthy q1 then Ok q1 else get x "input" VNone) (fun query =>
    bind (strip_quoted query) (fun s =>
    Ok (VDict [("query", VStr s)]))))
  else if String.eqb tool_name "get_conversation_history" then
    if is_int x then Ok (VDict [("limit", x)])
    else bind (get x "limit" (VInt 5)) (fun l => Ok (VDict [("limit", l)]))
  else if String.eqb tool_name "get_memory_entities" then
    bind (get x "entity_type" (VStr EmptyString)) (fun e =>
    bind (get x "limit" (VInt 5)) (fun l =>
    Ok (VDict [("entity_type", e); ("limit", l)])))
  else Ok x.

Section Normalizer.
(** [json.loads]; [None] is [json.JSONDecodeError] *)
Variable json_loads : string -> option Value.

Definition _parse_tool_input (tool_name : string) (tool_input : Value) : result Value :=
  match tool_input with
  | VStr s =>
      match json_loads s with
      | Some decoded => parse_decoded tool_name decoded
      | None => Ok (parse_free_text tool_name s)
      end
  | _ => parse_decoded tool_name tool_input
  end.

End Normalizer.

(** *** The graph state *)

(** an item of [reflections]: the keys step, type and content *)
Record Reflection : Type := {
  r_step : Z;
  r_type : string;
  r_content : Message
}.

(** [ConversationState] *)
Record State : Type := {
  input : string;
  agent_outcome : option Outcome;
  intermediate_steps : list (AgentAction * string);
  session_id : string;
  memory_context : Value;
  step_counter : Z;
  reflections : list Reflection
}.

Definition set_input (v : string) (st : State) : State :=
  {| input := v; agent_outcome := agent_outcome st;
     intermediate_steps := intermediate_steps st; session_id := session_id st;
     memory_context := memory_context st; step_counter := step_counter st;
     reflections := reflections st |}.

Definition set_agent_outcome (v : option Outcome) (st : State) : State :=
  {| input := input st; agent_outcome := v;
     intermediate_steps := intermediate_steps st; session_id := session_id st;
     memory_context := memory_context st; step_counter := step_counter st;
     reflections := reflections st |}.

Definition set_intermediate_steps (v : list (AgentAction * string)) (st : State) : State :=
  {| input := input st; agent_outcome := agent_outcome st;
     intermediate_steps := v; session_id := session_id st;
     memory_context := memory_context st; step_counter := step_counter st;
     reflections := reflections st |}.

Definition set_session_id (v : string) (st : State) : State :=
  {| input := input st; agent_outcome := agent_outcome st;
     intermediate_steps := intermediate_steps st; session_id := v;
     memory_context := memory_context st; step_counter := step_counter st;
     reflections := reflections st |}.

Definition set_memory_context (v : Value) (st : State) : State :=
  {| input := input st; agent_outcome := agent_outcome st;
     intermediate_steps := intermediate_steps st; session_id := session_id st;
     memory_context := v; step_counter := step_counter st;
     reflections := reflections st |}.

Definition set_step_counter (v : Z) (st : State) : State :=
  {| input := input st; agent_outcome := agent_outcome st;
     intermediate_steps := intermediate_steps st; session_id := session_id st;
     memory_context := memory_context st; step_counter := v;
     reflections := reflections st |}.

Definition set_reflections (v : list Reflection) (st : State) : State :=
  {| input := input st; agent_outcome := agent_outcome st;
     intermediate_steps := intermediate_steps st; session_id := session_id st;
     memory_context := memory_context st; step_counter := step_counter st;
     reflections := v |}.

(** One item of the dict a node returns. *)
Inductive Write : Type :=
| W_input : string -> Write
| W_agent_outcome : option Outcome -> Write
| W_intermediate_steps : list (AgentAction * string) -> Write
| W_session_id : string -> Write
| W_memory_context : Value -> Write
| W_step_counter : Z -> Write
| W_reflections : list Reflection -> Write.

(** How the graph folds one returned item into the state:
    [intermediate_steps] is declared [Annotated[List[...], operator.add]],
    so what is returned for it is added to what is there; every other key
    keeps the value returned last. *)
Definition apply_write (st : State) (w : Write) : State :=
  match w with
  | W_input v => set_input v st
  | W_agent_outcome v => set_agent_outcome v st
  | W_intermediate_steps v => set_intermediate_steps (intermediate_steps st ++ v) st
  | W_session_id v => set_session_id v st
  | W_memory_context v => set_memory_context v st
  | W_step_counter v => set_step_counter v st
  | W_reflections v => set_reflections v st
  end.

Definition apply_writes (st : State) (ws : list Write) : State :=
  fold_left apply_write ws st.

(** [return state]: the whole state as the returned dict *)
Definition whole_state (st : State) : list Write :=
  [ W_input (input st); W_agent_outcome (agent_outcome st);
    W_intermediate_steps (intermediate_steps st); W_session_id (session_id st);
    W_memory_context (memory_context st); W_step_counter (step_counter st);
    W_reflections (reflections st) ].

(** *** [_reason_node]: recovery from unparsable model output *)

(** [(?:\n|$)]: the end of the labelled segment *)
Definition segment_end : Re.regex := Re.Alt (Re.Lit Text.newline) Re.Eos.

(** [Final Answer:\s*(.*?)(?:\n|$)] with DOTALL *)
Definition final_answer_pattern : Re.regex :=
  Re.Seq (Re.Lit "Final Answer:") (Re.Seq (Re.Star true space)
    (Re.Seq (Re.Group (Re.Star false Re.AnyChar)) segment_end)).

(** [(Thought:|Action:|Action Input:|Observation:)] *)
Definition label_pattern : Re.regex :=
  Re.Group (Re.Alt (Re.Lit "Thought:") (Re.Alt (Re.Lit "Action:")
    (Re.Alt (Re.Lit "Action Input:") (Re.Lit "Observation:")))).

(** [label.*?(?=stop1|stop2|...|$)] with DOTALL *)
Definition until (label : string) (stops : list string) : Re.regex :=
  Re.Seq (Re.Lit label) (Re.Seq (Re.Star false Re.AnyChar)
    (Re.Ahead (fold_right (fun stop r => Re.Alt (Re.Lit stop) r) Re.Eos stops))).

Definition thought_pattern : Re.regex :=
  until "Thought:" ["Action:"; "Observation:"; "Final Answer:"].
Definition action_pattern : Re.regex :=
  until "Action:" ["Observation:"; "Final Answer:"].
Definition action_input_pattern : Re.regex :=
  until "Action Input:" ["Observation:"; "Final Answer:"].
Definition observation_pattern : Re.regex :=
  until "Observation:" ["Thought:"; "Action:"; "Final Answer:"].

Definition parse_apology : string :=
  "I apologize, but I couldn't process that correctly. Please try asking in a different way.".

(** the [except OutputParserException] branch; [error_text] is [str(e)] *)
Definition recover (error_text : string) : AgentFinish :=
  let output_text := Text.strip (Text.split_last "Could not parse LLM output:" error_text) in
  let output_text :=
    match Re.search final_answer_pattern output_text with
    | Some m => Text.strip (group_or EmptyString (Some m))
    | None =>
        match Re.search label_pattern output_text with
        | None => output_text
        | Some _ =>
            Re.remove_all observation_pattern
              (Re.remove_all action_input_pattern
                (Re.remove_all action_pattern
                  (Re.remove_all thought_pattern output_text)))
        end
    end in
  let output_text :=
    if String.eqb (Text.strip output_text) EmptyString then parse_apology else output_text in
  {| output := output_text; finish_log := output_text |}.

(** *** The nodes and the routers *)

Definition budget_apology : AgentFinish :=
  {| output := "I've spent some time analyzing your request but couldn't reach a clear conclusion. Could you please clarify what you're looking for?";
     finish_log := "Max steps reached" |}.

Definition indent : string := "            ".

(** the f-string of lines 293-304 *)
Definition enhanced_input (reflection : Message) (original_input : string) : string :=
  Text.newline
  +:+ indent +:+ "Your previous approach has taken multiple steps without reaching a conclusion." +:+ Text.newline
  +:+ indent +:+ Text.newline
  +:+ indent +:+ "Reflection: " +:+ shown reflection +:+ Text.newline
  +:+ indent +:+ Text.newline
  +:+ indent +:+ "Please reconsider your strategy. Consider whether you can:" +:+ Text.newline
  +:+ indent +:+ "1. Answer directly from existing information" +:+ Text.newline
  +:+ indent +:+ "2. Use a different tool that might be more effective" +:+ Text.newline
  +:+ indent +:+ "3. Break down the problem differently" +:+ Text.newline
  +:+ indent +:+ Text.newline
  +:+ indent +:+ "Original query: " +:+ original_input +:+ Text.newline
  +:+ indent.

Section Graph.
(** [self.agent_runnable.invoke], [self.llm.invoke], [json.loads] and the
    tools handed to the constructor.  The first argument of the first two
    is the moment of the call. *)
Variable policy : nat -> string -> list (AgentAction * string) -> PolicyReply.
Variable llm : nat -> Prompt -> option Message.
Variable json_loads : string -> option Value.
Variable tools : list Tool.

Definition conversation_tools : list Tool :=
  List.filter (fun t => negb (existsb (String.eqb (name t))
                          ["extract_content_local"; "extract_git_content"])) tools.

(** A node is given a dict, may assign to its items in place, and
    returns a dict: the result is the dict it was given, as the node left
    it, and the items of the dict it returned. *)
Definition _reason_node (now : nat) (st : State) : result (State * list Write) :=
  match policy now (input st) (intermediate_steps st) with
  | Parsed agent_outcome => Ok (st, [W_agent_outcome (Some agent_outcome)])
  | OutputParserException error_text =>
      Ok (st, [W_agent_outcome (Some (Finish (recover error_text)))])
  | PolicyFailure => Raise LLMFailure
  end.

Definition tool_results (st : State) : list (string * string) :=
  map (fun s => (tool (fst s), Text.take 1000 (snd s))) (intermediate_steps st).

Definition _synthesize_from_tools (now : nat) (st : State) : result string :=
  match llm now (SynthesisPrompt (input st) (tool_results st)) with
  | Some synthesis_response => Ok (content synthesis_response)
  | None => Raise LLMFailure
  end.

Definition tool_sequence (st : State) : list string :=
  map (fun s => tool (fst s)) (last_n 3 (intermediate_steps st)).

(** lines 231-263 *)
Definition loop_check (now : nat) (st : State) : result State :=
  let current_steps := step_counter st in
  if (Nat.leb 2 (length (tool_sequence st))
      && one_distinct (last_n 2 (tool_sequence st)))%bool
  then
    match llm now (LoopPrompt (tool_sequence st) (last_n 2 (intermediate_steps st))) with
    | None => Raise LLMFailure
    | Some reflection =>
        let st1 :=
          set_reflections
            (reflections st ++ [{| r_step := current_steps; r_type := "loop_detection";
                                   r_content := reflection |}]) st in
        if ((3 <? current_steps) && one_distinct (tool_sequence st))%bool
        then
          bind (_synthesize_from_tools now st1) (fun direct_answer =>
          Ok (set_agent_outcome
                (Some (Finish {| output := direct_answer;
                                 finish_log := "Synthesized answer from repeated tool calls" |}))
                st1))
        else Ok st1
    end
  else Ok st.

(** lines 265-306; [st0] is the state the node was entered with *)
Definition efficiency_check (now : nat) (st0 st : State) : result State :=
  let current_steps := step_counter st0 in
  if ((5 <? current_steps) && negb (is_finish (agent_outcome st)))%bool
  then
    match llm now (EfficiencyPrompt current_steps (tool_sequence st0)
                                    (last_n 3 (intermediate_steps st0))) with
    | None => Raise LLMFailure
    | Some reflection =>
        let st1 :=
          set_reflections
            (reflections st ++ [{| r_step := current_steps; r_type := "efficiency";
                                   r_content := reflection |}]) st in
        Ok (set_input (enhanced_input reflection (input st1)) st1)
    end
  else Ok st.

(** [_reflect_node].  The node also looks the session up and files each
    reflection in it ([session.add_entity]); the session is no part of the
    graph state and is left to module [Session]. *)
Definition _reflect_node (now : nat) (st : State) : result (State * list Write) :=
  if is_finish (agent_outcome st) then Ok (st, whole_state st)
  else if ((step_counter st <? 2) || Nat.ltb (length (intermediate_steps st)) 2)%bool
  then Ok (st, whole_state st)
  else
    bind (loop_check now st) (fun st1 =>
    bind (efficiency_check now st st1) (fun st2 =>
    Ok (st2, whole_state st2))).

Definition not_found (tool_name : string) : string :=
  "Tool '" +:+ tool_name +:+ "' not found in conversation tools. Available tools: "
  +:+ repr_list (tool_map_keys [] conversation_tools).

Definition _act_node (now : nat) (st : State) : result (State * list Write) :=
  let current_steps := step_counter st in
  let st := set_step_counter (current_steps + 1) st in
  match agent_outcome st with
  | None => Ok (st, [W_intermediate_steps []])
  | Some (Finish _) => Raise AttributeError
  | Some (Action agent_action) =>
      let tool_name := tool agent_action in
      match tool_map_get tool_name conversation_tools with
      | None =>
          Ok (st, [W_intermediate_steps [(agent_action, not_found tool_name)];
                   W_step_counter (step_counter st)])
      | Some t =>
          bind (_parse_tool_input json_loads tool_name (tool_input agent_action))
            (fun filtered_input =>
          match invoke t now filtered_input with
          | None => Raise ToolFailure
          | Some tool_result =>
              Ok (st, [W_intermediate_steps [(agent_action, tool_result)];
                       W_step_counter (step_counter st)])
          end)
      end
  end.

Definition _finish_node (st : State) : result (State * list Write) :=
  Ok (st, whole_state st).

Inductive Route : Type := route_act | route_finish.

(** A router is given a dict, may assign to its items in place, and
    returns a label: the result is that dict as the router left it, and
    the label. *)
Definition _should_continue (st : State) : State * Route :=
  let current_steps := step_counter st in
  if 10 <=? current_steps
  then (set_agent_outcome (Some (Finish budget_apology)) st, route_finish)
  else if is_finish (agent_outcome st) then (st, route_finish)
  else (st, route_act).

Definition _post_reflection_router (st : State) : State * Route :=
  if is_finish (agent_outcome st) then (st, route_finish) else (st, route_act).

(** *** The graph of [process]

    Nodes [reason], [reflect], [act], [finish]; entry point [reason];
    after [reason] the router [_should_continue] with act -> reflect and
    finish -> finish; after [reflect] the router [_post_reflection_router]
    with act -> act and finish -> finish; act -> reason; finish -> END.
    A run stands before a node, or before the conditional edge that
    leaves one.

    How the graph runs them: a node and a router are each given a dict
    read from the state of the run, and the run keeps what they return.
    The dict a node returns is folded into the state item by item, with
    [operator.add] for [intermediate_steps] as [ConversationState]
    declares, which is what makes the one-pair lists that [_act_node]
    returns grow the history; an item a node assigned in place and did
    not return is not kept.  Of a router the label alone is kept: the
    apology [_should_continue] assigns in place does not reach the state
    of the run. *)
Inductive Point : Type :=
| at_reason        (* about to run reason *)
| after_reason     (* reason ran; [_should_continue] is to route *)
| at_reflect
| after_reflect    (* reflect ran; [_post_reflection_router] is to route *)
| at_act
| at_finish
| at_END.

Record Config : Type := {
  point : Point;
  clock : nat;
  state : State
}.

Inductive Step : Type :=
| Goes : Config -> Step
| Stops : Step
| Crashes : Exn -> Step.

(** running a node on the state [st] of the run: the items of the dict it
    returns are folded into [st]; the dict the node was given, with what
    it assigned in place, is dropped *)
Definition after_node (st : State) (r : result (State * list Write))
    (next : Point) (now : nat) : Step :=
  match r with
  | Ok (_, ws) => Goes {| point := next; clock := S now; state := apply_writes st ws |}
  | Raise e => Crashes e
  end.

(** a conditional edge on the state [st] of the run: the label the router
    returns chooses the next node, and [st] stays as it is *)
Definition after_router (st : State) (r : State * Route)
    (on_act on_finish : Point) (now : nat) : Step :=
  Goes {| point := match snd r with route_act => on_act | route_finish => on_finish end;
          clock := S now; state := st |}.

Definition step (c : Config) : Step :=
  let now := clock c in
  let st := state c in
  match point c with
  | at_reason => after_node st (_reason_node now st) after_reason now
  | after_reason => after_router st (_should_continue st) at_reflect at_finish now
  | at_reflect => after_node st (_reflect_node now st) after_reflect now
  | after_reflect => after_router st (_post_reflection_router st) at_act at_finish now
  | at_act => after_node st (_act_node now st) at_reason now
  | at_finish => after_node st (_finish_node st) at_END now
  | at_END => Stops
  end.

(** One superstep of the graph: a node, and the conditional edge that
    leaves it. *)
Definition superstep (c : Config) : Step :=
  match step c with
  | Goes c' =>
      match point c' with
      | after_reason | after_reflect => step c'
      | _ => Goes c'
      end
  | other => other
  end.

(** What [app.invoke] comes to: the state at END, the exception of a node,
    or the error of the recursion limit.  A run returns when it stands at
    END before its supersteps are used up; once they are, it raises. *)
Inductive RunResult : Type :=
| Finished : State -> RunResult
| Failed : Exn -> RunResult
| GraphRecursionError : RunResult.

Fixpoint invoke_from (supersteps : nat) (c : Config) : RunResult :=
  match supersteps with
  | O => GraphRecursionError
  | S supersteps' =>
      match superstep c with
      | Stops => Finished (state c)
      | Crashes e => Failed e
      | Goes c' => invoke_from supersteps' c'
      end
  end.

(** [process] calls [app.invoke] without a config, so the recursion limit
    is the default of the graph library *)
Definition recursion_limit : nat := 25.

Definition app_invoke (c : Config) : RunResult := invoke_from recursion_limit c.

(** the configurations a run goes through, the first one included, with
    the conditional edges as steps of their own and for as many steps as
    asked *)
Fixpoint trace (fuel : nat) (c : Config) : list Config :=
  c :: match fuel with
       | O => []
       | S fuel' =>
           match step c with
           | Goes c' => trace fuel' c'
           | _ => []
           end
       end.

(** the dict [app.invoke] is given in [process] *)
Definition initial_state (enhanced_query query sid : string) : State :=
  {| input := enhanced_query; agent_outcome := None; intermediate_steps := [];
     session_id := sid;
     memory_context := VDict [("original_input", VStr query)];
     step_counter := 0; reflections := [] |}.

Definition start (enhanced_query query sid : string) : Config :=
  {| point := at_reason; clock := O;
     state := initial_state enhanced_query query sid |}.

(** [result[agent_outcome].return_values[output]], what [process] returns *)
Definition process_output (st : State) : result string :=
  match agent_outcome st with
  | Some (Finish f) => Ok (output f)
  | _ => Raise AttributeError
  end.

End Graph.

(** *** What holds along a run (used in the proofs below) *)

Definition pending (st : State) : Prop := is_finish (agent_outcome st) = false.

(** a run goes to its end with a final answer, or with its budget spent *)
Definition settled (st : State) : Prop :=
  is_finish (agent_outcome st) = true \/ step_counter st = 10.

Definition wf (c : Config) : Prop :=
  let st := state c in
  let k := step_counter st in
  match point c with
  | at_reason => 0 <= k <= 10 /\ pending st
  | after_reason => 0 <= k <= 10 /\ agent_outcome st <> None
  | at_reflect | at_act => 0 <= k < 10 /\ pending st /\ agent_outcome st <> None
  | after_reflect => 0 <= k < 10 /\ agent_outcome st <> None
  | at_finish | at_END => 0 <= k <= 10 /\ settled st /\ agent_outcome st <> None
  end.

(** a run stands before a node or at END, not before a conditional edge *)
Definition at_node (c : Config) : Prop :=
  match point c with
  | after_reason | after_reflect => False
  | _ => True
  end.

(** the supersteps a run has taken at least when it stands at [c]: three
    for each act, and those of the round it is in *)
Definition used (c : Config) : nat :=
  let k := Z.to_nat (step_counter (state c)) in
  match point c with
  | at_reason => 3 * k
  | after_reason | at_reflect | at_finish => 3 * k + 1
  | after_reflect | at_act | at_END => 3 * k + 2
  end.

(** whether the step from [c] is a node, which takes a superstep *)
Definition runs_node (c : Config) : nat :=
  match point c with
  | after_reason | after_reflect | at_END => 0
  | _ => 1
  end.

(** the outcome is final and is [o] or the apology; no node that could
    replace it or act is ahead *)
Definition closed_with (o : option Outcome) (c : Config) : Prop :=
  match point c with
  | at_reason | at_reflect | at_act => False
  | _ => True
  end
  /\ is_finish (agent_outcome (state c)) = true
  /\ (agent_outcome (state c) = o
      \/ agent_outcome (state c) = Some (Finish budget_apology)).

(** *** Counting and comparing along a run (used in the proofs below) *)

Definition stands_at_act (c : Config) : bool :=
  match point c with at_act => true | _ => false end.

Definition stands_at_reason (c : Config) : bool :=
  match point c with at_reason => true | _ => false end.

(** how often a run stood before [act], and before [reason] *)
Definition acts (tr : list Config) : nat := length (List.filter stands_at_act tr).
Definition reasonings (tr : list Config) : nat :=
  length (List.filter stands_at_reason tr).

Definition acts_left (c : Config) : nat :=
  match point c with
  | at_finish | at_END => 0
  | _ => Z.to_nat (10 - step_counter (state c))
  end.

Definition reasonings_left (c : Config) : nat :=
  match point c with
  | at_finish | at_END => 0
  | at_reason => S (Z.to_nat (10 - step_counter (state c)))
  | _ => Z.to_nat (10 - step_counter (state c))
  end.

(** from [reason] to [act] the outcome is set, and the counter is at most
    the length of the history *)
Definition proposed (c : Config) : Prop :=
  step_counter (state c) <= Z.of_nat (length (intermediate_steps (state c)))
  /\ match point c with
     | after_reason | at_reflect | after_reflect | at_act =>
         agent_outcome (state c) <> None
     | _ => True
     end.

(** what [c1] has of history and reflections, [c2] still has, and the
    counter of [c2] is no smaller *)
Definition grown (c1 c2 : Config) : Prop :=
  intermediate_steps (state c1) `prefix_of` intermediate_steps (state c2)
  /\ reflections (state c1) `prefix_of` reflections (state c2)
  /\ step_counter (state c1) <= step_counter (state c2).

(** what holds of the working input along a run that [process] started
    with [enhanced_query] (used in the proofs below) *)
Definition input_kept (enhanced_query query sid : string) (c : Config) : Prop :=
  (step_counter (state c) <= 5 -> input (state c) = enhanced_query)
  /\ Words.contains enhanced_query (input (state c))
  /\ session_id (state c) = sid
  /\ memory_context (state c) = VDict [("original_input", VStr query)].

(** *** [_enhance_with_memory] *)

(** [needle in s] *)
Definition is_in (needle s : string) : bool :=
  match Text.find_after needle s with
  | Some _ => true
  | None => false
  end.

Definition context_references : list string :=
  ["previous"; "earlier"; "before"; "last time"; "you mentioned";
   "we discussed"; "that"; "those"; "these"; "it"; "the file"; "the repo";
   "again"; "recall"; "remember"].

(** [sep.join(parts)] *)
Fixpoint join (sep : string) (parts : list string) : string :=
  match parts with
  | [] => EmptyString
  | [x] => x
  | x :: rest => x +:+ sep +:+ join sep rest
  end.

(** the lines one turn of the history adds to [context_parts] *)
Definition turn_lines (turn : Sessions.Turn) : list string :=
  ("- You: " +:+ Sessions.query turn)
  :: match Sessions.response turn with
     | Some response =>
         if String.eqb response EmptyString then []
         else
           let response :=
             if Nat.ltb 150 (String.length response)
             then Text.take 150 response +:+ "..." else response in
           ["- Assistant: " +:+ response]
     | None => []
     end.

Definition entity_line (entity : Session.EntityInfo) : string :=
  "- " +:+ Session.type_ entity +:+ ": " +:+ Session.value entity.

(** lines 157-182: the context the session gives; [[]] also stands for
    the case where the [if] of line 157 is not entered *)
Definition context_parts (query : string) (session : Sessions.SessionMemory)
  : list string :=
  let has_context_reference :=
    existsb (fun ref => is_in ref (Text.lower query)) context_references in
  if (has_context_reference
      || Nat.ltb 0 (length (Sessions.conversation_history session)))%bool
  then
    let history_part :=
      match Sessions.conversation_history session with
      | [] => []
      | _ =>
          "Recent conversation:"
          :: flat_map turn_lines
               (Sessions.last_items 3 (Sessions.conversation_history session))
      end in
    let entities := Sessions.get_recent_entities None 5 session in
    let entity_part :=
      match entities with
      | [] => []
      | _ => (Text.newline +:+ "Recently mentioned:") :: map entity_line entities
      end in
    let task_part :=
      match Sessions.active_task session with
      | Some task =>
          [Text.newline +:+ "Current task:"; "- " +:+ Sessions.description task]
      | None => []
      end in
    history_part ++ entity_part ++ task_part
  else [].

Section Memory.
Variable time : nat -> Session.Time.
Variable os_path_exists : string -> bool.
Variable os_path_isdir : string -> bool.

(** [_enhance_with_memory]: the text it returns, and the session as
    [extract_entities_from_query] left it *)
Definition _enhance_with_memory (query : string) (cs : Sessions.Clocked)
  : string * Sessions.Clocked :=
  let cs := Sessions.extract_entities_from_query time os_path_exists os_path_isdir
              query cs in
  let session := snd cs in
  match context_parts query session with
  | [] => (query, cs)
  | parts =>
      ("Context from memory:" +:+ Text.newline +:+ join Text.newline parts
       +:+ Text.newline +:+ Text.newline +:+ "Current query: " +:+ query, cs)
  end.

End Memory.

End ConversationAgent.

(* ===================================================================== *)
(** ** agents/extraction_agent.py                                         *)
(* ===================================================================== *)

Module ExtractionAgent.
Import Py Agent.

(** [can_handle] *)
Definition can_handle (query : string) : Q :=
  if Routing.any_extraction_pattern query then 8 # 10 else 2 # 10.

(** *** [_parse_tool_input] *)

(** [\.[a-zA-Z]+] *)
Definition extension_pattern : Re.regex :=
  Re.Seq (Re.Lit ".") (Re.Plus (Re.Set_ Text.is_ascii_letter)).

(** [/[\w/\.-]+] *)
Definition directory_pattern : Re.regex :=
  Re.Seq (Re.Lit "/") (Re.Plus (Re.Set_ (fun c =>
    (Text.is_word c || Text.mem_char c "/.-")%bool))).

(** [https?://[^\s]+] *)
Definition git_url_pattern : Re.regex :=
  Re.Seq (Re.Lit "http") (Re.Seq (Re.Opt (Re.Lit "s")) (Re.Seq (Re.Lit "://")
    (Re.Plus (Re.Set_ (fun c => negb (Text.is_space c)))))).

Definition whole_or (default : string) (m : option Re.match_) : string :=
  match m with
  | Some m' => Re.whole m'
  | None => default
  end.

Definition _parse_local_input (input_str : string) : Value :=
  let directory := whole_or (Text.strip input_str) (Re.search directory_pattern input_str) in
  let ext_match := Re.findall extension_pattern input_str in
  let extensions := match ext_match with [] => [".py"] | _ => ext_match end in
  VDict [("directory", VStr directory); ("extensions", VList (map VStr extensions))].

Definition _parse_git_input (input_str : string) : Value :=
  let git_url := whole_or (Text.strip input_str) (Re.search git_url_pattern input_str) in
  let ext_match := Re.findall extension_pattern input_str in
  VDict [("git_url", VStr git_url); ("extensions", VList (map VStr ext_match))].

Section Normalizer.
Variable json_loads : string -> option Value.

(** lines 174-183: the local [parsed_input] is bound only when the input
    is a str; [None] is the unbound local. *)
Definition parsed_input_of (tool_name : string) (tool_input : Value) : option Value :=
  match tool_input with
  | VStr s =>
      Some (match json_loads s with
            | Some decoded => decoded
            | None =>
                if String.eqb tool_name "extract_content_local" then _parse_local_input s
                else if String.eqb tool_name "extract_git_content" then _parse_git_input s
                else VDict [("input", VStr s)]
            end)
  | _ => None
  end.

Definition _parse_tool_input (tool_name : string) (tool_input : Value) : result Value :=
  if is_dict tool_input then Ok tool_input
  else
    let parsed_input := parsed_input_of tool_name tool_input in
    if String.eqb tool_name "extract_content_local" then
      match parsed_input with
      | None => Raise UnboundLocalError
      | Some p =>
          bind (setdefault p "extensions" (VList [VStr ".py"])) (fun p1 =>
          setdefault p1 "clipboard_only" (VBool false))
      end
    else if String.eqb tool_name "extract_git_content" then
      match parsed_input with
      | None => Raise UnboundLocalError
      | Some p =>
          bind (setdefault p "extensions" (VList [])) (fun p1 =>
          bind (setdefault p1 "clone" (VBool false)) (fun p2 =>
          setdefault p2 "clipboard_only" (VBool true)))
      end
    else
      match parsed_input with
      | None => Raise UnboundLocalError
      | Some p => Ok p
      end.

End Normalizer.

(** *** The graph state: [ExtractionState] *)

Record State : Type := {
  input : string;
  agent_outcome : option Outcome;
  intermediate_steps : list (AgentAction * string);
  session_id : string;
  step_counter : Z
}.

Definition set_agent_outcome (v : option Outcome) (st : State) : State :=
  {| input := input st; agent_outcome := v;
     intermediate_steps := intermediate_steps st; session_id := session_id st;
     step_counter := step_counter st |}.

Definition set_intermediate_steps (v : list (AgentAction * string)) (st : State) : State :=
  {| input := input st; agent_outcome := agent_outcome st;
     intermediate_steps := v; session_id := session_id st;
     step_counter := step_counter st |}.

Definition set_step_counter (v : Z) (st : State) : State :=
  {| input := input st; agent_outcome := agent_outcome st;
     intermediate_steps := intermediate_steps st; session_id := session_id st;
     step_counter := v |}.

Inductive Write : Type :=
| W_input : string -> Write
| W_agent_outcome : option Outcome -> Write
| W_intermediate_steps : list (AgentAction * string) -> Write
| W_session_id : string -> Write
| W_step_counter : Z -> Write.

(** [intermediate_steps] is declared with [operator.add]; the other keys
    keep the value returned last. *)
Definition apply_write (st : State) (w : Write) : State :=
  match w with
  | W_input v =>
      {| input := v; agent_outcome := agent_outcome st;
         intermediate_steps := intermediate_steps st; session_id := session_id st;
         step_counter := step_counter st |}
  | W_agent_outcome v => set_agent_outcome v st
  | W_intermediate_steps v => set_intermediate_steps (intermediate_steps st ++ v) st
  | W_session_id v =>
      {| input := input st; agent_outcome := agent_outcome st;
         intermediate_steps := intermediate_steps st; session_id := v;
         step_counter := step_counter st |}
  | W_step_counter v => set_step_counter v st
  end.

Definition apply_writes (st : State) (ws : list Write) : State :=
  fold_left apply_write ws st.

Definition whole_state (st : State) : list Write :=
  [ W_input (input st); W_agent_outcome (agent_outcome st);
    W_intermediate_steps (intermediate_steps st); W_session_id (session_id st);
    W_step_counter (step_counter st) ].

(** *** The nodes and the router *)

Definition budget_apology : AgentFinish :=
  {| output := "Extraction process reached maximum steps. Please refine your query.";
     finish_log := "Max steps reached" |}.

(** the [except OutputParserException] branch of [_reason_node] *)
Definition recover (error_text : string) : AgentFinish :=
  let output_text := Text.strip (Text.split_last "Could not parse LLM output:" error_text) in
  {| output := output_text; finish_log := output_text |}.

Section Graph.
Variable policy : nat -> string -> list (AgentAction * string) -> PolicyReply.
Variable json_loads : string -> option Value.
Variable tools : list Tool.

Definition extraction_tools : list Tool :=
  List.filter (fun t => existsb (String.eqb (name t))
                     ["extract_content_local"; "extract_git_content"]) tools.

Definition _reason_node (now : nat) (st : State) : result (State * list Write) :=
  match policy now (input st) (intermediate_steps st) with
  | Parsed agent_outcome => Ok (st, [W_agent_outcome (Some agent_outcome)])
  | OutputParserException error_text =>
      Ok (st, [W_agent_outcome (Some (Finish (recover error_text)))])
  | PolicyFailure => Raise LLMFailure
  end.

Definition not_found (tool_name : string) : string :=
  "Tool '" +:+ tool_name +:+ "' not found in extraction tools".

Definition _act_node (now : nat) (st : State) : result (State * list Write) :=
  let current_steps := step_counter st in
  let st := set_step_counter (current_steps + 1) st in
  match agent_outcome st with
  | None => Ok (st, [W_intermediate_steps []])
  | Some (Finish _) => Raise AttributeError
  | Some (Action agent_action) =>
      let tool_name := tool agent_action in
      match tool_map_get tool_name extraction_tools with
      | None =>
          Ok (st, [W_intermediate_steps [(agent_action, not_found tool_name)];
                   W_step_counter (step_counter st)])
      | Some t =>
          bind (_parse_tool_input json_loads tool_name (tool_input agent_action))
            (fun filtered_input =>
          match invoke t now filtered_input with
          | None => Raise ToolFailure
          | Some tool_result =>
              Ok (st, [W_intermediate_steps [(agent_action, tool_result)];
                       W_step_counter (step_counter st)])
          end)
      end
  end.

Definition _finish_node (st : State) : result (State * list Write) :=
  Ok (st, whole_state st).

Inductive Route : Type := route_act | route_finish.

Definition _should_continue (st : State) : State * Route :=
  let current_steps := step_counter st in
  if 5 <=? current_steps
  then (set_agent_outcome (Some (Finish budget_apology)) st, route_finish)
  else if is_finish (agent_outcome st) then (st, route_finish)
  else (st, route_act).

(** The graph of [process]: nodes [reason], [act], [finish]; entry point
    [reason]; after [reason] the router [_should_continue], whose label
    names the next node; act -> reason; finish -> END. *)
Inductive Point : Type :=
| at_reason
| after_reason     (* reason ran; [_should_continue] is to route *)
| at_act
| at_finish
| at_END.

Record Config : Type := {
  point : Point;
  clock : nat;
  state : State
}.

Inductive Step : Type :=
| Goes : Config -> Step
| Stops : Step
| Crashes : Exn -> Step.

(** running a node on the state [st] of the run: the items of the dict it
    returns are folded into [st]; what the node assigned in place and did
    not return is dropped *)
Definition after_node (st : State) (r : result (State * list Write))
    (next : Point) (now : nat) : Step :=
  match r with
  | Ok (_, ws) => Goes {| point := next; clock := S now; state := apply_writes st ws |}
  | Raise e => Crashes e
  end.

(** the conditional edge on the state [st] of the run: the label chooses
    the next node, and [st] stays as it is *)
Definition after_router (st : State) (r : State * Route)
    (on_act on_finish : Point) (now : nat) : Step :=
  Goes {| point := match snd r with route_act => on_act | route_finish => on_finish end;
          clock := S now; state := st |}.

Definition step (c : Config) : Step :=
  let now := clock c in
  let st := state c in
  match point c with
  | at_reason => after_node st (_reason_node now st) after_reason now
  | after_reason => after_router st (_should_continue st) at_act at_finish now
  | at_act => after_node st (_act_node now st) at_reason now
  | at_finish => after_node st (_finish_node st) at_END now
  | at_END => Stops
  end.

(** one superstep of the graph: a node, and the conditional edge that
    leaves it *)
Definition superstep (c : Config) : Step :=
  match step c with
  | Goes c' =>
      match point c' with
      | after_reason => step c'
      | _ => Goes c'
      end
  | other => other
  end.

(** what [app.invoke] comes to: the state at END, the exception of a node,
    or the error of the recursion limit; a run returns when it stands at
    END before its supersteps are used up, and once they are, it raises *)
Inductive RunResult : Type :=
| Finished : State -> RunResult
| Failed : Exn -> RunResult
| GraphRecursionError : RunResult.

Fixpoint invoke_from (supersteps : nat) (c : Config) : RunResult :=
  match supersteps with
  | O => GraphRecursionError
  | S supersteps' =>
      match superstep c with
      | Stops => Finished (state c)
      | Crashes e => Failed e
      | Goes c' => invoke_from supersteps' c'
      end
  end.

(** [process] calls [app.invoke] without a config *)
Definition recursion_limit : nat := 25.

Definition app_invoke (c : Config) : RunResult := invoke_from recursion_limit c.

Fixpoint trace (fuel : nat) (c : Config) : list Config :=
  c :: match fuel with
       | O => []
       | S fuel' =>
           match step c with
           | Goes c' => trace fuel' c'
           | _ => []
           end
       end.

(** the dict [app.invoke] is given in [process] *)
Definition initial_state (query : string) (sid : option string) : State :=
  {| input := query; agent_outcome := None; intermediate_steps := [];
     session_id := match sid with Some s => s | None => EmptyString end;
     step_counter := 0 |}.

Definition start (query : string) (sid : option string) : Config :=
  {| point := at_reason; clock := O; state := initial_state query sid |}.

(** steps enough to follow any run to its end: three for each of at most
    five rounds, three more to finish *)
Definition enough : nat := 18.

(** [result[agent_outcome].return_values[output]], what [process] returns *)
Definition process_output (st : State) : result string :=
  match agent_outcome st with
  | Some (Finish f) => Ok (output f)
  | _ => Raise AttributeError
  end.

End Graph.

(** *** What holds along a run (used in the proofs below) *)

Definition pending (st : State) : Prop := is_finish (agent_outcome st) = false.

(** a run goes to its end with a final answer, or with its budget spent *)
Definition settled (st : State) : Prop :=
  is_finish (agent_outcome st) = true \/ step_counter st = 5.

Definition wf (c : Config) : Prop :=
  let st := state c in
  let k := step_counter st in
  match point c with
  | at_reason => 0 <= k <= 5 /\ pending st
  | after_reason => 0 <= k <= 5 /\ agent_outcome st <> None
  | at_act => 0 <= k < 5 /\ pending st /\ agent_outcome st <> None
  | at_finish | at_END => 0 <= k <= 5 /\ settled st /\ agent_outcome st <> None
  end.

(** a run stands before a node or at END, not before the conditional edge *)
Definition at_node (c : Config) : Prop :=
  match point c with
  | after_reason => False
  | _ => True
  end.

(** a bound on the supersteps a run still needs, the look at END included *)
Definition remaining (c : Config) : nat :=
  let r := Z.to_nat (5 - step_counter (state c)) in
  match point c with
  | at_reason => 2 * r + 3
  | after_reason | at_act => 2 * r + 2
  | at_finish => 2
  | at_END => 1
  end.

(** whether the step from [c] is a node, which takes a superstep *)
Definition runs_node (c : Config) : nat :=
  match point c with
  | after_reason | at_END => 0
  | _ => 1
  end.

Definition closed_with (o : option Outcome) (c : Config) : Prop :=
  match point c with
  | at_reason | at_act => False
  | _ => True
  end
  /\ is_finish (agent_outcome (state c)) = true
  /\ (agent_outcome (state c) = o
      \/ agent_outcome (state c) = Some (Finish budget_apology)).

(** the history has one entry for each step counted, and twice as many
    once the finish node has returned the whole state *)
Definition tallied (c : Config) : Prop :=
  Z.of_nat (length (intermediate_steps (state c)))
  = match point c with
    | at_END => 2 * step_counter (state c)
    | _ => step_counter (state c)
    end.

(** *** Counting and comparing along a run (used in the proofs below) *)

Definition stands_at_act (c : Config) : bool :=
  match point c with at_act => true | _ => false end.

Definition stands_at_reason (c : Config) : bool :=
  match point c with at_reason => true | _ => false end.

Definition acts (tr : list Config) : nat := length (List.filter stands_at_act tr).
Definition reasonings (tr : list Config) : nat :=
  length (List.filter stands_at_reason tr).

Definition acts_left (c : Config) : nat :=
  match point c with
  | at_finish | at_END => 0
  | _ => Z.to_nat (5 - step_counter (state c))
  end.

Definition reasonings_left (c : Config) : nat :=
  match point c with
  | at_finish | at_END => 0
  | at_reason => S (Z.to_nat (5 - step_counter (state c)))
  | _ => Z.to_nat (5 - step_counter (state c))
  end.

Definition grown (c1 c2 : Config) : Prop :=
  intermediate_steps (state c1) `prefix_of` intermediate_steps (state c2)
  /\ step_counter (state c1) <= step_counter (state c2).

End ExtractionAgent.

(* ===================================================================== *)
(** ** agents/coordinator.py                                              *)
(* ===================================================================== *)

Module Coordinator.
Import Agent.

(** [_fallback_routing] *)
Definition _fallback_routing (query : string) : string :=
  let extraction_confidence := ExtractionAgent.can_handle query in
  let conversation_confidence := ConversationAgent.can_handle query in
  if negb (Qle_bool extraction_confidence conversation_confidence)
  then "extraction" else "conversation".

Section Classify.
(** [self.llm.invoke] on the routing prompt; [None] is any exception
    inside the [try] block. *)
Variable llm : Prompt -> option Message.

(** [_classify_query] *)
Definition _classify_query (query : string) : string :=
  match llm (RoutingPrompt query) with
  | Some response =>
      let classification := Text.lower (Text.strip (content response)) in
      if negb (existsb (String.eqb classification) ["extraction"; "conversation"])
      then "conversation"
      else classification
  | None => _fallback_routing query
  end.

(** which agent [process] hands the query to *)
Definition selected_agent (query : string) : string :=
  if String.eqb (_classify_query query) "extraction"
  then "extraction_agent" else "conversation_agent".

End Classify.

End Coordinator.

(* ===================================================================== *)
(** * Properties                                                          *)
(* ===================================================================== *)

#[local] Arguments Text.take : simpl never.

(** ** The session entity map *)

Lemma entities_add_entity entity_type val meta now1 now2 s :
  Session.entities (Session.add_entity entity_type val meta now1 now2 s)
  = <[Session.entity_key entity_type val :=
        {| Session.type_ := entity_type; Session.value := val;
           Session.last_mentioned := now1;
           Session.metadata := match meta with Some d => d | None => [] end |}]>
      (Session.entities s).
Proof. reflexivity. Qed.

(** C10.  The key of an entity is its type, a colon and its value, which
    does not determine the pair: (a, b:c) and (a:b, c) are different pairs
    with the one key a:b:c.  So in any session, adding the second after the
    first leaves the number of entities as it was, and the entry under the
    key, which held the first entity, now holds the second; no other entry
    is touched. *)
Theorem C10_entity_key_collision :
  ("a", "b:c") <> ("a:b", "c")
  /\ Session.entity_key "a" "b:c" = "a:b:c"
  /\ Session.entity_key "a:b" "c" = "a:b:c"
  /\ forall (s : Session.SessionMemory) meta1 meta2 (t1 t2 t3 t4 : Session.Time),
       let s1 := Session.add_entity "a" "b:c" meta1 t1 t2 s in
       let s2 := Session.add_entity "a:b" "c" meta2 t3 t4 s1 in
       Session.entity_count s2 = Session.entity_count s1
       /\ (Session.type_ <$> Session.entities s1 !! "a:b:c") = Some "a"
       /\ (Session.value <$> Session.entities s1 !! "a:b:c") = Some "b:c"
       /\ (Session.type_ <$> Session.entities s2 !! "a:b:c") = Some "a:b"
       /\ (Session.value <$> Session.entities s2 !! "a:b:c") = Some "c"
       /\ forall key, key <> "a:b:c" ->
            Session.entities s2 !! key = Session.entities s1 !! key.
Proof.
  split; [discriminate|]. split; [reflexivity|]. split; [reflexivity|].
  intros s meta1 meta2 t1 t2 t3 t4 s1 s2.
  assert (E1 : Session.entities s1 !! "a:b:c" =
               Some {| Session.type_ := "a"; Session.value := "b:c";
                       Session.last_mentioned := t1;
                       Session.metadata := match meta1 with Some d => d | None => [] end |}).
  { subst s1. rewrite entities_add_entity. apply lookup_insert_eq. }
  assert (E2 : Session.entities s2 = <["a:b:c" :=
               {| Session.type_ := "a:b"; Session.value := "c";
                  Session.last_mentioned := t3;
                  Session.metadata := match meta2 with Some d => d | None => [] end |}]>
               (Session.entities s1)).
  { subst s2. rewrite entities_add_entity. reflexivity. }
  repeat split.
  - unfold Session.entity_count. rewrite E2.
    apply map_size_insert_Some. rewrite E1. eauto.
  - rewrite E1. reflexivity.
  - rewrite E1. reflexivity.
  - rewrite E2, lookup_insert_eq. reflexivity.
  - rewrite E2, lookup_insert_eq. reflexivity.
  - intros key Hkey. rewrite E2. apply lookup_insert_ne. congruence.
Qed.

(** ** The loop selector *)

Section LoopSelector.
Import Agent.

Lemma fallback_routing_by_pattern query :
  Coordinator._fallback_routing query
  = if Routing.any_extraction_pattern query then "extraction" else "conversation".
Proof.
  unfold Coordinator._fallback_routing, ExtractionAgent.can_handle,
    ConversationAgent.can_handle.
  destruct (Routing.any_extraction_pattern query); reflexivity.
Qed.

Lemma fallback_routing_extraction query :
  Coordinator._fallback_routing query = "extraction"
  <-> (ConversationAgent.can_handle query < ExtractionAgent.can_handle query)%Q.
Proof.
  unfold Coordinator._fallback_routing.
  destruct (Qle_bool (ExtractionAgent.can_handle query)
                     (ConversationAgent.can_handle query)) eqn:E; simpl.
  - apply Qle_bool_iff in E. split; [discriminate|].
    intros H. exfalso. exact (Qlt_not_le _ _ H E).
  - split; [|reflexivity]. intros _. apply Qnot_le_lt. intros H.
    apply Qle_bool_iff in H. congruence.
Qed.

(** C5, as stated, fails.  The reply [Extraction] is neither literal
    label, yet the query is classified as extraction where the scorer
    picks conversation; the reply [banana] is classified as conversation
    where the scorer picks extraction. *)
Lemma C5_counterexample :
  let reply text := fun _ : Prompt => Some {| content := text; shown := text |} in
  "Extraction" <> "extraction" /\ "Extraction" <> "conversation"
  /\ Coordinator._classify_query (reply "Extraction") "hello" = "extraction"
  /\ Coordinator._fallback_routing "hello" = "conversation"
  /\ Coordinator._classify_query (reply "banana") "extract the files" = "conversation"
  /\ Coordinator._fallback_routing "extract the files" = "extraction".
Proof. vm_compute. repeat split; discriminate. Qed.

(** C5, amended.  The reply of the model is trimmed and lower-cased before
    it is compared: if that gives [extraction] the query is an extraction
    query, and for every other reply it is a conversation query, without
    any score being looked at.  Only a failed classification (no reply)
    goes to the confidence scores: extraction wins when its score is the
    higher one, conversation otherwise, a tie included. *)
Theorem C5_classification (llm : Prompt -> option Message) (query : string) :
  match llm (RoutingPrompt query) with
  | Some response =>
      Coordinator._classify_query llm query
      = if String.eqb (Text.lower (Text.strip (content response))) "extraction"
        then "extraction" else "conversation"
  | None =>
      Coordinator._classify_query llm query = Coordinator._fallback_routing query
  end
  /\ (Coordinator._fallback_routing query = "extraction"
      <-> (ConversationAgent.can_handle query < ExtractionAgent.can_handle query)%Q)
  /\ (Coordinator._fallback_routing query = "conversation"
      <-> (ExtractionAgent.can_handle query <= ConversationAgent.can_handle query)%Q).
Proof.
  split; [|split].
  - unfold Coordinator._classify_query.
    destruct (llm (RoutingPrompt query)) as [response|]; [|reflexivity].
    simpl.
    destruct (String.eqb_spec (Text.lower (Text.strip (content response))) "extraction")
      as [->|Hne]; [reflexivity|].
    destruct (String.eqb_spec (Text.lower (Text.strip (content response))) "conversation")
      as [->|Hne']; reflexivity.
  - apply fallback_routing_extraction.
  - pose proof (fallback_routing_extraction query) as Hx.
    unfold Coordinator._fallback_routing in *.
    destruct (Qle_bool (ExtractionAgent.can_handle query)
                       (ConversationAgent.can_handle query)) eqn:E; simpl in *.
    + apply Qle_bool_iff in E. split; auto.
    + split; [discriminate|]. intros H. apply Qle_bool_iff in H. congruence.
Qed.

End LoopSelector.

(** ** The input normalisers *)

Section Normalisers.
Import Py.

(** An input that is no str never reaches the JSON decoder. *)
Lemma conversation_parse_not_str json_loads tool_name x :
  (forall s, x <> VStr s) ->
  ConversationAgent._parse_tool_input json_loads tool_name x
  = ConversationAgent.parse_decoded tool_name x.
Proof. intros H. destruct x; try reflexivity. exfalso. exact (H _ eq_refl). Qed.

Lemma extraction_parse_dict json_loads tool_name d :
  ExtractionAgent._parse_tool_input json_loads tool_name (VDict d) = Ok (VDict d).
Proof. reflexivity. Qed.

(** Free text that is no JSON text is always normalised, by the per-tool
    pattern or its default. *)
Lemma conversation_parse_free_text json_loads tool_name s :
  json_loads s = None ->
  exists d, ConversationAgent._parse_tool_input json_loads tool_name (VStr s) = Ok (VDict d).
Proof.
  intros H. unfold ConversationAgent._parse_tool_input. rewrite H.
  unfold ConversationAgent.parse_free_text.
  repeat match goal with |- context [if ?b then _ else _] => destruct b end; eauto.
Qed.

Lemma setdefault_dict d key v :
  setdefault (VDict d) key v = Ok (VDict (setdefault_item key v d)).
Proof. reflexivity. Qed.

Lemma extraction_parse_free_text json_loads tool_name s :
  json_loads s = None ->
  exists d, ExtractionAgent._parse_tool_input json_loads tool_name (VStr s) = Ok (VDict d).
Proof.
  intros H. unfold ExtractionAgent._parse_tool_input, ExtractionAgent.parsed_input_of.
  rewrite H. simpl.
  unfold ExtractionAgent._parse_local_input, ExtractionAgent._parse_git_input.
  destruct (String.eqb tool_name "extract_content_local"); simpl; [eauto|].
  destruct (String.eqb tool_name "extract_git_content"); simpl; eauto.
Qed.

(** C4.  Where the normalisers raise, for every JSON decoder:
    (1) a text that decodes to a JSON value other than an object (a
        number, a quoted text, a list) has no [setdefault] when it is
        meant for one of the two extraction tools, and no [get] when it is
        meant for the time, search or entity tool;
    (2) an integer handed to the extraction normaliser finds the local
        [parsed_input] unbound, whatever the tool;
    (3) a mapping without query and input, handed to the conversation
        normaliser for the search tool, yields [None], which has no
        [strip].
    Free text that is no JSON text is always normalised (4). *)
Theorem C4_normalizer_raises (json_loads : string -> option Value) :
  (forall s decoded,
     json_loads s = Some decoded -> is_dict decoded = false ->
     ExtractionAgent._parse_tool_input json_loads "extract_content_local" (VStr s)
       = Raise AttributeError
     /\ ExtractionAgent._parse_tool_input json_loads "extract_git_content" (VStr s)
       = Raise AttributeError
     /\ ConversationAgent._parse_tool_input json_loads "get_system_time" (VStr s)
       = Raise AttributeError
     /\ ConversationAgent._parse_tool_input json_loads "tavily_search_results_json" (VStr s)
       = Raise AttributeError
     /\ ConversationAgent._parse_tool_input json_loads "get_memory_entities" (VStr s)
       = Raise AttributeError)
  /\ (forall tool_name n,
        ExtractionAgent._parse_tool_input json_loads tool_name (VInt n)
        = Raise UnboundLocalError)
  /\ ConversationAgent._parse_tool_input json_loads "tavily_search_results_json" (VDict [])
     = Raise AttributeError
  /\ (forall tool_name s, json_loads s = None ->
      (exists d, ConversationAgent._parse_tool_input json_loads tool_name (VStr s)
                 = Ok (VDict d))
      /\ (exists d, ExtractionAgent._parse_tool_input json_loads tool_name (VStr s)
                    = Ok (VDict d))).
Proof.
  split; [|split; [|split]].
  - intros s decoded Hs Hd.
    unfold ExtractionAgent._parse_tool_input, ExtractionAgent.parsed_input_of,
      ConversationAgent._parse_tool_input.
    rewrite Hs. destruct decoded; try discriminate; repeat split.
  - intros tool_name n. unfold ExtractionAgent._parse_tool_input. simpl.
    destruct (String.eqb tool_name "extract_content_local"); [reflexivity|].
    destruct (String.eqb tool_name "extract_git_content"); reflexivity.
  - reflexivity.
  - intros tool_name s H. split.
    + apply conversation_parse_free_text; assumption.
    + apply extraction_parse_free_text; assumption.
Qed.

(** The model writes its search text in quotes, and the decoder reads the
    quoted text as JSON: the normaliser raises. *)
Example quoted_search_text_raises json_loads :
  let quoted := String (ascii_of_nat 34) ("weather in Paris" +:+ String (ascii_of_nat 34) EmptyString) in
  json_loads quoted = Some (VStr "weather in Paris") ->
  ConversationAgent._parse_tool_input json_loads "tavily_search_results_json" (VStr quoted)
  = Raise AttributeError.
Proof.
  intros quoted H. unfold ConversationAgent._parse_tool_input.
  rewrite H. reflexivity.
Qed.

(** Scenario C of the spec: the text limit=7, which is no JSON text, and
    the integer 7 both give the history tool a limit of 7. *)
Example history_limit_seven json_loads :
  json_loads "limit=7" = None ->
  ConversationAgent._parse_tool_input json_loads "get_conversation_history" (VStr "limit=7")
    = Ok (VDict [("limit", VInt 7)])
  /\ ConversationAgent._parse_tool_input json_loads "get_conversation_history" (VInt 7)
    = Ok (VDict [("limit", VInt 7)]).
Proof.
  intros H. split; [|reflexivity].
  unfold ConversationAgent._parse_tool_input. rewrite H. vm_compute. reflexivity.
Qed.

(** C7, as stated, fails.  The conversation normaliser drops the field tz
    of a structured input of the time tool and alters its field format;
    normalising its own result again changes it once more; and the
    extraction normaliser hands a structured input back without filling
    extensions or clipboard_only. *)
Lemma C7_counterexample :
  let no_json := fun _ : string => @None Value in
  ConversationAgent._parse_tool_input no_json "get_system_time"
      (VDict [("format", VStr " %H "); ("tz", VStr "UTC")])
    = Ok (VDict [("format", VStr "%H")])
  /\ ConversationAgent._parse_tool_input no_json "get_system_time"
      (VDict [("format", VStr "' a '")])
    = Ok (VDict [("format", VStr " a ")])
  /\ ConversationAgent._parse_tool_input no_json "get_system_time"
      (VDict [("format", VStr " a ")])
    = Ok (VDict [("format", VStr "a")])
  /\ ExtractionAgent._parse_tool_input no_json "extract_content_local"
      (VDict [("directory", VStr "/src")])
    = Ok (VDict [("directory", VStr "/src")]).
Proof. vm_compute. repeat split. Qed.

(** C7, amended.  For every tool and every structured input (the items
    [d] of a mapping), whatever the JSON decoder:
    the extraction normaliser returns the input as it is, nothing lost,
    altered or filled in; the conversation normaliser returns it as it is
    for a tool that is none of its four; for the history tool it returns
    just limit, and for the entity tool just entity_type and limit, each
    as supplied or else the default (5, the empty text), and normalising
    that result again returns it unchanged. *)
Theorem C7_structured_input (json_loads : string -> option Value)
    (tool_name : string) (d : list (string * Value)) :
  ExtractionAgent._parse_tool_input json_loads tool_name (VDict d) = Ok (VDict d)
  /\ (existsb (String.eqb tool_name)
        ["get_system_time"; "tavily_search_results_json";
         "get_conversation_history"; "get_memory_entities"] = false ->
      ConversationAgent._parse_tool_input json_loads tool_name (VDict d) = Ok (VDict d))
  /\ (let r := VDict [("limit", item_or "limit" (VInt 5) d)] in
      ConversationAgent._parse_tool_input json_loads "get_conversation_history" (VDict d)
        = Ok r
      /\ ConversationAgent._parse_tool_input json_loads "get_conversation_history" r = Ok r)
  /\ (let r := VDict [("entity_type", item_or "entity_type" (VStr EmptyString) d);
                      ("limit", item_or "limit" (VInt 5) d)] in
      ConversationAgent._parse_tool_input json_loads "get_memory_entities" (VDict d)
        = Ok r
      /\ ConversationAgent._parse_tool_input json_loads "get_memory_entities" r = Ok r).
Proof.
  split; [reflexivity|]. split; [|split].
  - simpl. intros H.
    unfold ConversationAgent.parse_decoded.
    destruct (String.eqb tool_name "get_system_time"); [discriminate|].
    destruct (String.eqb tool_name "tavily_search_results_json"); [discriminate|].
    destruct (String.eqb tool_name "get_conversation_history"); [discriminate|].
    destruct (String.eqb tool_name "get_memory_entities"); [discriminate|].
    reflexivity.
  - split; reflexivity.
  - split; reflexivity.
Qed.

End Normalisers.

(** ** The Act transition *)

Section ActNode.
Import Py Agent.

Lemma conversation_not_found_text tools tool_name :
  exists rest,
    ConversationAgent.not_found tools tool_name
    = "Tool '" +:+ tool_name +:+ "' not found" +:+ rest.
Proof. eexists. unfold ConversationAgent.not_found. reflexivity. Qed.

Lemma extraction_not_found_text tool_name :
  exists rest,
    ExtractionAgent.not_found tool_name
    = "Tool '" +:+ tool_name +:+ "' not found" +:+ rest.
Proof. eexists. unfold ExtractionAgent.not_found. reflexivity. Qed.

(** C8.  In either loop, an Act on a pending action whose tool is not in
    the loop's registry does not raise: the run goes on to the next
    reasoning step, the history gains exactly the pair of the action and
    an observation that starts with Tool '<name>' not found, the counter
    is one more, and the outcome is untouched.  When the tool is known and
    both the normaliser and the tool answer, the history gains the pair of
    the action and the answer, and the counter is one more as well. *)
Theorem C8_unknown_tool
    (policy : nat -> string -> list (AgentAction * string) -> PolicyReply)
    (llm : nat -> Prompt -> option Message)
    (json_loads : string -> option Value) (tools : list Tool)
    (now : nat) (a : AgentAction) :
  (forall st : ConversationAgent.State,
     ConversationAgent.agent_outcome st = Some (Action a) ->
     (tool_map_get (tool a) (ConversationAgent.conversation_tools tools) = None ->
      exists observation rest,
        observation = "Tool '" +:+ tool a +:+ "' not found" +:+ rest
        /\ ConversationAgent.step policy llm json_loads tools
             {| ConversationAgent.point := ConversationAgent.at_act;
                ConversationAgent.clock := now; ConversationAgent.state := st |}
           = ConversationAgent.Goes
               {| ConversationAgent.point := ConversationAgent.at_reason;
                  ConversationAgent.clock := S now;
                  ConversationAgent.state :=
                    ConversationAgent.set_intermediate_steps
                      (ConversationAgent.intermediate_steps st ++ [(a, observation)])
                      (ConversationAgent.set_step_counter
                         (ConversationAgent.step_counter st + 1) st) |})
     /\ (forall t filtered_input tool_result,
          tool_map_get (tool a) (ConversationAgent.conversation_tools tools) = Some t ->
          ConversationAgent._parse_tool_input json_loads (tool a) (tool_input a)
            = Ok filtered_input ->
          invoke t now filtered_input = Some tool_result ->
          ConversationAgent.step policy llm json_loads tools
             {| ConversationAgent.point := ConversationAgent.at_act;
                ConversationAgent.clock := now; ConversationAgent.state := st |}
           = ConversationAgent.Goes
               {| ConversationAgent.point := ConversationAgent.at_reason;
                  ConversationAgent.clock := S now;
                  ConversationAgent.state :=
                    ConversationAgent.set_intermediate_steps
                      (ConversationAgent.intermediate_steps st ++ [(a, tool_result)])
                      (ConversationAgent.set_step_counter
                         (ConversationAgent.step_counter st + 1) st) |}))
  /\
  (forall st : ExtractionAgent.State,
     ExtractionAgent.agent_outcome st = Some (Action a) ->
     (tool_map_get (tool a) (ExtractionAgent.extraction_tools tools) = None ->
      exists observation rest,
        observation = "Tool '" +:+ tool a +:+ "' not found" +:+ rest
        /\ ExtractionAgent.step policy json_loads tools
             {| ExtractionAgent.point := ExtractionAgent.at_act;
                ExtractionAgent.clock := now; ExtractionAgent.state := st |}
           = ExtractionAgent.Goes
               {| ExtractionAgent.point := ExtractionAgent.at_reason;
                  ExtractionAgent.clock := S now;
                  ExtractionAgent.state :=
                    ExtractionAgent.set_intermediate_steps
                      (ExtractionAgent.intermediate_steps st ++ [(a, observation)])
                      (ExtractionAgent.set_step_counter
                         (ExtractionAgent.step_counter st + 1) st) |})
     /\ (forall t filtered_input tool_result,
          tool_map_get (tool a) (ExtractionAgent.extraction_tools tools) = Some t ->
          ExtractionAgent._parse_tool_input json_loads (tool a) (tool_input a)
            = Ok filtered_input ->
          invoke t now filtered_input = Some tool_result ->
          ExtractionAgent.step policy json_loads tools
             {| ExtractionAgent.point := ExtractionAgent.at_act;
                ExtractionAgent.clock := now; ExtractionAgent.state := st |}
           = ExtractionAgent.Goes
               {| ExtractionAgent.point := ExtractionAgent.at_reason;
                  ExtractionAgent.clock := S now;
                  ExtractionAgent.state :=
                    ExtractionAgent.set_intermediate_steps
                      (ExtractionAgent.intermediate_steps st ++ [(a, tool_result)])
                      (ExtractionAgent.set_step_counter
                         (ExtractionAgent.step_counter st + 1) st) |})).
Proof.
  split.
  - intros st Ho. split.
    + intros Hnone.
      destruct (conversation_not_found_text tools (tool a)) as [rest Hrest].
      exists (ConversationAgent.not_found tools (tool a)), rest. split; [exact Hrest|].
      unfold ConversationAgent.step, ConversationAgent._act_node. simpl.
      rewrite Ho, Hnone. reflexivity.
    + intros t filtered_input tool_result Ht Hp Hi.
      unfold ConversationAgent.step, ConversationAgent._act_node. simpl.
      rewrite Ho, Ht, Hp. simpl. rewrite Hi. reflexivity.
  - intros st Ho. split.
    + intros Hnone.
      destruct (extraction_not_found_text (tool a)) as [rest Hrest].
      exists (ExtractionAgent.not_found (tool a)), rest. split; [exact Hrest|].
      unfold ExtractionAgent.step, ExtractionAgent._act_node. simpl.
      rewrite Ho, Hnone. reflexivity.
    + intros t filtered_input tool_result Ht Hp Hi.
      unfold ExtractionAgent.step, ExtractionAgent._act_node. simpl.
      rewrite Ho, Ht, Hp. simpl. rewrite Hi. reflexivity.
Qed.

End ActNode.

(** ** The reflector *)

Section Reflector.
Import Py Agent ConversationAgent.



Lemma In_last_n {A} n (xs : list A) y : In y (last_n n xs) -> In y xs.
Proof.
  unfold last_n. intros H.
  rewrite <- (firstn_skipn (length xs - n) xs). apply in_or_app. right. exact H.
Qed.

Lemma last_n_nonempty {A} n (xs : list A) :
  (0 < n)%nat -> xs <> [] -> last_n n xs <> [].
Proof.
  unfold last_n. intros Hn Hxs E.
  apply (f_equal (@length A)) in E. rewrite length_skipn in E. simpl in E.
  destruct xs; [congruence|]. simpl in E. lia.
Qed.



Lemma is_finish_set_agent_outcome f st :
  is_finish (agent_outcome (set_agent_outcome (Some (Finish f)) st)) = true.
Proof. reflexivity. Qed.

Variable llm : nat -> Prompt -> option Message.

(** what [loop_check] gives when none of its calls to the model fails *)
Lemma loop_check_cases now st st1 :
  loop_check llm now st = Ok st1 ->
  let names := tool_sequence st in
  let noted reflection :=
    {| r_step := step_counter st; r_type := "loop_detection"; r_content := reflection |} in
  ((Nat.leb 2 (length names) && one_distinct (last_n 2 names))%bool = false /\ st1 = st)
  \/
  (exists reflection,
     (Nat.leb 2 (length names) && one_distinct (last_n 2 names))%bool = true
     /\ llm now (LoopPrompt names (last_n 2 (intermediate_steps st))) = Some reflection
     /\ ((3 <? step_counter st) && one_distinct names)%bool = false
     /\ st1 = set_reflections (reflections st ++ [noted reflection]) st)
  \/
  (exists reflection answer,
     (Nat.leb 2 (length names) && one_distinct (last_n 2 names))%bool = true
     /\ llm now (LoopPrompt names (last_n 2 (intermediate_steps st))) = Some reflection
     /\ llm now (SynthesisPrompt (input st) (tool_results st)) = Some answer
     /\ ((3 <? step_counter st) && one_distinct names)%bool = true
     /\ st1 = set_agent_outcome
                (Some (Finish {| output := content answer;
                                 finish_log := "Synthesized answer from repeated tool calls" |}))
                (set_reflections (reflections st ++ [noted reflection]) st)).
Proof.
  intros H. cbv zeta. unfold loop_check in H.
  destruct (Nat.leb 2 (length (tool_sequence st))
            && one_distinct (last_n 2 (tool_sequence st)))%bool eqn:Eloop.
  2:{ injection H as <-. left. auto. }
  destruct (llm now (LoopPrompt _ _)) as [reflection|] eqn:El; [|discriminate].
  destruct ((3 <? step_counter st) && one_distinct (tool_sequence st))%bool eqn:Esyn.
  2:{ injection H as <-. right. left. exists reflection. auto. }
  unfold _synthesize_from_tools in H. simpl in H.
  destruct (llm now (SynthesisPrompt _ _)) as [answer|] eqn:Es; [|discriminate].
  simpl in H. injection H as <-. right. right. exists reflection, answer. auto.
Qed.



Lemma reflect_node_guarded now st :
  is_finish (agent_outcome st) = false ->
  2 <= step_counter st -> (2 <= length (intermediate_steps st))%nat ->
  _reflect_node llm now st
  = bind (loop_check llm now st) (fun st1 =>
    bind (efficiency_check llm now st st1) (fun st2 => Ok (st2, whole_state st2))).
Proof.
  intros Hf Hk Hl. unfold _reflect_node. rewrite Hf.
  destruct (Z.ltb_spec (step_counter st) 2); [lia|].
  destruct (Nat.ltb_spec (length (intermediate_steps st)) 2); [lia|].
  reflexivity.
Qed.


Lemma reflect_node_returns now st st' ws :
  is_finish (agent_outcome st) = false ->
  2 <= step_counter st -> (2 <= length (intermediate_steps st))%nat ->
  _reflect_node llm now st = Ok (st', ws) ->
  exists st1,
    loop_check llm now st = Ok st1
    /\ efficiency_check llm now st st1 = Ok st'
    /\ ws = whole_state st'.
Proof.
  intros Hf Hk Hl. rewrite (reflect_node_guarded now st Hf Hk Hl).
  destruct (loop_check llm now st) as [st1|] eqn:E1; [|discriminate]. simpl.
  destruct (efficiency_check llm now st st1) as [st2|] eqn:E2; [|discriminate]. simpl.
  intros [= <- <-]. exists st1. auto.
Qed.


End Reflector.

(** ** Runs of the conversation loop *)

Section ConversationRuns.
Import Py Agent ConversationAgent.

Variable policy : nat -> string -> list (AgentAction * string) -> PolicyReply.
Variable llm : nat -> Prompt -> option Message.
Variable json_loads : string -> option Value.
Variable tools : list Tool.

#[local] Abbreviation step := (ConversationAgent.step policy llm json_loads tools).
#[local] Abbreviation superstep := (ConversationAgent.superstep policy llm json_loads tools).
#[local] Abbreviation invoke_from :=
  (ConversationAgent.invoke_from policy llm json_loads tools).
#[local] Abbreviation trace := (ConversationAgent.trace policy llm json_loads tools).

(** [return state] hands every item back: the history is added to itself,
    the other items are written over themselves. *)
Lemma conversation_apply_whole_state st :
  apply_writes st (whole_state st)
  = set_intermediate_steps (intermediate_steps st ++ intermediate_steps st) st.
Proof. reflexivity. Qed.

Lemma conversation_loop_check_counter now st st1 :
  loop_check llm now st = Ok st1 -> step_counter st1 = step_counter st.
Proof.
  intros H. apply loop_check_cases in H. cbv zeta in H.
  destruct H as [[_ ->]|[(r & _ & _ & _ & ->)|(r & a & _ & _ & _ & _ & ->)]]; reflexivity.
Qed.

Lemma conversation_efficiency_check_counter now st0 st st2 :
  efficiency_check llm now st0 st = Ok st2 -> step_counter st2 = step_counter st.
Proof.
  unfold efficiency_check.
  destruct ((5 <? step_counter st0) && negb (is_finish (agent_outcome st)))%bool.
  - destruct (llm now (EfficiencyPrompt _ _ _)); [|discriminate].
    intros [= <-]. reflexivity.
  - intros [= <-]. reflexivity.
Qed.

Lemma conversation_reflect_node_counter now st st' ws :
  _reflect_node llm now st = Ok (st', ws) ->
  step_counter st' = step_counter st /\ ws = whole_state st'.
Proof.
  unfold _reflect_node.
  destruct (is_finish (agent_outcome st)); [intros [= <- <-]; auto|].
  destruct ((step_counter st <? 2) || Nat.ltb (length (intermediate_steps st)) 2)%bool;
    [intros [= <- <-]; auto|].
  destruct (loop_check llm now st) as [st1|] eqn:E1; [|discriminate]. simpl.
  destruct (efficiency_check llm now st st1) as [st2|] eqn:E2; [|discriminate]. simpl.
  intros [= <- <-]. split; [|reflexivity].
  rewrite (conversation_efficiency_check_counter _ _ _ _ E2).
  apply (conversation_loop_check_counter _ _ _ E1).
Qed.

(** what [loop_check] and [efficiency_check] leave of a state: the history
    as it was, the reflections with some more, and an outcome that is
    unset only if it was *)
Lemma conversation_loop_check_frame now st st1 :
  loop_check llm now st = Ok st1 ->
  intermediate_steps st1 = intermediate_steps st
  /\ (exists more, reflections st1 = reflections st ++ more)
  /\ (agent_outcome st <> None -> agent_outcome st1 <> None).
Proof.
  intros H. apply loop_check_cases in H. cbv zeta in H.
  destruct H as [[_ ->]|[(r & _ & _ & _ & ->)|(r & a & _ & _ & _ & _ & ->)]]; simpl.
  - split; [reflexivity|]. split; [exists []; symmetry; apply app_nil_r|auto].
  - split; [reflexivity|]. split; [eexists; reflexivity|auto].
  - split; [reflexivity|]. split; [eexists; reflexivity|]. intros _. discriminate.
Qed.

Lemma conversation_efficiency_check_frame now st0 st st2 :
  efficiency_check llm now st0 st = Ok st2 ->
  intermediate_steps st2 = intermediate_steps st
  /\ (exists more, reflections st2 = reflections st ++ more)
  /\ agent_outcome st2 = agent_outcome st.
Proof.
  unfold efficiency_check.
  destruct ((5 <? step_counter st0) && negb (is_finish (agent_outcome st)))%bool.
  - destruct (llm now (EfficiencyPrompt _ _ _)); [|discriminate].
    intros [= <-]. simpl. split; [reflexivity|]. split; [eexists; reflexivity|reflexivity].
  - intros [= <-]. split; [reflexivity|].
    split; [exists []; symmetry; apply app_nil_r|reflexivity].
Qed.

Lemma conversation_reflect_node_frame now st st' ws :
  _reflect_node llm now st = Ok (st', ws) ->
  ws = whole_state st'
  /\ step_counter st' = step_counter st
  /\ intermediate_steps st' = intermediate_steps st
  /\ (exists more, reflections st' = reflections st ++ more)
  /\ (agent_outcome st <> None -> agent_outcome st' <> None).
Proof.
  intros H. destruct (conversation_reflect_node_counter _ _ _ _ H) as [Hk Hws].
  split; [exact Hws|]. split; [exact Hk|].
  revert H. unfold _reflect_node.
  assert (Hsame : forall s : State,
            intermediate_steps s = intermediate_steps s
            /\ (exists more, reflections s = reflections s ++ more)
            /\ (agent_outcome s <> None -> agent_outcome s <> None)).
  { intros s. split; [reflexivity|].
    split; [exists []; symmetry; apply app_nil_r|auto]. }
  destruct (is_finish (agent_outcome st)); [intros [= <- _]; apply Hsame|].
  destruct ((step_counter st <? 2) || Nat.ltb (length (intermediate_steps st)) 2)%bool;
    [intros [= <- _]; apply Hsame|].
  destruct (loop_check llm now st) as [st1|] eqn:E1; [|discriminate]. simpl.
  destruct (efficiency_check llm now st st1) as [st2|] eqn:E2; [|discriminate]. simpl.
  intros [= <- _].
  destruct (conversation_loop_check_frame _ _ _ E1) as (H1 & [m1 R1] & O1).
  destruct (conversation_efficiency_check_frame _ _ _ _ E2) as (H2 & [m2 R2] & O2).
  split; [congruence|]. split.
  - exists (m1 ++ m2). rewrite R2, R1, app_assoc. reflexivity.
  - rewrite O2. exact O1.
Qed.

(** What the run keeps of [_act_node]: the pair and the counter it
    returns.  On an unset outcome the node returns an empty list and no
    counter, so the step it counted in place is not kept. *)
Lemma conversation_act_node_effect now st st' ws :
  _act_node json_loads tools now st = Ok (st', ws) ->
  reflections (apply_writes st ws) = reflections st
  /\ agent_outcome (apply_writes st ws) = agent_outcome st
  /\ match agent_outcome st with
     | None =>
         step_counter (apply_writes st ws) = step_counter st
         /\ intermediate_steps (apply_writes st ws) = intermediate_steps st ++ []
     | Some _ =>
         step_counter (apply_writes st ws) = step_counter st + 1
         /\ exists pair, intermediate_steps (apply_writes st ws)
                         = intermediate_steps st ++ [pair]
     end.
Proof.
  unfold _act_node. simpl.
  destruct (agent_outcome st) as [[a|f]|] eqn:Eo; simpl.
  - destruct (tool_map_get (tool a) (conversation_tools tools)) as [t|].
    + destruct (_parse_tool_input json_loads (tool a) (tool_input a)) as [v|];
        simpl; [|discriminate].
      destruct (invoke t now v); [|discriminate].
      intros [= <- <-]. simpl. rewrite Eo. eauto.
    + intros [= <- <-]. simpl. rewrite Eo. eauto.
  - discriminate.
  - intros [= <- <-]. simpl. rewrite Eo. auto.
Qed.

(** Every step keeps [wf], and only a node takes a superstep. *)
Lemma conversation_step_wf c c' :
  wf c -> step c = Goes c' -> wf c' /\ (used c' <= used c + runs_node c)%nat.
Proof.
  destruct c as [p now st]. unfold wf, used, runs_node, ConversationAgent.step.
  destruct p; simpl.
  - (* reason *)
    intros [Hk Hp]. unfold _reason_node.
    destruct (policy now (input st) (intermediate_steps st));
      simpl; try discriminate; intros [= <-]; simpl;
      (split; [split; [lia|discriminate]|lia]).
  - (* the router after reason *)
    intros [Hk Ho]. unfold _should_continue.
    destruct (Z.leb_spec 10 (step_counter st)) as [H10|H10].
    + intros [= <-]. simpl. unfold settled. split; [|lia].
      split; [lia|]. split; [right; lia|exact Ho].
    + destruct (is_finish (agent_outcome st)) eqn:Ef; intros [= <-]; simpl.
      * unfold settled. split; [|lia]. split; [lia|]. split; [left; exact Ef|exact Ho].
      * unfold pending. split; [|lia]. split; [lia|]. split; [exact Ef|exact Ho].
  - (* reflect *)
    intros [Hk [Hp Ho]].
    destruct (_reflect_node llm now st) as [[st' ws]|] eqn:Er; simpl; [|discriminate].
    destruct (conversation_reflect_node_frame _ _ _ _ Er) as (-> & Hc & _ & _ & Ho').
    intros [= <-]. simpl. rewrite Hc. split; [|lia]. split; [lia|auto].
  - (* the router after reflect *)
    intros [Hk Ho]. unfold _post_reflection_router.
    destruct (is_finish (agent_outcome st)) eqn:Ef; intros [= <-]; simpl.
    + unfold settled. split; [|lia]. split; [lia|]. split; [left; exact Ef|exact Ho].
    + unfold pending. split; [|lia]. split; [lia|]. split; [exact Ef|exact Ho].
  - (* act *)
    intros [Hk [Hp Ho]].
    destruct (_act_node json_loads tools now st) as [[st' ws]|] eqn:Ea;
      simpl; [|discriminate].
    destruct (conversation_act_node_effect _ _ _ _ Ea) as (_ & Ho' & Hc).
    unfold pending in Hp.
    destruct (agent_outcome st) as [o|] eqn:Eo; [|congruence].
    destruct Hc as [Hc _].
    intros [= <-]. simpl. rewrite Hc. unfold pending. rewrite Ho'.
    split; [split; [lia|exact Hp]|lia].
  - (* finish *)
    intros [Hk Hs] [= <-]. simpl. split; [auto|lia].
  - discriminate.
Qed.

Lemma conversation_start_wf enhanced_query query sid :
  wf (start enhanced_query query sid).
Proof. unfold wf, pending. simpl. split; [lia|reflexivity]. Qed.

Lemma conversation_step_stops c : step c = Stops -> point c = at_END.
Proof.
  destruct c as [p now st]. unfold ConversationAgent.step. simpl.
  destruct p; simpl; try reflexivity; try discriminate.
  - destruct (_reason_node policy now st) as [[? ?]|]; discriminate.
  - destruct (_reflect_node llm now st) as [[? ?]|]; discriminate.
  - destruct (_act_node json_loads tools now st) as [[? ?]|]; discriminate.
Qed.

(** what follows a configuration in a trace is the trace from it *)
Lemma conversation_trace_suffix pre : forall fuel c c1 post,
  trace fuel c = pre ++ c1 :: post -> exists fuel', trace fuel' c1 = c1 :: post.
Proof.
  induction pre as [|p pre IH]; intros fuel c c1 post H.
  - exists fuel. destruct fuel; simpl in *; injection H as -> H; rewrite H; reflexivity.
  - destruct fuel as [|fuel]; simpl in H; injection H as -> H.
    + destruct pre; discriminate.
    + destruct (step p) as [c'| |e]; try (destruct pre; discriminate).
      exact (IH _ _ _ _ H).
Qed.

Lemma conversation_trace_Forall (P : Config -> Prop) :
  (forall c c', P c -> step c = Goes c' -> P c') ->
  forall fuel c, P c -> Forall P (trace fuel c).
Proof.
  intros Hstep. induction fuel as [|fuel IH]; intros c Hc; simpl.
  - constructor; [exact Hc|constructor].
  - constructor; [exact Hc|].
    destruct (step c) as [c'| |e] eqn:Es; try constructor.
    apply IH. exact (Hstep c c' Hc Es).
Qed.

Lemma conversation_closed_start c :
  wf c -> is_finish (agent_outcome (state c)) = true ->
  closed_with (agent_outcome (state c)) c.
Proof.
  unfold wf, closed_with, pending. intros Hwf Hf.
  split; [|auto].
  destruct (point c); try exact I.
  - destruct Hwf as [_ Hp]. congruence.
  - destruct Hwf as (_ & Hp & _). congruence.
  - destruct Hwf as (_ & Hp & _). congruence.
Qed.

Lemma conversation_closed_step o c c' :
  closed_with o c -> step c = Goes c' -> closed_with o c'.
Proof.
  destruct c as [p now st]. unfold closed_with, ConversationAgent.step. simpl.
  intros (Hp & Hf & Ho). destruct p; try contradiction; simpl.
  - unfold _should_continue.
    destruct (10 <=? step_counter st); [intros [= <-]; simpl; auto|].
    rewrite Hf. intros [= <-]. simpl. auto.
  - unfold _post_reflection_router. rewrite Hf. intros [= <-]. simpl. auto.
  - intros [= <-]. simpl. auto.
  - discriminate.
Qed.

Lemma conversation_closed_not_act o c :
  closed_with o c -> point c <> at_act.
Proof. unfold closed_with. intros [H _] E. rewrite E in H. exact H. Qed.

(** Once the outcome is a final answer, every later configuration of the
    run still has it, and none stands before [act]. *)
Lemma conversation_final_answer_stays fuel enhanced_query query sid pre c1 post :
  trace fuel (start enhanced_query query sid) = pre ++ c1 :: post ->
  is_finish (agent_outcome (state c1)) = true ->
  Forall (fun c2 =>
            point c2 <> at_act
            /\ (agent_outcome (state c2) = agent_outcome (state c1)
                \/ agent_outcome (state c2) = Some (Finish budget_apology)))
         post.
Proof.
  intros Ht Hf.
  assert (Hwf : wf c1).
  { pose proof (conversation_trace_Forall wf
                  (fun c c' H E => proj1 (conversation_step_wf c c' H E))
                  fuel _ (conversation_start_wf enhanced_query query sid)) as Hall.
    rewrite Ht in Hall. apply Forall_app in Hall. destruct Hall as [_ Hall].
    inversion Hall; assumption. }
  destruct (conversation_trace_suffix _ _ _ _ _ Ht) as [fuel' Ht'].
  pose proof (conversation_trace_Forall (closed_with (agent_outcome (state c1)))
                (conversation_closed_step _) fuel' c1
                (conversation_closed_start c1 Hwf Hf)) as Hall.
  rewrite Ht' in Hall. inversion Hall as [|? ? _ Hpost]; subst.
  eapply Forall_impl; [exact Hpost|].
  intros c2 Hc2. split; [exact (conversation_closed_not_act _ _ Hc2)|].
  destruct Hc2 as (_ & _ & Ho). exact Ho.
Qed.

(** *** What a step keeps, and how often a run acts *)

(** the edges of the graph, and what a step does to the counter *)
Lemma conversation_step_shape c c' :
  step c = Goes c' ->
  match point c with
  | at_reason =>
      point c' = after_reason /\ step_counter (state c') = step_counter (state c)
  | after_reason =>
      (point c' = at_reflect \/ point c' = at_finish)
      /\ step_counter (state c') = step_counter (state c)
  | at_reflect =>
      point c' = after_reflect /\ step_counter (state c') = step_counter (state c)
  | after_reflect =>
      (point c' = at_act \/ point c' = at_finish)
      /\ step_counter (state c') = step_counter (state c)
  | at_act =>
      point c' = at_reason
      /\ (agent_outcome (state c) <> None ->
          step_counter (state c') = step_counter (state c) + 1)
  | at_finish =>
      point c' = at_END /\ step_counter (state c') = step_counter (state c)
  | at_END => False
  end.
Proof.
  destruct c as [p now st]. unfold ConversationAgent.step. simpl.
  destruct p; simpl.
  - unfold _reason_node.
    destruct (policy now (input st) (intermediate_steps st));
      simpl; try discriminate; intros [= <-]; simpl; auto.
  - unfold _should_continue.
    destruct (10 <=? step_counter st); [intros [= <-]; simpl; auto|].
    destruct (is_finish (agent_outcome st)); intros [= <-]; simpl; auto.
  - destruct (_reflect_node llm now st) as [[st' ws]|] eqn:Er; simpl; [|discriminate].
    destruct (conversation_reflect_node_counter _ _ _ _ Er) as [Hc ->].
    intros [= <-]. simpl. auto.
  - unfold _post_reflection_router.
    destruct (is_finish (agent_outcome st)); intros [= <-]; simpl; auto.
  - destruct (_act_node json_loads tools now st) as [[st' ws]|] eqn:Ea;
      simpl; [|discriminate].
    destruct (conversation_act_node_effect _ _ _ _ Ea) as (_ & _ & Hc).
    intros [= <-]. simpl. split; [reflexivity|].
    destruct (agent_outcome st); [intros _; exact (proj1 Hc)|congruence].
  - intros [= <-]. simpl. auto.
  - discriminate.
Qed.

Lemma conversation_step_left c c' :
  wf c -> step c = Goes c' ->
  ((if stands_at_act c then 1 else 0) + acts_left c' <= acts_left c)%nat
  /\ ((if stands_at_reason c then 1 else 0) + reasonings_left c' <= reasonings_left c)%nat.
Proof.
  intros Hwf Hs. pose proof (conversation_step_shape c c' Hs) as Hsh.
  pose proof (proj1 (conversation_step_wf c c' Hwf Hs)) as Hwf'.
  unfold wf in Hwf, Hwf'. revert Hsh Hwf Hwf'.
  unfold stands_at_act, stands_at_reason, acts_left, reasonings_left.
  destruct (point c); simpl.
  - intros [-> ->]. lia.
  - intros [[-> | ->] ->]; lia.
  - intros [-> ->]. lia.
  - intros [[-> | ->] ->]; lia.
  - intros [-> Hc] (Hk & _ & Ho). rewrite (Hc Ho). lia.
  - intros [-> ->]. lia.
  - contradiction.
Qed.

Lemma conversation_trace_counts fuel : forall c,
  wf c ->
  (acts (trace fuel c) <= acts_left c)%nat
  /\ (reasonings (trace fuel c) <= reasonings_left c)%nat.
Proof.
  assert (Hone : forall c, wf c ->
            (acts [c] <= acts_left c)%nat /\ (reasonings [c] <= reasonings_left c)%nat).
  { intros c Hwf. unfold acts, reasonings, acts_left, reasonings_left,
      stands_at_act, stands_at_reason, wf in *. simpl.
    destruct (point c); simpl; lia. }
  induction fuel as [|fuel IH]; intros c Hwf; [exact (Hone c Hwf)|].
  simpl. destruct (step c) as [c'| |e] eqn:Es; try exact (Hone c Hwf).
  destruct (conversation_step_wf c c' Hwf Es) as [Hwf' _].
  destruct (IH c' Hwf') as [Ha Hr].
  destruct (conversation_step_left c c' Hwf Es) as [Ha' Hr'].
  unfold acts, reasonings in *. simpl.
  destruct (stands_at_act c), (stands_at_reason c); simpl; lia.
Qed.

Lemma conversation_step_proposed c c' :
  wf c /\ proposed c -> step c = Goes c' -> wf c' /\ proposed c'.
Proof.
  intros [Hwf Hp] Hs.
  split; [exact (proj1 (conversation_step_wf c c' Hwf Hs))|].
  destruct c as [p now st]. unfold proposed, wf, ConversationAgent.step in *. simpl in *.
  destruct Hp as [Hk Ho]. destruct p; simpl in *.
  - unfold _reason_node in Hs.
    destruct (policy now (input st) (intermediate_steps st));
      simpl in Hs; try discriminate; injection Hs as <-; simpl;
      (split; [exact Hk|discriminate]).
  - unfold _should_continue in Hs.
    destruct (10 <=? step_counter st); [injection Hs as <-; simpl; auto|].
    destruct (is_finish (agent_outcome st)); injection Hs as <-; simpl; auto.
  - destruct (_reflect_node llm now st) as [[st' ws]|] eqn:Er; simpl in Hs; [|discriminate].
    destruct (conversation_reflect_node_frame _ _ _ _ Er) as (-> & Hc & Hh & _ & Ho').
    injection Hs as <-. simpl. rewrite Hc, length_app, Hh. split; [lia|auto].
  - unfold _post_reflection_router in Hs.
    destruct (is_finish (agent_outcome st)); injection Hs as <-; simpl; auto.
  - destruct (_act_node json_loads tools now st) as [[st' ws]|] eqn:Ea;
      simpl in Hs; [|discriminate].
    destruct (conversation_act_node_effect _ _ _ _ Ea) as (_ & _ & Hh).
    injection Hs as <-. simpl. split; [|exact I].
    destruct (agent_outcome st); [|congruence].
    destruct Hh as [Hc [pair Hh]]. rewrite Hc, Hh, length_app. simpl. lia.
  - injection Hs as <-. simpl. rewrite length_app. split; [lia|exact I].
  - discriminate.
Qed.

Lemma conversation_start_proposed enhanced_query query sid :
  proposed (start enhanced_query query sid).
Proof. unfold proposed. simpl. split; [lia|exact I]. Qed.

Lemma conversation_step_grown c c' : step c = Goes c' -> grown c c'.
Proof.
  destruct c as [p now st]. unfold grown, ConversationAgent.step. simpl.
  destruct p; simpl.
  - unfold _reason_node.
    destruct (policy now (input st) (intermediate_steps st));
      simpl; try discriminate; intros [= <-]; simpl; (split; [|split]); (reflexivity || lia).
  - unfold _should_continue.
    destruct (10 <=? step_counter st);
      [intros [= <-]; simpl; (split; [|split]); (reflexivity || lia)|].
    destruct (is_finish (agent_outcome st)); intros [= <-]; simpl;
      (split; [|split]); (reflexivity || lia).
  - destruct (_reflect_node llm now st) as [[st' ws]|] eqn:Er; simpl; [|discriminate].
    destruct (conversation_reflect_node_frame _ _ _ _ Er) as (-> & Hc & Hh & Hr & _).
    intros [= <-]. simpl. rewrite Hc. split; [|split]; [| |lia].
    + apply prefix_app_r. reflexivity.
    + destruct Hr as [more ->]. apply prefix_app_r. reflexivity.
  - unfold _post_reflection_router.
    destruct (is_finish (agent_outcome st)); intros [= <-]; simpl;
      (split; [|split]); (reflexivity || lia).
  - destruct (_act_node json_loads tools now st) as [[st' ws]|] eqn:Ea;
      simpl; [|discriminate].
    destruct (conversation_act_node_effect _ _ _ _ Ea) as (Hr & _ & Hh).
    intros [= <-]. simpl. rewrite Hr. split; [|split]; [|reflexivity|].
    + destruct (agent_outcome st); [destruct Hh as [_ [pair ->]]|destruct Hh as [_ ->]];
        apply prefix_app_r; reflexivity.
    + destruct (agent_outcome st); destruct Hh as [-> _]; lia.
  - intros [= <-]. simpl. split; [|split]; [|reflexivity|lia].
    apply prefix_app_r. reflexivity.
  - discriminate.
Qed.

Lemma conversation_trace_grown fuel : forall c,
  Forall (grown c) (trace fuel c).
Proof.
  assert (Hrefl : forall c, grown c c).
  { intros c. unfold grown. split; [|split]; (reflexivity || lia). }
  induction fuel as [|fuel IH]; intros c; simpl.
  - constructor; [apply Hrefl|constructor].
  - constructor; [apply Hrefl|].
    destruct (step c) as [c'| |e] eqn:Es; try constructor.
    eapply Forall_impl; [apply IH|].
    intros c2 (H1 & H2 & H3). destruct (conversation_step_grown c c' Es) as (G1 & G2 & G3).
    split; [|split]; [etrans; eassumption|etrans; eassumption|lia].
Qed.

Lemma conversation_trace_ordered fuel : forall c,
  ForallOrdPairs grown (trace fuel c).
Proof.
  induction fuel as [|fuel IH]; intros c; simpl.
  - constructor; [constructor|constructor].
  - pose proof (conversation_trace_grown (S fuel) c) as H. simpl in H.
    inversion H as [|? ? _ Hrest]; subst.
    constructor; [exact Hrest|].
    destruct (step c) as [c'| |e]; try constructor. apply IH.
Qed.

(** *** Supersteps, and what [app.invoke] returns *)

Lemma conversation_superstep_stops c : superstep c = Stops -> point c = at_END.
Proof.
  unfold ConversationAgent.superstep.
  destruct (step c) as [c1| |e] eqn:Es; [|intros _; exact (conversation_step_stops c Es)|discriminate].
  pose proof (conversation_step_stops c1) as Hstop.
  destruct (point c1); try discriminate; intros H; specialize (Hstop H); discriminate.
Qed.

Lemma conversation_superstep_keeps (P : Config -> Prop) :
  (forall c c', P c -> step c = Goes c' -> P c') ->
  forall c c', P c -> superstep c = Goes c' -> P c'.
Proof.
  intros Hstep c c' Hc. unfold ConversationAgent.superstep.
  destruct (step c) as [c1| |e] eqn:Es; try discriminate.
  pose proof (Hstep c c1 Hc Es) as Hc1.
  destruct (point c1); try (intros [= <-]; exact Hc1); intros H; exact (Hstep c1 c' Hc1 H).
Qed.

(** a superstep leads from a node to a node, and is counted once *)
Lemma conversation_superstep_wf c c' :
  wf c -> at_node c -> superstep c = Goes c' ->
  wf c' /\ at_node c' /\ (used c' <= used c + 1)%nat.
Proof.
  intros Hwf Hn. unfold ConversationAgent.superstep.
  destruct (step c) as [c1| |e] eqn:Es; try discriminate.
  destruct (conversation_step_wf c c1 Hwf Es) as [Hwf1 Hu1].
  assert (Hone : (runs_node c <= 1)%nat) by (unfold runs_node; destruct (point c); lia).
  destruct (point c1) eqn:Ep1;
    try (intros [= <-]; split; [exact Hwf1|]; split; [unfold at_node; rewrite Ep1; exact I|lia]);
    intros Es1;
    destruct (conversation_step_wf c1 c' Hwf1 Es1) as [Hwf' Hu'];
    pose proof (conversation_step_shape c1 c' Es1) as Hsh; rewrite Ep1 in Hsh;
    (split; [exact Hwf'|]); unfold runs_node in Hu'; rewrite Ep1 in Hu';
    (split; [unfold at_node; destruct Hsh as [[-> | ->] _]; exact I|lia]).
Qed.

(** The state [app.invoke] returns is the state of a configuration at END
    that the steps of the run lead to, and the supersteps it took are
    fewer than those it was given. *)
Lemma conversation_invoke_from_end (P : Config -> Prop) :
  (forall c c', P c -> step c = Goes c' -> P c') ->
  forall n c st,
    P c -> wf c -> at_node c -> invoke_from n c = Finished st ->
    exists c_end,
      P c_end /\ wf c_end /\ point c_end = at_END /\ state c_end = st
      /\ (used c_end + 1 <= used c + n)%nat.
Proof.
  intros Hstep. induction n as [|n IH]; intros c st Hc Hwf Hn; simpl; [discriminate|].
  destruct (superstep c) as [c'| |e] eqn:Es; try discriminate.
  - intros H.
    destruct (conversation_superstep_wf c c' Hwf Hn Es) as (Hwf' & Hn' & Hu).
    destruct (IH c' st (conversation_superstep_keeps P Hstep c c' Hc Es) Hwf' Hn' H)
      as (c_end & HP & Hwfe & Hpe & Hse & Hue).
    exists c_end. repeat split; try assumption. lia.
  - intros [= <-]. exists c. repeat split; try assumption; [|lia].
    exact (conversation_superstep_stops c Es).
Qed.

(** A conversation run that [app.invoke] brings to its end has acted at
    most seven times: the eighth round would end after the limit. *)
Lemma conversation_invoke_finished enhanced_query query sid st :
  invoke_from recursion_limit (start enhanced_query query sid) = Finished st ->
  0 <= step_counter st <= 7
  /\ is_finish (agent_outcome st) = true.
Proof.
  intros H.
  destruct (conversation_invoke_from_end (fun _ => True) (fun _ _ _ _ => I)
              _ _ _ I (conversation_start_wf enhanced_query query sid) I H)
    as (c_end & _ & Hwf & Hp & <- & Hu).
  unfold wf in Hwf. rewrite Hp in Hwf. destruct Hwf as (Hk & Hs & _).
  unfold used in Hu. rewrite Hp in Hu. simpl in Hu. unfold recursion_limit in Hu.
  assert (H7 : step_counter (state c_end) <= 7) by lia.
  split; [lia|]. destruct Hs as [Hs|Hs]; [exact Hs|lia].
Qed.

End ConversationRuns.

(** ** Runs of the extraction loop *)

Section ExtractionRuns.
Import Py Agent ExtractionAgent.

Variable policy : nat -> string -> list (AgentAction * string) -> PolicyReply.
Variable json_loads : string -> option Value.
Variable tools : list Tool.

#[local] Abbreviation step := (ExtractionAgent.step policy json_loads tools).
#[local] Abbreviation superstep := (ExtractionAgent.superstep policy json_loads tools).
#[local] Abbreviation invoke_from := (ExtractionAgent.invoke_from policy json_loads tools).
#[local] Abbreviation trace := (ExtractionAgent.trace policy json_loads tools).

(** What the run keeps of [_act_node]: the pair and the counter it
    returns.  On an unset outcome the node returns an empty list and no
    counter, so the step it counted in place is not kept. *)
Lemma extraction_act_node_effect now st st' ws :
  _act_node json_loads tools now st = Ok (st', ws) ->
  agent_outcome (apply_writes st ws) = agent_outcome st
  /\ match agent_outcome st with
     | None =>
         step_counter (apply_writes st ws) = step_counter st
         /\ intermediate_steps (apply_writes st ws) = intermediate_steps st ++ []
     | Some _ =>
         step_counter (apply_writes st ws) = step_counter st + 1
         /\ exists pair, intermediate_steps (apply_writes st ws)
                         = intermediate_steps st ++ [pair]
     end.
Proof.
  unfold _act_node. simpl.
  destruct (agent_outcome st) as [[a|f]|] eqn:Eo; simpl.
  - destruct (tool_map_get (tool a) (extraction_tools tools)) as [t|].
    + destruct (_parse_tool_input json_loads (tool a) (tool_input a)) as [v|];
        simpl; [|discriminate].
      destruct (invoke t now v); [|discriminate].
      intros [= <- <-]. simpl. rewrite Eo. eauto.
    + intros [= <- <-]. simpl. rewrite Eo. eauto.
  - discriminate.
  - intros [= <- <-]. simpl. rewrite Eo. auto.
Qed.

(** Every step keeps [wf], and a node brings the end of the run one
    superstep nearer. *)
Lemma extraction_step_wf c c' :
  wf c -> step c = Goes c' ->
  wf c' /\ (remaining c' + runs_node c <= remaining c)%nat.
Proof.
  destruct c as [p now st]. unfold wf, remaining, runs_node, ExtractionAgent.step.
  destruct p; simpl.
  - intros [Hk Hp]. unfold _reason_node.
    destruct (policy now (input st) (intermediate_steps st));
      simpl; try discriminate; intros [= <-]; simpl;
      (split; [split; [lia|discriminate]|lia]).
  - intros [Hk Ho]. unfold _should_continue.
    destruct (Z.leb_spec 5 (step_counter st)) as [H5|H5].
    + intros [= <-]. simpl. unfold settled. split; [|lia].
      split; [lia|]. split; [right; lia|exact Ho].
    + destruct (is_finish (agent_outcome st)) eqn:Ef; intros [= <-]; simpl.
      * unfold settled. split; [|lia]. split; [lia|]. split; [left; exact Ef|exact Ho].
      * unfold pending. split; [|lia]. split; [lia|]. split; [exact Ef|exact Ho].
  - intros [Hk [Hp Ho]].
    destruct (_act_node json_loads tools now st) as [[st' ws]|] eqn:Ea;
      simpl; [|discriminate].
    destruct (extraction_act_node_effect _ _ _ _ Ea) as (Ho' & Hc).
    unfold pending in Hp.
    destruct (agent_outcome st) as [o|] eqn:Eo; [|congruence].
    destruct Hc as [Hc _].
    intros [= <-]. simpl. rewrite Hc. unfold pending. rewrite Ho'.
    split; [split; [lia|exact Hp]|lia].
  - intros [Hk Hs] [= <-]. simpl. split; [auto|lia].
  - discriminate.
Qed.

Lemma extraction_start_wf query sid : wf (start query sid).
Proof. unfold wf, pending. simpl. split; [lia|reflexivity]. Qed.

Lemma extraction_step_stops c : step c = Stops -> point c = at_END.
Proof.
  destruct c as [p now st]. unfold ExtractionAgent.step. simpl.
  destruct p; simpl; try reflexivity; try discriminate.
  - destruct (_reason_node policy now st) as [[? ?]|]; discriminate.
  - destruct (_act_node json_loads tools now st) as [[? ?]|]; discriminate.
Qed.

Lemma extraction_trace_suffix pre : forall fuel c c1 post,
  trace fuel c = pre ++ c1 :: post -> exists fuel', trace fuel' c1 = c1 :: post.
Proof.
  induction pre as [|p pre IH]; intros fuel c c1 post H.
  - exists fuel. destruct fuel; simpl in *; injection H as -> H; rewrite H; reflexivity.
  - destruct fuel as [|fuel]; simpl in H; injection H as -> H.
    + destruct pre; discriminate.
    + destruct (step p) as [c'| |e]; try (destruct pre; discriminate).
      exact (IH _ _ _ _ H).
Qed.

Lemma extraction_trace_Forall (P : Config -> Prop) :
  (forall c c', P c -> step c = Goes c' -> P c') ->
  forall fuel c, P c -> Forall P (trace fuel c).
Proof.
  intros Hstep. induction fuel as [|fuel IH]; intros c Hc; simpl.
  - constructor; [exact Hc|constructor].
  - constructor; [exact Hc|].
    destruct (step c) as [c'| |e] eqn:Es; try constructor.
    apply IH. exact (Hstep c c' Hc Es).
Qed.

Lemma extraction_closed_start c :
  wf c -> is_finish (agent_outcome (state c)) = true ->
  closed_with (agent_outcome (state c)) c.
Proof.
  unfold wf, closed_with, pending. intros Hwf Hf.
  split; [|auto].
  destruct (point c); try exact I.
  - destruct Hwf as [_ Hp]. congruence.
  - destruct Hwf as (_ & Hp & _). congruence.
Qed.

Lemma extraction_closed_step o c c' :
  closed_with o c -> step c = Goes c' -> closed_with o c'.
Proof.
  destruct c as [p now st]. unfold closed_with, ExtractionAgent.step. simpl.
  intros (Hp & Hf & Ho). destruct p; try contradiction; simpl.
  - unfold _should_continue.
    destruct (5 <=? step_counter st); [intros [= <-]; simpl; auto|].
    rewrite Hf. intros [= <-]. simpl. auto.
  - intros [= <-]. simpl. auto.
  - discriminate.
Qed.

Lemma extraction_closed_not_act o c :
  closed_with o c -> point c <> at_act.
Proof. unfold closed_with. intros [H _] E. rewrite E in H. exact H. Qed.

Lemma extraction_final_answer_stays fuel query sid pre c1 post :
  trace fuel (start query sid) = pre ++ c1 :: post ->
  is_finish (agent_outcome (state c1)) = true ->
  Forall (fun c2 =>
            point c2 <> at_act
            /\ (agent_outcome (state c2) = agent_outcome (state c1)
                \/ agent_outcome (state c2) = Some (Finish budget_apology)))
         post.
Proof.
  intros Ht Hf.
  assert (Hwf : wf c1).
  { pose proof (extraction_trace_Forall wf
                  (fun c c' H E => proj1 (extraction_step_wf c c' H E))
                  fuel _ (extraction_start_wf query sid)) as Hall.
    rewrite Ht in Hall. apply Forall_app in Hall. destruct Hall as [_ Hall].
    inversion Hall; assumption. }
  destruct (extraction_trace_suffix _ _ _ _ _ Ht) as [fuel' Ht'].
  pose proof (extraction_trace_Forall (closed_with (agent_outcome (state c1)))
                (extraction_closed_step _) fuel' c1
                (extraction_closed_start c1 Hwf Hf)) as Hall.
  rewrite Ht' in Hall. inversion Hall as [|? ? _ Hpost]; subst.
  eapply Forall_impl; [exact Hpost|].
  intros c2 Hc2. split; [exact (extraction_closed_not_act _ _ Hc2)|].
  destruct Hc2 as (_ & _ & Ho). exact Ho.
Qed.

(** In the extraction loop, which has no node that returns the whole
    state before the end, the history has one entry for each step
    counted; the finish node, which does return the whole state, leaves
    it twice as long. *)
Lemma extraction_step_tallied c c' :
  wf c /\ tallied c -> step c = Goes c' -> wf c' /\ tallied c'.
Proof.
  intros [Hwf Hc] Hs. split; [exact (proj1 (extraction_step_wf c c' Hwf Hs))|].
  destruct c as [p now st]. unfold tallied, wf, ExtractionAgent.step in *. simpl in *.
  destruct p; simpl in *.
  - unfold _reason_node in Hs.
    destruct (policy now (input st) (intermediate_steps st));
      simpl in Hs; try discriminate; injection Hs as <-; simpl; exact Hc.
  - unfold _should_continue in Hs.
    destruct (5 <=? step_counter st); [injection Hs as <-; simpl; exact Hc|].
    destruct (is_finish (agent_outcome st)); injection Hs as <-; simpl; exact Hc.
  - destruct Hwf as (_ & _ & Ho).
    destruct (_act_node json_loads tools now st) as [[st' ws]|] eqn:Ea;
      simpl in Hs; [|discriminate].
    destruct (extraction_act_node_effect _ _ _ _ Ea) as (_ & Hh).
    destruct (agent_outcome st); [|congruence].
    destruct Hh as [Hk [pair Hpair]].
    injection Hs as <-. simpl. rewrite Hk, Hpair, length_app. simpl. lia.
  - injection Hs as <-. simpl. rewrite length_app. lia.
  - discriminate.
Qed.

Lemma extraction_start_tallied query sid : tallied (start query sid).
Proof. reflexivity. Qed.

(** X1.  In every run of the extraction loop, whenever a reasoning step
    starts, the counter is the length of the history. *)
Lemma extraction_counter_is_history_length fuel query sid :
  Forall (fun c => point c = at_reason ->
                   step_counter (state c)
                   = Z.of_nat (length (intermediate_steps (state c))))
         (trace fuel (start query sid)).
Proof.
  eapply Forall_impl.
  - apply (extraction_trace_Forall _ extraction_step_tallied fuel (start query sid)).
    split; [apply extraction_start_wf|apply extraction_start_tallied].
  - intros c [_ Hc] Hp. simpl in Hc. unfold tallied in Hc. rewrite Hp in Hc.
    symmetry. exact Hc.
Qed.

(** *** What a step keeps, and how often a run acts *)

Lemma extraction_step_shape c c' :
  step c = Goes c' ->
  match point c with
  | at_reason =>
      point c' = after_reason /\ step_counter (state c') = step_counter (state c)
  | after_reason =>
      (point c' = at_act \/ point c' = at_finish)
      /\ step_counter (state c') = step_counter (state c)
  | at_act =>
      point c' = at_reason
      /\ (agent_outcome (state c) <> None ->
          step_counter (state c') = step_counter (state c) + 1)
  | at_finish =>
      point c' = at_END /\ step_counter (state c') = step_counter (state c)
  | at_END => False
  end.
Proof.
  destruct c as [p now st]. unfold ExtractionAgent.step. simpl.
  destruct p; simpl.
  - unfold _reason_node.
    destruct (policy now (input st) (intermediate_steps st));
      simpl; try discriminate; intros [= <-]; simpl; auto.
  - unfold _should_continue.
    destruct (5 <=? step_counter st); [intros [= <-]; simpl; auto|].
    destruct (is_finish (agent_outcome st)); intros [= <-]; simpl; auto.
  - destruct (_act_node json_loads tools now st) as [[st' ws]|] eqn:Ea;
      simpl; [|discriminate].
    destruct (extraction_act_node_effect _ _ _ _ Ea) as (_ & Hc).
    intros [= <-]. simpl. split; [reflexivity|].
    destruct (agent_outcome st); [intros _; exact (proj1 Hc)|congruence].
  - intros [= <-]. simpl. auto.
  - discriminate.
Qed.

Lemma extraction_step_left c c' :
  wf c -> step c = Goes c' ->
  ((if stands_at_act c then 1 else 0) + acts_left c' <= acts_left c)%nat
  /\ ((if stands_at_reason c then 1 else 0) + reasonings_left c' <= reasonings_left c)%nat.
Proof.
  intros Hwf Hs. pose proof (extraction_step_shape c c' Hs) as Hsh.
  pose proof (proj1 (extraction_step_wf c c' Hwf Hs)) as Hwf'.
  unfold wf in Hwf, Hwf'. revert Hsh Hwf Hwf'.
  unfold stands_at_act, stands_at_reason, acts_left, reasonings_left.
  destruct (point c); simpl.
  - intros [-> ->]. lia.
  - intros [[-> | ->] ->]; lia.
  - intros [-> Hc] (Hk & _ & Ho). rewrite (Hc Ho). lia.
  - intros [-> ->]. lia.
  - contradiction.
Qed.

Lemma extraction_trace_counts fuel : forall c,
  wf c ->
  (acts (trace fuel c) <= acts_left c)%nat
  /\ (reasonings (trace fuel c) <= reasonings_left c)%nat.
Proof.
  assert (Hone : forall c, wf c ->
            (acts [c] <= acts_left c)%nat /\ (reasonings [c] <= reasonings_left c)%nat).
  { intros c Hwf. unfold acts, reasonings, acts_left, reasonings_left,
      stands_at_act, stands_at_reason, wf in *. simpl.
    destruct (point c); simpl; lia. }
  induction fuel as [|fuel IH]; intros c Hwf; [exact (Hone c Hwf)|].
  simpl. destruct (step c) as [c'| |e] eqn:Es; try exact (Hone c Hwf).
  destruct (extraction_step_wf c c' Hwf Es) as [Hwf' _].
  destruct (IH c' Hwf') as [Ha Hr].
  destruct (extraction_step_left c c' Hwf Es) as [Ha' Hr'].
  unfold acts, reasonings in *. simpl.
  destruct (stands_at_act c), (stands_at_reason c); simpl; lia.
Qed.

Lemma extraction_step_grown c c' : step c = Goes c' -> grown c c'.
Proof.
  destruct c as [p now st]. unfold grown, ExtractionAgent.step. simpl.
  destruct p; simpl.
  - unfold _reason_node.
    destruct (policy now (input st) (intermediate_steps st));
      simpl; try discriminate; intros [= <-]; simpl; (split; (reflexivity || lia)).
  - unfold _should_continue.
    destruct (5 <=? step_counter st);
      [intros [= <-]; simpl; split; (reflexivity || lia)|].
    destruct (is_finish (agent_outcome st)); intros [= <-]; simpl;
      split; (reflexivity || lia).
  - destruct (_act_node json_loads tools now st) as [[st' ws]|] eqn:Ea;
      simpl; [|discriminate].
    destruct (extraction_act_node_effect _ _ _ _ Ea) as (_ & Hh).
    intros [= <-]. simpl. split.
    + destruct (agent_outcome st); [destruct Hh as [_ [pair ->]]|destruct Hh as [_ ->]];
        apply prefix_app_r; reflexivity.
    + destruct (agent_outcome st); destruct Hh as [-> _]; lia.
  - intros [= <-]. simpl. split; [|lia].
    apply prefix_app_r. reflexivity.
  - discriminate.
Qed.

Lemma extraction_trace_grown fuel : forall c,
  Forall (grown c) (trace fuel c).
Proof.
  assert (Hrefl : forall c, grown c c).
  { intros c. unfold grown. split; (reflexivity || lia). }
  induction fuel as [|fuel IH]; intros c; simpl.
  - constructor; [apply Hrefl|constructor].
  - constructor; [apply Hrefl|].
    destruct (step c) as [c'| |e] eqn:Es; try constructor.
    eapply Forall_impl; [apply IH|].
    intros c2 (H1 & H2). destruct (extraction_step_grown c c' Es) as (G1 & G2).
    split; [etrans; eassumption|lia].
Qed.

Lemma extraction_trace_ordered fuel : forall c,
  ForallOrdPairs grown (trace fuel c).
Proof.
  induction fuel as [|fuel IH]; intros c; simpl.
  - constructor; [constructor|constructor].
  - pose proof (extraction_trace_grown (S fuel) c) as H. simpl in H.
    inversion H as [|? ? _ Hrest]; subst.
    constructor; [exact Hrest|].
    destruct (step c) as [c'| |e]; try constructor. apply IH.
Qed.

(** with a model that never gives a final answer, no node sets one *)
Lemma extraction_step_pending :
  (forall now i h, exists a, policy now i h = Parsed (Action a)) ->
  forall c c', pending (state c) -> step c = Goes c' -> pending (state c').
Proof.
  intros Hnever c c'. destruct c as [p now st].
  unfold pending, ExtractionAgent.step. simpl.
  destruct p; simpl.
  - intros _. unfold _reason_node.
    destruct (Hnever now (input st) (intermediate_steps st)) as [a ->].
    intros [= <-]. reflexivity.
  - intros Hp [= <-]. exact Hp.
  - intros Hp.
    destruct (_act_node json_loads tools now st) as [[st' ws]|] eqn:Ea;
      simpl; [|discriminate].
    destruct (extraction_act_node_effect _ _ _ _ Ea) as (Ho & _).
    intros [= <-]. simpl. rewrite Ho. exact Hp.
  - intros Hp [= <-]. exact Hp.
  - discriminate.
Qed.

(** *** Supersteps, and what [app.invoke] returns *)

Lemma extraction_superstep_stops c : superstep c = Stops -> point c = at_END.
Proof.
  unfold ExtractionAgent.superstep.
  destruct (step c) as [c1| |e] eqn:Es; [|intros _; exact (extraction_step_stops c Es)|discriminate].
  pose proof (extraction_step_stops c1) as Hstop.
  destruct (point c1); try discriminate; intros H; specialize (Hstop H); discriminate.
Qed.

Lemma extraction_superstep_keeps (P : Config -> Prop) :
  (forall c c', P c -> step c = Goes c' -> P c') ->
  forall c c', P c -> superstep c = Goes c' -> P c'.
Proof.
  intros Hstep c c' Hc. unfold ExtractionAgent.superstep.
  destruct (step c) as [c1| |e] eqn:Es; try discriminate.
  pose proof (Hstep c c1 Hc Es) as Hc1.
  destruct (point c1); try (intros [= <-]; exact Hc1); intros H; exact (Hstep c1 c' Hc1 H).
Qed.

(** a superstep leads from a node to a node, and nearer to the end *)
Lemma extraction_superstep_wf c c' :
  wf c -> at_node c -> superstep c = Goes c' ->
  wf c' /\ at_node c' /\ (remaining c' < remaining c)%nat.
Proof.
  intros Hwf Hn. unfold ExtractionAgent.superstep.
  destruct (step c) as [c1| |e] eqn:Es; try discriminate.
  destruct (extraction_step_wf c c1 Hwf Es) as [Hwf1 Hu1].
  assert (Hone : runs_node c = 1%nat).
  { pose proof (extraction_step_shape c c1 Es) as Hsh.
    unfold runs_node, at_node in *. destruct (point c); try reflexivity; contradiction. }
  destruct (point c1) eqn:Ep1;
    try (intros [= <-]; split; [exact Hwf1|]; split; [unfold at_node; rewrite Ep1; exact I|lia]).
  intros Es1.
  destruct (extraction_step_wf c1 c' Hwf1 Es1) as [Hwf' Hu'].
  pose proof (extraction_step_shape c1 c' Es1) as Hsh. rewrite Ep1 in Hsh.
  split; [exact Hwf'|]. split; [unfold at_node; destruct Hsh as [[-> | ->] _]; exact I|lia].
Qed.

(** The state [app.invoke] returns is the state of a configuration at END
    that the steps of the run lead to. *)
Lemma extraction_invoke_from_end (P : Config -> Prop) :
  (forall c c', P c -> step c = Goes c' -> P c') ->
  forall n c st,
    P c -> wf c -> at_node c -> invoke_from n c = Finished st ->
    exists c_end, P c_end /\ wf c_end /\ point c_end = at_END /\ state c_end = st.
Proof.
  intros Hstep. induction n as [|n IH]; intros c st Hc Hwf Hn; simpl; [discriminate|].
  destruct (superstep c) as [c'| |e] eqn:Es; try discriminate.
  - intros H.
    destruct (extraction_superstep_wf c c' Hwf Hn Es) as (Hwf' & Hn' & _).
    exact (IH c' st (extraction_superstep_keeps P Hstep c c' Hc Es) Hwf' Hn' H).
  - intros [= <-]. exists c. repeat split; try assumption.
    exact (extraction_superstep_stops c Es).
Qed.

(** An extraction run needs at most thirteen supersteps, so the recursion
    limit never stops it. *)
Lemma extraction_invoke_from_enough : forall n c,
  wf c -> at_node c -> (remaining c <= n)%nat ->
  invoke_from n c <> GraphRecursionError.
Proof.
  induction n as [|n IH]; intros c Hwf Hn Hr; simpl.
  - exfalso. unfold remaining in Hr. destruct (point c); lia.
  - destruct (superstep c) as [c'| |e] eqn:Es; try discriminate.
    destruct (extraction_superstep_wf c c' Hwf Hn Es) as (Hwf' & Hn' & Hu).
    apply IH; [assumption|assumption|lia].
Qed.

End ExtractionRuns.

(** ** The step budget, the final answer, the counter and the history *)

Section Loops.
Import Py Agent.

(** C1 does not hold.  The counter of a run that [app.invoke] brings to
    its end is within the budget (in the conversation loop it is at most
    7, since the recursion limit of 25 supersteps ends a longer run with
    an error; the extraction loop is never stopped by that limit), but the
    outcome of a run that has spent its budget is not overwritten: the
    apology [_should_continue] assigns is assigned to the dict the router
    was given, and the run keeps the label only.
    - Scenario B of the spec in the extraction loop: the model proposes a
      tool call at every reasoning step.  The run ends with a counter of
      5 and the sixth proposal as its outcome, and [process], which reads
      [return_values] of the outcome, raises AttributeError.
    - The model gives its final answer at the sixth reasoning step, when
      the budget is spent: the run ends with that answer, and [process]
      returns it.
    - In the conversation loop a model that proposes two tools in turn
      (the clock of a run advances by 5 from one reasoning step to the
      next) is stopped by the recursion limit after 8 acts: the budget of
      10 is not reached. *)
Theorem C1_budget_apology_is_lost :
  (forall policy llm json_loads tools enhanced_query query sid st,
     ConversationAgent.app_invoke policy llm json_loads tools
       (ConversationAgent.start enhanced_query query sid)
     = ConversationAgent.Finished st ->
     0 <= ConversationAgent.step_counter st <= 7)
  /\ (forall policy json_loads tools query sid,
        ExtractionAgent.app_invoke policy json_loads tools (ExtractionAgent.start query sid)
        <> ExtractionAgent.GraphRecursionError
        /\ forall st,
             ExtractionAgent.app_invoke policy json_loads tools
               (ExtractionAgent.start query sid)
             = ExtractionAgent.Finished st ->
             0 <= ExtractionAgent.step_counter st <= 5)
  /\ (let proposal := {| tool := "extract_content_local";
                         tool_input := VStr "/srv/app"; log := "extract" |} in
      let policy := fun (_ : nat) (_ : string) (_ : list (AgentAction * string)) =>
                      Parsed (Action proposal) in
      let local := {| name := "extract_content_local";
                      invoke := fun _ _ => Some "---- app.py ----" |} in
      let no_json := fun _ : string => @None Value in
      exists st,
        ExtractionAgent.app_invoke policy no_json [local]
          (ExtractionAgent.start "extract /srv/app" None) = ExtractionAgent.Finished st
        /\ ExtractionAgent.step_counter st = 5
        /\ ExtractionAgent.agent_outcome st = Some (Action proposal)
        /\ ExtractionAgent.agent_outcome st
           <> Some (Finish ExtractionAgent.budget_apology)
        /\ ExtractionAgent.process_output st = Raise AttributeError)
  /\ (let proposal := {| tool := "extract_content_local";
                         tool_input := VStr "/srv/app"; log := "extract" |} in
      let done := {| output := "done"; finish_log := "done" |} in
      let policy := fun (now : nat) (_ : string) (_ : list (AgentAction * string)) =>
                      if Nat.ltb now 15 then Parsed (Action proposal)
                      else Parsed (Finish done) in
      let no_json := fun _ : string => @None Value in
      exists st,
        ExtractionAgent.app_invoke policy no_json []
          (ExtractionAgent.start "extract /srv/app" None) = ExtractionAgent.Finished st
        /\ ExtractionAgent.step_counter st = 5
        /\ ExtractionAgent.agent_outcome st = Some (Finish done)
        /\ ExtractionAgent.process_output st = Ok "done")
  /\ (let search := {| tool := "tavily_search_results_json";
                       tool_input := VStr "weather"; log := "search" |} in
      let time := {| tool := "get_system_time";
                     tool_input := VStr "now"; log := "time" |} in
      let policy := fun (now : nat) (_ : string) (_ : list (AgentAction * string)) =>
                      if Nat.even (Nat.div now 5) then Parsed (Action search)
                      else Parsed (Action time) in
      let llm := fun (_ : nat) (_ : Prompt) => Some {| content := "ok"; shown := "ok" |} in
      let no_json := fun _ : string => @None Value in
      let tools := [ {| name := "tavily_search_results_json";
                        invoke := fun _ _ => Some "sunny" |};
                     {| name := "get_system_time";
                        invoke := fun _ _ => Some "12:00" |} ] in
      ConversationAgent.app_invoke policy llm no_json tools
        (ConversationAgent.start "weather?" "weather?" "s1")
      = ConversationAgent.GraphRecursionError
      /\ ConversationAgent.acts
           (ConversationAgent.trace policy llm no_json tools 42
              (ConversationAgent.start "weather?" "weather?" "s1")) = 8%nat
      /\ Forall (fun c => ConversationAgent.step_counter (ConversationAgent.state c) <= 8)
           (ConversationAgent.trace policy llm no_json tools 42
              (ConversationAgent.start "weather?" "weather?" "s1"))).
Proof.
  split; [|split; [|split; [|split]]].
  - intros policy llm json_loads tools enhanced_query query sid st H.
    exact (proj1 (conversation_invoke_finished policy llm json_loads tools _ _ _ _ H)).
  - intros policy json_loads tools query sid. split.
    + apply extraction_invoke_from_enough;
        [apply extraction_start_wf|exact I|vm_compute; lia].
    + intros st H.
      destruct (extraction_invoke_from_end policy json_loads tools (fun _ => True)
                  (fun _ _ _ _ => I) _ _ _ I (extraction_start_wf query sid) I H)
        as (c_end & _ & Hwf & Hp & <-).
      unfold ExtractionAgent.wf in Hwf. rewrite Hp in Hwf. exact (proj1 Hwf).
  - cbv zeta. eexists. split; [vm_compute; reflexivity|].
    repeat split. discriminate.
  - cbv zeta. eexists. split; [vm_compute; reflexivity|]. repeat split.
  - cbv zeta. split; [vm_compute; reflexivity|]. split; [vm_compute; reflexivity|].
    match goal with
    | |- Forall _ ?tr =>
        assert (Hb : forallb (fun c => ConversationAgent.step_counter
                                         (ConversationAgent.state c) <=? 8) tr = true)
          by (vm_compute; reflexivity);
        apply List.Forall_forall; intros c Hc; apply Z.leb_le;
        exact (proj1 (forallb_forall _ _) Hb c Hc)
    end.
Qed.

(** C2.  In every run of either loop: once a configuration has a final
    answer as its outcome, every configuration after it has the same
    outcome or the loop's budget apology, and none of them stands before
    the act node. *)
Theorem C2_final_answer_is_kept
    (policy : nat -> string -> list (AgentAction * string) -> PolicyReply)
    (llm : nat -> Prompt -> option Message)
    (json_loads : string -> option Value) (tools : list Tool) :
  (forall fuel enhanced_query query sid pre c1 post,
     ConversationAgent.trace policy llm json_loads tools fuel
       (ConversationAgent.start enhanced_query query sid) = pre ++ c1 :: post ->
     is_finish (ConversationAgent.agent_outcome (ConversationAgent.state c1)) = true ->
     Forall (fun c2 =>
               ConversationAgent.point c2 <> ConversationAgent.at_act
               /\ (ConversationAgent.agent_outcome (ConversationAgent.state c2)
                   = ConversationAgent.agent_outcome (ConversationAgent.state c1)
                   \/ ConversationAgent.agent_outcome (ConversationAgent.state c2)
                      = Some (Finish ConversationAgent.budget_apology)))
            post)
  /\ (forall fuel query sid pre c1 post,
        ExtractionAgent.trace policy json_loads tools fuel
          (ExtractionAgent.start query sid) = pre ++ c1 :: post ->
        is_finish (ExtractionAgent.agent_outcome (ExtractionAgent.state c1)) = true ->
        Forall (fun c2 =>
                  ExtractionAgent.point c2 <> ExtractionAgent.at_act
                  /\ (ExtractionAgent.agent_outcome (ExtractionAgent.state c2)
                      = ExtractionAgent.agent_outcome (ExtractionAgent.state c1)
                      \/ ExtractionAgent.agent_outcome (ExtractionAgent.state c2)
                         = Some (Finish ExtractionAgent.budget_apology)))
               post).
Proof.
  split.
  - intros. eapply conversation_final_answer_stays; eassumption.
  - intros. eapply extraction_final_answer_stays; eassumption.
Qed.

(** C9 does not hold of the conversation loop.  Let the model propose a
    web search at every reasoning step, and the search tool answer.  The
    third reasoning step starts, ten steps into the run, with a counter of
    2 and a history of 3 entries: the reflect node, entered with a history
    of one entry, returned the whole state, and the history it returned
    was added to the history.  Besides, [_act_node] on an unset outcome
    counts a step in the dict it was given and returns an empty list of
    pairs: that branch adds no entry. *)
Theorem C9_counter_and_history_diverge :
  let search := {| name := "tavily_search_results_json";
                   invoke := fun _ _ => Some "sunny" |} in
  let proposal := {| tool := "tavily_search_results_json";
                     tool_input := VStr "weather"; log := "search" |} in
  let policy := fun (_ : nat) (_ : string) (_ : list (AgentAction * string)) =>
                  Parsed (Action proposal) in
  let llm := fun (_ : nat) (_ : Prompt) => Some {| content := "ok"; shown := "ok" |} in
  let no_json := fun _ : string => @None Value in
  (exists c,
     nth_error (ConversationAgent.trace policy llm no_json [search] 10
                  (ConversationAgent.start "weather?" "weather?" "s1")) 10 = Some c
     /\ ConversationAgent.point c = ConversationAgent.at_reason
     /\ ConversationAgent.step_counter (ConversationAgent.state c) = 2
     /\ ConversationAgent.intermediate_steps (ConversationAgent.state c)
        = [(proposal, "sunny"); (proposal, "sunny"); (proposal, "sunny")])
  /\ (forall now st,
        ConversationAgent.agent_outcome st = None ->
        ConversationAgent._act_node no_json [search] now st
        = Ok (ConversationAgent.set_step_counter
                (ConversationAgent.step_counter st + 1) st,
              [ConversationAgent.W_intermediate_steps []])).
Proof.
  cbv zeta. split.
  - eexists. split; [vm_compute; reflexivity|]. repeat split.
  - intros now st Ho.
    unfold ConversationAgent._act_node. simpl.
    rewrite Ho. reflexivity.
Qed.

(** X2.  Scenario B of the spec as the code runs it.  In the extraction
    loop, with a model that never gives a final answer, whatever the tools
    do: the recursion limit does not stop the run, and if no node raises
    the run ends with a counter of 5, the last proposal as its outcome
    (not the maximum-steps message) and a history of 10 entries, the 5
    pairs twice, since the finish node returns the whole state; [process]
    then raises AttributeError. *)
Theorem extraction_budget_run
    (policy : nat -> string -> list (AgentAction * string) -> PolicyReply)
    (json_loads : string -> option Value) (tools : list Tool)
    (query : string) (sid : option string)
    (Hnever : forall now i h, exists a, policy now i h = Parsed (Action a)) :
  ExtractionAgent.app_invoke policy json_loads tools (ExtractionAgent.start query sid)
  <> ExtractionAgent.GraphRecursionError
  /\ forall st,
       ExtractionAgent.app_invoke policy json_loads tools (ExtractionAgent.start query sid)
       = ExtractionAgent.Finished st ->
       ExtractionAgent.step_counter st = 5
       /\ (exists a, ExtractionAgent.agent_outcome st = Some (Action a))
       /\ length (ExtractionAgent.intermediate_steps st) = 10%nat
       /\ ExtractionAgent.process_output st = Raise AttributeError.
Proof.
  split.
  - apply extraction_invoke_from_enough;
      [apply extraction_start_wf|exact I|vm_compute; lia].
  - intros st H.
    destruct (extraction_invoke_from_end policy json_loads tools
                (fun c => (ExtractionAgent.wf c /\ ExtractionAgent.tallied c)
                          /\ ExtractionAgent.pending (ExtractionAgent.state c))
                (fun c c' Hc Hs =>
                   conj (extraction_step_tallied policy json_loads tools c c' (proj1 Hc) Hs)
                        (extraction_step_pending policy json_loads tools Hnever c c'
                           (proj2 Hc) Hs))
                _ _ _
                (conj (conj (extraction_start_wf query sid)
                            (extraction_start_tallied query sid)) eq_refl)
                (extraction_start_wf query sid) I H)
      as (c_end & [[_ Ht] Hpend] & Hwf & Hp & <-).
    unfold ExtractionAgent.wf in Hwf. rewrite Hp in Hwf.
    destruct Hwf as (Hk & Hs & Ho).
    unfold ExtractionAgent.tallied in Ht. rewrite Hp in Ht.
    unfold ExtractionAgent.pending in Hpend.
    assert (H5 : ExtractionAgent.step_counter (ExtractionAgent.state c_end) = 5).
    { destruct Hs as [Hs|Hs]; [congruence|exact Hs]. }
    split; [exact H5|]. unfold ExtractionAgent.process_output.
    destruct (ExtractionAgent.agent_outcome (ExtractionAgent.state c_end))
      as [[a|f]|]; [|discriminate|congruence].
    split; [eauto|]. split; [lia|reflexivity].
Qed.

(** X3.  Whatever the model, the decoder and the tools do, a run of either
    loop stands before the act node only with a tool call as its outcome:
    the outcome is never unset there and never a final answer, so neither
    the [agent_action is None] branch of [_act_node] nor a read of [.tool]
    on an [AgentFinish] happens in a run of [process]. *)
Theorem act_starts_from_a_tool_call
    (policy : nat -> string -> list (AgentAction * string) -> PolicyReply)
    (llm : nat -> Prompt -> option Message)
    (json_loads : string -> option Value) (tools : list Tool) :
  (forall fuel enhanced_query query sid,
     Forall (fun c =>
               ConversationAgent.point c = ConversationAgent.at_act ->
               exists a, ConversationAgent.agent_outcome (ConversationAgent.state c)
                         = Some (Action a))
            (ConversationAgent.trace policy llm json_loads tools fuel
               (ConversationAgent.start enhanced_query query sid)))
  /\ (forall fuel query sid,
        Forall (fun c =>
                  ExtractionAgent.point c = ExtractionAgent.at_act ->
                  exists a, ExtractionAgent.agent_outcome (ExtractionAgent.state c)
                            = Some (Action a))
               (ExtractionAgent.trace policy json_loads tools fuel
                  (ExtractionAgent.start query sid))).
Proof.
  split.
  - intros fuel enhanced_query query sid.
    eapply Forall_impl.
    + apply (conversation_trace_Forall policy llm json_loads tools _
               (fun c c' H E =>
                  proj1 (conversation_step_wf policy llm json_loads tools c c' H E)) fuel).
      apply conversation_start_wf.
    + intros c Hwf Hp. unfold ConversationAgent.wf in Hwf.
      rewrite Hp in Hwf. destruct Hwf as (_ & Hpend & Ho).
      unfold ConversationAgent.pending in Hpend.
      destruct (ConversationAgent.agent_outcome (ConversationAgent.state c))
        as [[a|f]|]; [eauto|discriminate|congruence].
  - intros fuel query sid.
    eapply Forall_impl.
    + apply (extraction_trace_Forall policy json_loads tools _
               (fun c c' H E =>
                  proj1 (extraction_step_wf policy json_loads tools c c' H E)) fuel
               (ExtractionAgent.start query sid)).
      apply extraction_start_wf.
    + intros c Hwf Hp. unfold ExtractionAgent.wf in Hwf.
      rewrite Hp in Hwf. destruct Hwf as (_ & Hpend & Ho).
      unfold ExtractionAgent.pending in Hpend.
      destruct (ExtractionAgent.agent_outcome (ExtractionAgent.state c))
        as [[a|f]|]; [eauto|discriminate|congruence].
Qed.

(** X4.  The budget bounds the calls of a run: whatever the model, the
    decoder and the tools do, and however long the run is followed, the
    conversation loop stands at most 10 times before act (so it invokes at
    most 10 tools) and at most 11 times before reason; the extraction loop
    at most 5 and 6 times. *)
Theorem calls_within_budget
    (policy : nat -> string -> list (AgentAction * string) -> PolicyReply)
    (llm : nat -> Prompt -> option Message)
    (json_loads : string -> option Value) (tools : list Tool) :
  (forall fuel enhanced_query query sid,
     let tr := ConversationAgent.trace policy llm json_loads tools fuel
                 (ConversationAgent.start enhanced_query query sid) in
     (ConversationAgent.acts tr <= 10)%nat
     /\ (ConversationAgent.reasonings tr <= 11)%nat)
  /\ (forall fuel query sid,
        let tr := ExtractionAgent.trace policy json_loads tools fuel
                    (ExtractionAgent.start query sid) in
        (ExtractionAgent.acts tr <= 5)%nat
        /\ (ExtractionAgent.reasonings tr <= 6)%nat).
Proof.
  split.
  - intros fuel enhanced_query query sid. cbv zeta.
    exact (conversation_trace_counts policy llm json_loads tools fuel _
             (conversation_start_wf enhanced_query query sid)).
  - intros fuel query sid. cbv zeta.
    exact (extraction_trace_counts policy json_loads tools fuel _
             (extraction_start_wf query sid)).
Qed.

(** X5.  Within a run nothing recorded is lost: for any two configurations
    of a run, the history of the earlier one is a prefix of the history of
    the later one, so are the reflections (conversation loop), and the
    counter of the later one is no smaller. *)
Theorem runs_only_grow
    (policy : nat -> string -> list (AgentAction * string) -> PolicyReply)
    (llm : nat -> Prompt -> option Message)
    (json_loads : string -> option Value) (tools : list Tool) :
  (forall fuel enhanced_query query sid,
     ForallOrdPairs ConversationAgent.grown
       (ConversationAgent.trace policy llm json_loads tools fuel
          (ConversationAgent.start enhanced_query query sid)))
  /\ (forall fuel query sid,
        ForallOrdPairs ExtractionAgent.grown
          (ExtractionAgent.trace policy json_loads tools fuel
             (ExtractionAgent.start query sid))).
Proof.
  split.
  - intros. apply conversation_trace_ordered.
  - intros. apply extraction_trace_ordered.
Qed.

(** X6.  In the conversation loop the counter may fall behind the length
    of the history (C9), but it never runs ahead of it: at every
    configuration of every run, [step_counter <= len(intermediate_steps)]. *)
Theorem conversation_counter_below_history
    (policy : nat -> string -> list (AgentAction * string) -> PolicyReply)
    (llm : nat -> Prompt -> option Message)
    (json_loads : string -> option Value) (tools : list Tool)
    (fuel : nat) (enhanced_query query sid : string) :
  Forall (fun c =>
            ConversationAgent.step_counter (ConversationAgent.state c)
            <= Z.of_nat (length (ConversationAgent.intermediate_steps
                                   (ConversationAgent.state c))))
         (ConversationAgent.trace policy llm json_loads tools fuel
            (ConversationAgent.start enhanced_query query sid)).
Proof.
  eapply Forall_impl.
  - apply (conversation_trace_Forall policy llm json_loads tools _
             (conversation_step_proposed policy llm json_loads tools) fuel).
    split; [apply conversation_start_wf|apply conversation_start_proposed].
  - intros c [_ [Hk _]]. exact Hk.
Qed.

(** X7.  What [process] reads from the state [app.invoke] returns,
    whatever the model, the decoder and the tools do.  In the
    conversation loop the outcome is an [AgentFinish], so reading
    [result[agent_outcome].return_values[output]] gives its text: a run
    long enough to spend the budget is ended by the recursion limit
    first.  In the extraction loop the outcome is an [AgentFinish], or
    the budget of 5 is spent and the outcome is still the tool call the
    model proposed last, on which the read raises AttributeError. *)
Theorem what_process_reads
    (policy : nat -> string -> list (AgentAction * string) -> PolicyReply)
    (llm : nat -> Prompt -> option Message)
    (json_loads : string -> option Value) (tools : list Tool) :
  (forall enhanced_query query sid st,
     ConversationAgent.app_invoke policy llm json_loads tools
       (ConversationAgent.start enhanced_query query sid)
     = ConversationAgent.Finished st ->
     exists f, ConversationAgent.agent_outcome st = Some (Finish f)
               /\ ConversationAgent.process_output st = Ok (output f))
  /\ (forall query sid st,
        ExtractionAgent.app_invoke policy json_loads tools (ExtractionAgent.start query sid)
        = ExtractionAgent.Finished st ->
        (exists f, ExtractionAgent.agent_outcome st = Some (Finish f)
                   /\ ExtractionAgent.process_output st = Ok (output f))
        \/ (ExtractionAgent.step_counter st = 5
            /\ (exists a, ExtractionAgent.agent_outcome st = Some (Action a))
            /\ ExtractionAgent.process_output st = Raise AttributeError)).
Proof.
  split.
  - intros enhanced_query query sid st H.
    destruct (conversation_invoke_finished policy llm json_loads tools _ _ _ _ H)
      as [_ Hf].
    unfold ConversationAgent.process_output.
    destruct (ConversationAgent.agent_outcome st) as [[a|f]|]; try discriminate.
    exists f. auto.
  - intros query sid st H.
    destruct (extraction_invoke_from_end policy json_loads tools (fun _ => True)
                (fun _ _ _ _ => I) _ _ _ I (extraction_start_wf query sid) I H)
      as (c_end & _ & Hwf & Hp & <-).
    unfold ExtractionAgent.wf in Hwf. rewrite Hp in Hwf.
    destruct Hwf as (Hk & Hs & Ho).
    unfold ExtractionAgent.process_output.
    destruct (ExtractionAgent.agent_outcome (ExtractionAgent.state c_end))
      as [[a|f]|] eqn:Eo; [|left; eauto|congruence].
    right. destruct Hs as [Hs|Hs]; [rewrite Eo in Hs; discriminate|].
    split; [exact Hs|]. split; [eauto|reflexivity].
Qed.

End Loops.

(** ** Recovery from output that cannot be parsed *)

Section Recovery.
Import Py Agent.

Lemma text_append_cons (x : ascii) (a b : string) :
  String x a +:+ b = String x (a +:+ b).
Proof. reflexivity. Qed.

Lemma text_append_nil (b : string) : EmptyString +:+ b = b.
Proof. reflexivity. Qed.

Lemma text_append_assoc (a b c : string) : (a +:+ b) +:+ c = a +:+ (b +:+ c).
Proof.
  induction a as [|x a IH]; [reflexivity|].
  rewrite !text_append_cons, IH. reflexivity.
Qed.

Lemma text_append_empty (a : string) : a +:+ EmptyString = a.
Proof.
  induction a as [|x a IH]; [reflexivity|].
  rewrite text_append_cons, IH. reflexivity.
Qed.

Lemma text_length_append (a b : string) :
  String.length (a +:+ b) = (String.length a + String.length b)%nat.
Proof.
  induction a as [|x a IH]; [reflexivity|].
  rewrite text_append_cons. simpl. rewrite IH. reflexivity.
Qed.

Lemma text_take_append (a b : string) : Text.take (String.length a) (a +:+ b) = a.
Proof.
  induction a as [|x a IH]; [destruct b; reflexivity|].
  rewrite text_append_cons. simpl. unfold Text.take; fold Text.take.
  rewrite IH. reflexivity.
Qed.

(** the text read between [pre +:+ s] and its suffix [s] is [pre] *)
Lemma text_take_read (pre s : string) :
  Text.take (String.length (pre +:+ s) - String.length s) (pre +:+ s) = pre.
Proof.
  rewrite text_length_append.
  replace (String.length pre + String.length s - String.length s)%nat
    with (String.length pre) by lia.
  apply text_take_append.
Qed.

(** A literal matches exactly when the text starts with it. *)
Lemma exec_Lit {R} (l : string) : forall s cap (k : string -> option string -> option R),
  Re.exec (Re.Lit l) s cap k
  = if Text.starts_with l s then k (Text.drop (String.length l) s) cap else None.
Proof.
  induction l as [|a l IH]; intros s cap k; simpl; [reflexivity|].
  destruct s as [|c s]; [reflexivity|].
  destruct (Ascii.eqb a c); [apply IH|reflexivity].
Qed.

(** A greedy loop over one character class, followed by something that
    cannot fail, reads all the leading characters of the class. *)
Lemma iterate_greedy_class {R} (p : ascii -> bool)
    (k : string -> option string -> option R) cap :
  (forall s, k s cap <> None) ->
  forall s, Re.iterate true (@Re.exec (Re.Set_ p) R) k (String.length s) s cap
            = k (Text.lstrip_by p s) cap.
Proof.
  intros Hk. induction s as [|c s IH]; simpl; [reflexivity|].
  destruct (p c); [|reflexivity].
  destruct (Nat.ltb_spec (String.length s) (S (String.length s))) as [_|H]; [|lia].
  simpl in IH. rewrite IH. destruct (k (Text.lstrip_by p s) cap) eqn:E; [reflexivity|].
  exfalso. exact (Hk _ E).
Qed.

(** A lazy loop over any character stops at the first place where what
    follows matches. *)
Lemma iterate_lazy_any {R} (k : string -> option string -> option R) cap :
  forall s, Re.iterate false (@Re.exec Re.AnyChar R) k (String.length s) s cap
            = Re.first_success k s cap.
Proof.
  induction s as [|c s IH]; simpl.
  - destruct (k EmptyString cap); reflexivity.
  - destruct (Nat.ltb_spec (String.length s) (S (String.length s))) as [_|H]; [|lia].
    simpl in IH. rewrite IH. destruct (k (String c s) cap); reflexivity.
Qed.

Lemma is_newline_code (c : ascii) :
  Ascii.eqb (ascii_of_nat 10) c = Nat.eqb (Text.code c) 10.
Proof. destruct c as [[] [] [] [] [] [] [] []]; reflexivity. Qed.

Lemma exec_segment_end {R} s cap (k : string -> option string -> option R) :
  Re.exec ConversationAgent.segment_end s cap k
  = match s with
    | EmptyString => k EmptyString cap
    | String c s' =>
        if Nat.eqb (Text.code c) 10
        then Re.orelse (k s' cap)
                       (match s' with EmptyString => k s cap | _ => None end)
        else None
    end.
Proof.
  unfold ConversationAgent.segment_end. cbn [Re.exec]. rewrite exec_Lit.
  destruct s as [|c s']; [reflexivity|].
  cbn [Text.starts_with Text.newline]. rewrite is_newline_code.
  destruct (Nat.eqb (Text.code c) 10); [reflexivity|].
  destruct s'; reflexivity.
Qed.

(** Read lazily up to the end of the segment, the group is the first
    line of the text. *)
Lemma first_line_found {R} (k : string -> option string -> option R)
    (group_of : R -> option string) :
  (forall s cap, exists r, k s cap = Some r /\ group_of r = cap) ->
  forall s pre cap,
    option_map group_of
      (Re.first_success
         (fun s2 _ =>
            Re.exec ConversationAgent.segment_end s2
              (Some (Text.take (String.length (pre +:+ s) - String.length s2) (pre +:+ s)))
              k)
         s cap)
    = Some (Some (pre +:+ Text.first_line s)).
Proof.
  intros Hk. induction s as [|c s IH]; intros pre cap; cbn [Re.first_success].
  - rewrite exec_segment_end.
    destruct (Hk EmptyString
                (Some (Text.take (String.length (pre +:+ EmptyString)
                                  - String.length EmptyString) (pre +:+ EmptyString))))
      as (r & -> & Hr).
    simpl. rewrite Hr, text_take_read, text_append_empty. reflexivity.
  - rewrite exec_segment_end. cbn [Text.first_line].
    destruct (Nat.eqb (Text.code c) 10).
    + destruct (Hk s (Some (Text.take (String.length (pre +:+ String c s)
                                       - String.length (String c s)) (pre +:+ String c s))))
        as (r & -> & Hr).
      simpl. rewrite Hr, text_take_read, text_append_empty. reflexivity.
    + specialize (IH (pre +:+ String c EmptyString) cap).
      rewrite !text_append_assoc, !text_append_cons, !text_append_nil in IH.
      exact IH.
Qed.

Lemma labelled_segment {R} (k : string -> option string -> option R)
    (group_of : R -> option string) :
  (forall s cap, exists r, k s cap = Some r /\ group_of r = cap) ->
  forall s cap,
    option_map group_of
      (Re.exec (Re.Seq (Re.Group (Re.Star false Re.AnyChar)) ConversationAgent.segment_end)
               s cap k)
    = Some (Some (Text.first_line s)).
Proof.
  intros Hk s cap. cbn [Re.exec]. rewrite iterate_lazy_any.
  exact (first_line_found k group_of Hk s EmptyString cap).
Qed.

(** The pattern of the final answer matches where the text starts with
    the label; its group is the first line of what follows the label and
    the blanks after it. *)
Lemma final_answer_match_at s :
  option_map Re.group1 (Re.match_at ConversationAgent.final_answer_pattern s)
  = if Text.starts_with "Final Answer:" s
    then Some (Some (Text.first_line
                       (Text.lstrip_by Text.is_space
                          (Text.drop (String.length "Final Answer:") s))))
    else None.
Proof.
  unfold Re.match_at, ConversationAgent.final_answer_pattern.
  cbn [Re.exec]. rewrite exec_Lit.
  destruct (Text.starts_with "Final Answer:" s); [|reflexivity].
  set (k := fun (s1 : string) (cap : option string) =>
              Some {| Re.whole := Text.take (String.length s - String.length s1) s;
                      Re.group1 := cap; Re.rest := s1 |}).
  assert (Hk : forall s1 cap, exists r, k s1 cap = Some r /\ Re.group1 r = cap).
  { intros s1 cap. eexists. split; reflexivity. }
  unfold ConversationAgent.space.
  rewrite (iterate_greedy_class Text.is_space
             (fun s1 cap1 =>
                Re.exec (Re.Seq (Re.Group (Re.Star false Re.AnyChar))
                                ConversationAgent.segment_end) s1 cap1 k) None).
  - apply (labelled_segment k Re.group1 Hk).
  - intros s1 E.
    pose proof (labelled_segment k Re.group1 Hk s1 None) as H.
    rewrite E in H. discriminate.
Qed.

Lemma final_answer_search s :
  option_map Re.group1 (Re.search ConversationAgent.final_answer_pattern s)
  = option_map (fun after => Some (Text.first_line (Text.lstrip_by Text.is_space after)))
               (Text.find_after "Final Answer:" s).
Proof.
  induction s as [|c s IH].
  - reflexivity.
  - cbn [Re.search Text.find_after].
    pose proof (final_answer_match_at (String c s)) as H.
    destruct (Text.starts_with "Final Answer:" (String c s)).
    + destruct (Re.match_at ConversationAgent.final_answer_pattern (String c s));
        [exact H|discriminate].
    + destruct (Re.match_at ConversationAgent.final_answer_pattern (String c s));
        [discriminate|exact IH].
Qed.

(** C3, as stated, fails.  In the extraction loop the text of the final
    answer is the raw text: a labelled final answer is not singled out,
    and a blank text is not replaced by an apology.  In the conversation
    loop a labelled final answer of two lines is cut to its first line. *)
Lemma C3_counterexample :
  ExtractionAgent.recover
    ("Could not parse LLM output: Thought: done" +:+ Text.newline +:+ "Final Answer: 42")
  = {| output := "Thought: done" +:+ Text.newline +:+ "Final Answer: 42";
       finish_log := "Thought: done" +:+ Text.newline +:+ "Final Answer: 42" |}
  /\ ExtractionAgent.recover "Could not parse LLM output: "
     = {| output := EmptyString; finish_log := EmptyString |}
  /\ ConversationAgent.recover
       ("Could not parse LLM output: Final Answer: line one" +:+ Text.newline +:+ "line two")
     = {| output := "line one"; finish_log := "line one" |}.
Proof. vm_compute. repeat split. Qed.

Lemma parse_apology_not_blank :
  String.eqb (Text.strip ConversationAgent.parse_apology) EmptyString = false.
Proof. vm_compute. reflexivity. Qed.

(** C3, amended.  When the parser of the model's output fails with the
    message [error_text], the reasoning step of either loop returns a
    final answer and never an error.  With [text] the trimmed text after
    the last marker Could not parse LLM output: the answer of the
    conversation loop is
      - the first line of what follows the first label Final Answer: and
        the blanks after it, trimmed, when the label occurs in [text];
      - else [text] itself when it has none of the labels Thought:,
        Action:, Action Input:, Observation:;
      - else [text] with the four kinds of labelled segment removed;
    and the fixed apology whenever that is blank, so that it is never
    blank.  The answer of the extraction loop is [text] as it is, blank or
    not, with no label looked for. *)
Theorem C3_parse_failure_recovery
    (policy : nat -> string -> list (AgentAction * string) -> PolicyReply)
    (now : nat) (error_text : string)
    (cst : ConversationAgent.State) (est : ExtractionAgent.State) :
  let text := Text.strip (Text.split_last "Could not parse LLM output:" error_text) in
  let or_apology candidate :=
    if String.eqb (Text.strip candidate) EmptyString
    then ConversationAgent.parse_apology else candidate in
  (policy now (ConversationAgent.input cst) (ConversationAgent.intermediate_steps cst)
     = OutputParserException error_text ->
   ConversationAgent._reason_node policy now cst
   = Ok (cst, [ConversationAgent.W_agent_outcome
                 (Some (Finish (ConversationAgent.recover error_text)))]))
  /\ (policy now (ExtractionAgent.input est) (ExtractionAgent.intermediate_steps est)
        = OutputParserException error_text ->
      ExtractionAgent._reason_node policy now est
      = Ok (est, [ExtractionAgent.W_agent_outcome
                    (Some (Finish (ExtractionAgent.recover error_text)))]))
  /\ output (ConversationAgent.recover error_text)
     = match Text.find_after "Final Answer:" text with
       | Some after =>
           or_apology (Text.strip (Text.first_line (Text.lstrip_by Text.is_space after)))
       | None =>
           match Re.search ConversationAgent.label_pattern text with
           | None => or_apology text
           | Some _ =>
               or_apology
                 (Re.remove_all ConversationAgent.observation_pattern
                   (Re.remove_all ConversationAgent.action_input_pattern
                     (Re.remove_all ConversationAgent.action_pattern
                       (Re.remove_all ConversationAgent.thought_pattern text))))
           end
       end
  /\ String.eqb (Text.strip (output (ConversationAgent.recover error_text))) EmptyString
     = false
  /\ finish_log (ConversationAgent.recover error_text)
     = output (ConversationAgent.recover error_text)
  /\ ExtractionAgent.recover error_text = {| output := text; finish_log := text |}.
Proof.
  cbv zeta. split; [|split; [|split; [|split; [|split]]]].
  - intros H. unfold ConversationAgent._reason_node. rewrite H. reflexivity.
  - intros H. unfold ExtractionAgent._reason_node. rewrite H. reflexivity.
  - unfold ConversationAgent.recover. cbn [output].
    pose proof (final_answer_search
                  (Text.strip (Text.split_last "Could not parse LLM output:" error_text)))
      as H.
    destruct (Re.search ConversationAgent.final_answer_pattern _) as [m|];
      destruct (Text.find_after "Final Answer:" _) as [after|];
      simpl in H; try discriminate.
    + injection H as H. unfold ConversationAgent.group_or. rewrite H. reflexivity.
    + destruct (Re.search ConversationAgent.label_pattern _); reflexivity.
  - unfold ConversationAgent.recover. cbn [output].
    match goal with
    | |- context [if String.eqb (Text.strip ?x) EmptyString then _ else _] =>
        destruct (String.eqb (Text.strip x) EmptyString) eqn:E
    end.
    + apply parse_apology_not_blank.
    + exact E.
  - reflexivity.
  - reflexivity.
Qed.

End Recovery.

(** ** Texts, searches and matches *)

Section TextLemmas.
Import Words.

Lemma search_found_later (r : Re.regex) (s : string) :
  Re.match_at r s <> None -> forall pre, Re.search r (pre +:+ s) <> None.
Proof.
  intros H. induction pre as [|c pre IH].
  - rewrite text_append_nil. destruct s; simpl; destruct (Re.match_at r _); congruence.
  - rewrite text_append_cons. simpl.
    destruct (Re.match_at r (String c (pre +:+ s))); [discriminate|exact IH].
Qed.

Lemma search_found_where (r : Re.regex) : forall s,
  Re.search r s <> None ->
  exists pre s2, s = pre +:+ s2 /\ Re.match_at r s2 <> None.
Proof.
  induction s as [|c s IH]; simpl.
  - destruct (Re.match_at r EmptyString) eqn:E; [|congruence].
    intros _. exists EmptyString, EmptyString. split; [reflexivity|congruence].
  - destruct (Re.match_at r (String c s)) eqn:E.
    + intros _. exists EmptyString, (String c s). split; [reflexivity|congruence].
    + intros H. destruct (IH H) as (pre & s2 & -> & H2).
      exists (String c pre), s2. split; [reflexivity|exact H2].
Qed.

Lemma starts_with_append (l s : string) : Text.starts_with l (l +:+ s) = true.
Proof.
  induction l as [|a l IH]; [reflexivity|].
  rewrite text_append_cons. simpl. rewrite Ascii.eqb_refl. exact IH.
Qed.

Lemma starts_with_split (l : string) : forall s,
  Text.starts_with l s = true -> s = l +:+ Text.drop (String.length l) s.
Proof.
  induction l as [|a l IH]; intros s; simpl; [reflexivity|].
  destruct s as [|c s]; [discriminate|].
  destruct (Ascii.eqb_spec a c) as [->|]; [|discriminate].
  intros H. rewrite text_append_cons. f_equal. exact (IH s H).
Qed.

Lemma drop_append (l s : string) : Text.drop (String.length l) (l +:+ s) = s.
Proof.
  induction l as [|a l IH]; [destruct s; reflexivity|].
  rewrite text_append_cons. simpl. exact IH.
Qed.

(** a greedy loop over a character class succeeds exactly when what
    follows succeeds after some leading characters of the class *)
Lemma iterate_greedy_class_found {R} (p : ascii -> bool)
    (k : string -> option string -> option R) cap : forall s,
  Re.iterate true (@Re.exec (Re.Set_ p) R) k (String.length s) s cap <> None
  <-> exists mid rest, s = mid +:+ rest /\ all_chars p mid = true /\ k rest cap <> None.
Proof.
  induction s as [|c s IH]; simpl.
  - split.
    + intros H. exists EmptyString, EmptyString. auto.
    + intros (mid & rest & E & _ & H).
      destruct mid; [|discriminate]. rewrite text_append_nil in E. subst rest. exact H.
  - destruct (Nat.ltb_spec (String.length s) (S (String.length s))) as [_|H]; [|lia].
    simpl in IH. split.
    + intros H. destruct (p c) eqn:Ep.
      * destruct (Re.iterate true _ k (String.length s) s cap) eqn:Ei.
        -- destruct (proj1 IH) as (mid & rest & -> & Hm & Hk); [congruence|].
           exists (String c mid), rest. simpl. rewrite Ep, Hm. auto.
        -- exists EmptyString, (String c s). auto.
      * exists EmptyString, (String c s). auto.
    + intros (mid & rest & E & Hm & Hk).
      destruct mid as [|d mid].
      * rewrite text_append_nil in E. subst rest.
        destruct (p c); [|exact Hk].
        destruct (Re.iterate true _ k (String.length s) s cap); [discriminate|exact Hk].
      * rewrite text_append_cons in E. injection E as <- ->.
        simpl in Hm. apply andb_prop in Hm. destruct Hm as [Hc Hm]. rewrite Hc.
        assert (Hi : Re.iterate true (@Re.exec (Re.Set_ p) R) k
                       (String.length (mid +:+ rest)) (mid +:+ rest) cap <> None).
        { apply IH. exists mid, rest. auto. }
        simpl in Hi.
        destruct (Re.iterate true _ k _ (mid +:+ rest) cap); [discriminate|congruence].
Qed.

Lemma contains_append_l text a s :
  Words.contains text s -> Words.contains text (a +:+ s).
Proof.
  intros (pre & post & ->). exists (a +:+ pre), post.
  rewrite text_append_assoc. reflexivity.
Qed.

Lemma contains_append_r text s b :
  Words.contains text s -> Words.contains text (s +:+ b).
Proof.
  intros (pre & post & ->). exists pre, (post +:+ b).
  rewrite !text_append_assoc. reflexivity.
Qed.

Lemma contains_refl text : Words.contains text text.
Proof.
  exists EmptyString, EmptyString.
  rewrite text_append_nil, text_append_empty. reflexivity.
Qed.

(** [r+] over one character class, followed by something that cannot
    fail: one character of the class, then all that follow *)
Lemma exec_Plus_class {R} (p : ascii -> bool)
    (k : string -> option string -> option R) cap :
  (forall s, k s cap <> None) ->
  forall s, Re.exec (Re.Plus (Re.Set_ p)) s cap k
            = match s with
              | String c t => if p c then k (Text.lstrip_by p t) cap else None
              | EmptyString => None
              end.
Proof.
  intros Hk s. unfold Re.Plus. cbn [Re.exec].
  destruct s as [|c t]; [reflexivity|].
  destruct (p c); [|reflexivity].
  apply (iterate_greedy_class p k cap Hk t).
Qed.

Lemma lstrip_by_split (p : ascii -> bool) : forall t,
  exists mid, t = mid +:+ Text.lstrip_by p t /\ all_chars p mid = true.
Proof.
  induction t as [|c t IH]; simpl.
  - exists EmptyString. auto.
  - destruct (p c) eqn:Ep.
    + destruct IH as (mid & Ht & Hm). exists (String c mid).
      rewrite text_append_cons, <- Ht. simpl. rewrite Ep, Hm. auto.
    + exists EmptyString. auto.
Qed.


Lemma lstrip_by_append (p : ascii -> bool) (tail : string) :
  Text.lstrip_by p tail = tail ->
  forall t, Text.lstrip_by p (t +:+ tail) = Text.lstrip_by p t +:+ tail.
Proof.
  intros Htail. induction t as [|c t IH].
  - rewrite text_append_nil. exact Htail.
  - rewrite text_append_cons. simpl. destruct (p c); [exact IH|].
    rewrite text_append_cons. reflexivity.
Qed.

Lemma lstrip_by_length (p : ascii -> bool) : forall t,
  (String.length (Text.lstrip_by p t) <= String.length t)%nat.
Proof.
  induction t as [|c t IH]; simpl; [lia|]. destruct (p c); simpl; lia.
Qed.

(** a match of [l] followed by [r+] over a class: [l], one character of
    the class and all that follow *)
Lemma match_at_Lit_Plus (l : string) (p : ascii -> bool) (s : string) :
  Re.match_at (Re.Seq (Re.Lit l) (Re.Plus (Re.Set_ p))) s
  = if Text.starts_with l s
    then match Text.drop (String.length l) s with
         | String c t =>
             if p c
             then Some {| Re.whole := Text.take (String.length s
                                                 - String.length (Text.lstrip_by p t)) s;
                          Re.group1 := None;
                          Re.rest := Text.lstrip_by p t |}
             else None
         | EmptyString => None
         end
    else None.
Proof.
  unfold Re.match_at. cbn [Re.exec]. rewrite exec_Lit.
  destruct (Text.starts_with l s); [|reflexivity].
  rewrite exec_Plus_class by discriminate. reflexivity.
Qed.

Lemma match_at_Lit_Plus_whole (l : string) (p : ascii -> bool) (s : string) m :
  Re.match_at (Re.Seq (Re.Lit l) (Re.Plus (Re.Set_ p))) s = Some m ->
  s = Re.whole m +:+ Re.rest m
  /\ exists body, Re.whole m = l +:+ body /\ body <> EmptyString
                  /\ all_chars p body = true.
Proof.
  rewrite match_at_Lit_Plus.
  destruct (Text.starts_with l s) eqn:El; [|discriminate].
  pose proof (starts_with_split l s El) as Hs.
  destruct (Text.drop (String.length l) s) as [|c t] eqn:Ed; [discriminate|].
  destruct (p c) eqn:Ep; [|discriminate].
  intros [= <-]. simpl.
  destruct (lstrip_by_split p t) as (mid & Ht & Hm).
  assert (Hs' : s = (l +:+ String c mid) +:+ Text.lstrip_by p t).
  { rewrite Hs, text_append_assoc, text_append_cons, <- Ht. reflexivity. }
  assert (Hw : Text.take (String.length s - String.length (Text.lstrip_by p t)) s
               = l +:+ String c mid).
  { rewrite Hs' at 1 2. apply text_take_read. }
  rewrite Hw. split; [exact Hs'|].
  exists (String c mid). split; [reflexivity|]. split; [discriminate|].
  simpl. rewrite Ep, Hm. reflexivity.
Qed.

End TextLemmas.

(** ** What the fallback routing looks for *)

Section Keywords.
Import Agent Words.

Lemma match_at_Lit_found (l s : string) :
  Re.match_at (Re.Lit l) s <> None <-> exists post, s = l +:+ post.
Proof.
  unfold Re.match_at. rewrite exec_Lit. split.
  - destruct (Text.starts_with l s) eqn:E; [|congruence].
    intros _. eexists. apply starts_with_split. exact E.
  - intros [post ->]. rewrite starts_with_append. discriminate.
Qed.

Lemma search_Lit_found (l s : string) :
  Routing.found s (Re.Lit l) = true <-> contains l s.
Proof.
  unfold Routing.found, contains. split.
  - destruct (Re.search (Re.Lit l) s) eqn:E; [|discriminate]. intros _.
    destruct (search_found_where (Re.Lit l) s) as (pre & s2 & -> & H); [congruence|].
    apply match_at_Lit_found in H. destruct H as [post ->]. eauto.
  - intros (pre & post & ->).
    destruct (Re.search (Re.Lit l) (pre +:+ l +:+ post)) eqn:E; [reflexivity|].
    exfalso. refine (search_found_later _ _ _ pre E).
    apply match_at_Lit_found. eauto.
Qed.

Lemma search_Lit_Opt_found (l : string) (r : Re.regex) (s : string) :
  Routing.found s (Re.Seq (Re.Lit l) (Re.Opt r)) = true <-> contains l s.
Proof.
  assert (Hat : forall s2, Re.match_at (Re.Seq (Re.Lit l) (Re.Opt r)) s2 <> None
                           <-> exists post, s2 = l +:+ post).
  { intros s2. unfold Re.match_at, Re.Opt. cbn [Re.exec]. rewrite exec_Lit. split.
    - destruct (Text.starts_with l s2) eqn:E; [|congruence].
      intros _. eexists. apply starts_with_split. exact E.
    - intros [post ->]. rewrite starts_with_append.
      destruct (Re.exec r _ _ _); discriminate. }
  unfold Routing.found, contains. split.
  - destruct (Re.search _ s) eqn:E; [|discriminate]. intros _.
    destruct (search_found_where _ s ltac:(rewrite E; discriminate))
      as (pre & s2 & -> & H).
    apply Hat in H. destruct H as [post ->]. eauto.
  - intros (pre & post & ->).
    destruct (Re.search _ (pre +:+ l +:+ post)) eqn:E; [reflexivity|].
    exfalso. refine (search_found_later _ _ _ pre E). apply Hat. eauto.
Qed.

Lemma search_Lit_then_found (l1 l2 s : string) :
  Routing.found s (Re.Seq (Re.Lit l1) (Re.Seq (Re.Star true Re.Dot) (Re.Lit l2))) = true
  <-> contains_then l1 l2 s.
Proof.
  assert (Hat : forall s2,
            Re.match_at (Re.Seq (Re.Lit l1) (Re.Seq (Re.Star true Re.Dot) (Re.Lit l2))) s2
            <> None
            <-> exists mid post,
                  s2 = l1 +:+ mid +:+ l2 +:+ post
                  /\ all_chars (fun c => negb (Nat.eqb (Text.code c) 10)) mid = true).
  { intros s2. unfold Re.match_at. cbn [Re.exec]. rewrite exec_Lit. split.
    - destruct (Text.starts_with l1 s2) eqn:E; [|congruence].
      intros H. apply iterate_greedy_class_found in H.
      destruct H as (mid & rest & Hs & Hm & Hk).
      rewrite exec_Lit in Hk.
      destruct (Text.starts_with l2 rest) eqn:E2; [|congruence].
      exists mid, (Text.drop (String.length l2) rest). split; [|exact Hm].
      rewrite <- (starts_with_split l2 rest E2), <- Hs.
      apply starts_with_split. exact E.
    - intros (mid & post & -> & Hm). rewrite starts_with_append, drop_append.
      apply iterate_greedy_class_found. exists mid, (l2 +:+ post).
      split; [reflexivity|]. split; [exact Hm|].
      rewrite exec_Lit, starts_with_append. discriminate. }
  unfold Routing.found, contains_then. split.
  - destruct (Re.search _ s) eqn:E; [|discriminate]. intros _.
    destruct (search_found_where _ s ltac:(rewrite E; discriminate))
      as (pre & s2 & -> & H).
    apply Hat in H. destruct H as (mid & post & -> & Hm). eauto.
  - intros (pre & mid & post & -> & Hm).
    destruct (Re.search _ (pre +:+ l1 +:+ mid +:+ l2 +:+ post)) eqn:E; [reflexivity|].
    exfalso. refine (search_found_later _ _ _ pre E). apply Hat. eauto.
Qed.

Lemma any_extraction_pattern_words (query : string) :
  Routing.any_extraction_pattern query = true <-> asks_for_extraction (Text.lower query).
Proof.
  unfold Routing.any_extraction_pattern, Routing.extraction_patterns, asks_for_extraction.
  set (s := Text.lower query). cbn [existsb].
  rewrite !orb_true_iff.
  rewrite (search_Lit_Opt_found "extract"), !search_Lit_found, !search_Lit_then_found.
  unfold keywords. split.
  - intros [H|[H|[H|[H|[H|[H|[H|[H|[H|[H|H]]]]]]]]]]; try discriminate;
      try (left; eexists; split; [|exact H]; simpl; tauto); auto.
  - intros [(kw & Hin & H)|[H|H]]; [|tauto|tauto].
    simpl in Hin.
    destruct Hin as [<-|[<-|[<-|[<-|[<-|[<-|[<-|[<-|[]]]]]]]]]; tauto.
Qed.

(** X9.  What the fallback routing decides by.  [_fallback_routing]
    answers extraction exactly when the lower-cased query contains one of
    the words extract, get content, pull files, .git, github.com,
    repository, folder, directory, or contains fetch and later on the same
    line content, or get and later on the same line files from; it
    answers conversation otherwise.  When the call of the classifier
    fails, this is what selects the agent. *)
Theorem fallback_routing_by_words (llm : Prompt -> option Message) (query : string) :
  (Coordinator._fallback_routing query = "extraction"
   <-> asks_for_extraction (Text.lower query))
  /\ (Coordinator._fallback_routing query = "conversation"
      <-> ~ asks_for_extraction (Text.lower query))
  /\ (llm (RoutingPrompt query) = None ->
      (Coordinator.selected_agent llm query = "extraction_agent"
       <-> asks_for_extraction (Text.lower query))).
Proof.
  rewrite <- any_extraction_pattern_words.
  assert (Hf := fallback_routing_by_pattern query).
  split; [|split].
  - rewrite Hf. destruct (Routing.any_extraction_pattern query); split; congruence.
  - rewrite Hf. destruct (Routing.any_extraction_pattern query); split;
      congruence.
  - intros Hllm. unfold Coordinator.selected_agent, Coordinator._classify_query.
    rewrite Hllm, Hf.
    destruct (Routing.any_extraction_pattern query); simpl; split; congruence.
Qed.
End Keywords.

(** ** The tools of each loop *)

Section ToolSets.
Import Py Agent.

(** looking a name up among the tools a name test selects *)
Lemma tool_map_get_filter (p : string -> bool) tool_name tools :
  tool_map_get tool_name (List.filter (fun t => p (name t)) tools)
  = if p tool_name then tool_map_get tool_name tools else None.
Proof.
  induction tools as [|t rest IH]; simpl; [destruct (p tool_name); reflexivity|].
  destruct (p (name t)) eqn:Ept; simpl; rewrite IH.
  - destruct (p tool_name) eqn:Epn; [reflexivity|].
    destruct (String.eqb_spec (name t) tool_name) as [E|_]; [congruence|reflexivity].
  - destruct (p tool_name) eqn:Epn; [|reflexivity].
    destruct (tool_map_get tool_name rest); [reflexivity|].
    destruct (String.eqb_spec (name t) tool_name) as [E|_]; [congruence|reflexivity].
Qed.

(** X8.  Each loop keeps to its own tools, whatever list of tools the
    agents are built with.  A name looked up among the conversation tools
    is found exactly when it is found among all tools and is neither of
    the two extraction names; among the extraction tools, exactly when it
    is one of the two.  So the act node of the conversation loop answers
    an action that names an extraction tool with its not-found
    observation and invokes nothing, even when that tool is registered,
    and the act node of the extraction loop does the same for every other
    name. *)
Theorem loops_keep_to_their_tools
    (json_loads : string -> option Value) (tools : list Tool)
    (now : nat) (a : AgentAction) :
  let for_extraction :=
    existsb (String.eqb (tool a)) ["extract_content_local"; "extract_git_content"] in
  tool_map_get (tool a) (ConversationAgent.conversation_tools tools)
  = (if for_extraction then None else tool_map_get (tool a) tools)
  /\ tool_map_get (tool a) (ExtractionAgent.extraction_tools tools)
     = (if for_extraction then tool_map_get (tool a) tools else None)
  /\ (forall st,
        for_extraction = true ->
        ConversationAgent.agent_outcome st = Some (Action a) ->
        let st' := ConversationAgent.set_step_counter
                     (ConversationAgent.step_counter st + 1) st in
        ConversationAgent._act_node json_loads tools now st
        = Ok (st', [ConversationAgent.W_intermediate_steps
                      [(a, ConversationAgent.not_found tools (tool a))];
                    ConversationAgent.W_step_counter
                      (ConversationAgent.step_counter st + 1)]))
  /\ (forall st,
        for_extraction = false ->
        ExtractionAgent.agent_outcome st = Some (Action a) ->
        let st' := ExtractionAgent.set_step_counter
                     (ExtractionAgent.step_counter st + 1) st in
        ExtractionAgent._act_node json_loads tools now st
        = Ok (st', [ExtractionAgent.W_intermediate_steps
                      [(a, ExtractionAgent.not_found (tool a))];
                    ExtractionAgent.W_step_counter
                      (ExtractionAgent.step_counter st + 1)])).
Proof.
  cbv zeta.
  assert (Hc : tool_map_get (tool a) (ConversationAgent.conversation_tools tools)
               = if existsb (String.eqb (tool a))
                      ["extract_content_local"; "extract_git_content"]
                 then None else tool_map_get (tool a) tools).
  { unfold ConversationAgent.conversation_tools.
    rewrite (tool_map_get_filter
               (fun n => negb (existsb (String.eqb n)
                                 ["extract_content_local"; "extract_git_content"]))).
    destruct (existsb _ _); reflexivity. }
  assert (He : tool_map_get (tool a) (ExtractionAgent.extraction_tools tools)
               = if existsb (String.eqb (tool a))
                      ["extract_content_local"; "extract_git_content"]
                 then tool_map_get (tool a) tools else None).
  { unfold ExtractionAgent.extraction_tools.
    apply (tool_map_get_filter
             (fun n => existsb (String.eqb n)
                         ["extract_content_local"; "extract_git_content"])). }
  split; [exact Hc|]. split; [exact He|]. split.
  - intros st Hx Ho. unfold ConversationAgent._act_node. cbn. rewrite Ho.
    cbn. rewrite Hc, Hx. reflexivity.
  - intros st Hx Ho. unfold ExtractionAgent._act_node. cbn. rewrite Ho.
    cbn. rewrite He, Hx. reflexivity.
Qed.

End ToolSets.

(** ** The session: history and entities *)

Section SessionHistory.
Import Py Session Sessions.

Lemma last_items_short {A} n (xs : list A) :
  (length xs <= n)%nat -> last_items n xs = xs.
Proof.
  intros H. unfold last_items.
  replace (length xs - n)%nat with O by lia. reflexivity.
Qed.

Lemma last_items_length {A} n (xs : list A) :
  length (last_items n xs) = Nat.min n (length xs).
Proof. unfold last_items. rewrite length_skipn. lia. Qed.

(** the last [n] items of a list do not depend on what came before the
    last [n] items of a front part of it *)
Lemma skipn_app_front {A} (front rest : list A) m :
  (length front <= m)%nat -> skipn m (front ++ rest) = skipn (m - length front) rest.
Proof.
  intros H. rewrite skipn_app.
  rewrite (skipn_all2 front) by exact H. reflexivity.
Qed.

Lemma last_items_app_last_items {A} n (xs ys : list A) :
  last_items n (last_items n xs ++ ys) = last_items n (xs ++ ys).
Proof.
  destruct (le_lt_dec (length xs) n) as [Hs|Hl].
  - rewrite (last_items_short n xs Hs). reflexivity.
  - unfold last_items.
    pose proof (firstn_skipn (length xs - n) xs) as Hx.
    pose proof (length_firstn (length xs - n) xs) as Hp.
    pose proof (length_skipn (length xs - n) xs) as Ht.
    set (front := firstn (length xs - n) xs) in *.
    set (tail := skipn (length xs - n) xs) in *.
    rewrite <- Hx. rewrite <- app_assoc.
    rewrite (skipn_app_front front) by (rewrite !length_app; lia).
    f_equal. rewrite !length_app. lia.
Qed.

Lemma add_conversation_turn_history q r now1 now2 s :
  conversation_history (add_conversation_turn q r now1 now2 s)
  = last_items 20 (conversation_history s
                   ++ [{| timestamp := now1; query := q; response := r |}]).
Proof.
  unfold add_conversation_turn. cbv zeta. simpl.
  destruct (Nat.ltb_spec 20 (length (conversation_history s ++
              [{| timestamp := now1; query := q; response := r |}]))) as [H|H]; simpl.
  - reflexivity.
  - symmetry. apply last_items_short. exact H.
Qed.

Lemma add_conversation_turns_history calls : forall s,
  conversation_history (add_conversation_turns calls s)
  = match calls with
    | [] => conversation_history s
    | _ => last_items 20 (conversation_history s ++ map turn_of calls)
    end.
Proof.
  induction calls as [|[[[q r] now1] now2] calls IH]; intros s; [reflexivity|].
  change (add_conversation_turns ((q, r, now1, now2) :: calls) s)
    with (add_conversation_turns calls (add_conversation_turn q r now1 now2 s)).
  rewrite IH, add_conversation_turn_history.
  destruct calls as [|c calls].
  - reflexivity.
  - rewrite last_items_app_last_items, <- app_assoc. reflexivity.
Qed.

(** X10.  [add_conversation_turn] keeps the last 20 turns.  After one
    or more calls on any session, the history is the last 20 items of the
    old history followed by the new turns, in their order: it has at most
    20 items, it ends the sequence of all turns, and after 20 or more
    calls it holds exactly the last 20 turns added.  The entities and the
    active task are not touched. *)
Theorem history_keeps_the_last_twenty
    (s : SessionMemory) (call : TurnCall) (calls : list TurnCall) :
  let s' := add_conversation_turns (call :: calls) s in
  conversation_history s'
  = last_items 20 (conversation_history s ++ map turn_of (call :: calls))
  /\ (length (conversation_history s') <= 20)%nat
  /\ (exists dropped,
        conversation_history s ++ map turn_of (call :: calls)
        = dropped ++ conversation_history s')
  /\ ((20 <= length (call :: calls))%nat ->
      conversation_history s' = last_items 20 (map turn_of (call :: calls)))
  /\ entities s' = entities s /\ active_task s' = active_task s.
Proof.
  cbv zeta. rewrite add_conversation_turns_history.
  split; [reflexivity|]. split; [rewrite last_items_length; lia|]. split; [|split].
  - eexists. unfold last_items. symmetry. apply firstn_skipn.
  - intros H. rewrite <- (last_items_app_last_items 20 (conversation_history s)).
    set (new := map turn_of (call :: calls)).
    assert (Hn : (20 <= length new)%nat) by (subst new; rewrite length_map; exact H).
    unfold last_items. rewrite !length_app, length_skipn.
    rewrite skipn_app.
    rewrite (skipn_all2 (skipn _ (conversation_history s))) by (rewrite length_skipn; lia).
    simpl. f_equal. rewrite length_skipn. lia.
  - generalize (call :: calls). intros l. revert s.
    induction l as [|[[[q r] now1] now2] l IH]; intros s; [auto|].
    change (add_conversation_turns ((q, r, now1, now2) :: l) s)
      with (add_conversation_turns l (add_conversation_turn q r now1 now2 s)).
    destruct (IH (add_conversation_turn q r now1 now2 s)) as [-> ->].
    unfold add_conversation_turn. cbv zeta.
    destruct (Nat.ltb 20 _); auto.
Qed.
End SessionHistory.

Section RecentEntities.
Import Py Session Sessions.

#[local] Abbreviation newer_first :=
  (fun a b : EntityInfo => last_mentioned b <= last_mentioned a).
#[local] Abbreviation mentioned_at :=
  (fun (t : Time) (e : EntityInfo) => Z.eqb (last_mentioned e) t).

Lemma insert_by_recency_perm e l : Permutation (insert_by_recency e l) (e :: l).
Proof.
  induction l as [|x l IH]; simpl; [reflexivity|].
  destruct (last_mentioned e <? last_mentioned x); [|reflexivity].
  rewrite IH. apply perm_swap.
Qed.

Lemma sorted_by_recency_perm l : Permutation (sorted_by_recency l) l.
Proof.
  induction l as [|e l IH]; simpl; [reflexivity|].
  rewrite insert_by_recency_perm, IH. reflexivity.
Qed.

Lemma insert_by_recency_sorted e l :
  StronglySorted newer_first l -> StronglySorted newer_first (insert_by_recency e l).
Proof.
  induction l as [|x l IH]; intros Hs; simpl.
  - constructor; [constructor|constructor].
  - inversion Hs as [|? ? Hl Hx]; subst.
    destruct (Z.ltb_spec (last_mentioned e) (last_mentioned x)) as [Hlt|Hge].
    + constructor; [apply IH; exact Hl|].
      rewrite insert_by_recency_perm. constructor; [lia|exact Hx].
    + constructor; [exact Hs|]. constructor; [exact Hge|].
      eapply Forall_impl; [exact Hx|]. simpl. intros a Ha. lia.
Qed.

Lemma sorted_by_recency_sorted l : StronglySorted newer_first (sorted_by_recency l).
Proof.
  induction l as [|e l IH]; simpl; [constructor|].
  apply insert_by_recency_sorted. exact IH.
Qed.

(** entities mentioned at the same time keep their order *)
Lemma insert_by_recency_stable t e l :
  List.filter (mentioned_at t) (insert_by_recency e l)
  = List.filter (mentioned_at t) (e :: l).
Proof.
  induction l as [|x l IH]; [reflexivity|].
  cbn [insert_by_recency].
  destruct (Z.ltb_spec (last_mentioned e) (last_mentioned x)) as [Hlt|Hge];
    [|reflexivity].
  cbn [List.filter] in *. rewrite IH.
  destruct (Z.eqb_spec (last_mentioned e) t), (Z.eqb_spec (last_mentioned x) t);
    try reflexivity. lia.
Qed.

Lemma sorted_by_recency_stable t l :
  List.filter (mentioned_at t) (sorted_by_recency l) = List.filter (mentioned_at t) l.
Proof.
  induction l as [|e l IH]; [reflexivity|].
  cbn [sorted_by_recency fold_right]. fold (sorted_by_recency l).
  rewrite insert_by_recency_stable. cbn [List.filter]. rewrite IH. reflexivity.
Qed.

Lemma slice_to_firstn {A} limit (xs : list A) :
  exists m, slice_to limit xs = firstn m xs
            /\ Nat.min m (length xs)
               = if 0 <=? limit then Nat.min (Z.to_nat limit) (length xs)
                 else (length xs - Z.to_nat (- limit))%nat.
Proof.
  unfold slice_to. destruct (0 <=? limit); eexists; (split; [reflexivity|lia]).
Qed.

(** X11.  [get_recent_entities] returns the head of the entities of the
    wanted type (all of them when the type is [None] or empty) arranged
    from the most to the least recently mentioned: the result followed by
    some rest is a permutation of these entities, is sorted by
    [last_mentioned] in descending order, and keeps entities mentioned at
    the same time in the order of the dict.  Its length is
    [min(limit, n)] for a limit that is not negative, and [n - |limit|]
    (or 0) for a negative one, [n] being the number of such entities. *)
Theorem recent_entities_are_the_newest
    (entity_type : option string) (limit : Z) (s : SessionMemory) :
  let recent := get_recent_entities entity_type limit s in
  (exists rest,
     Permutation (recent ++ rest) (entities_of_type entity_type s)
     /\ StronglySorted (fun a b => last_mentioned b <= last_mentioned a) (recent ++ rest)
     /\ forall t, List.filter (fun e => Z.eqb (last_mentioned e) t) (recent ++ rest)
                  = List.filter (fun e => Z.eqb (last_mentioned e) t)
                      (entities_of_type entity_type s))
  /\ length recent
     = (if 0 <=? limit
        then Nat.min (Z.to_nat limit) (length (entities_of_type entity_type s))
        else (length (entities_of_type entity_type s) - Z.to_nat (- limit))%nat)
  /\ (forall e, In e (entities_of_type entity_type s)
                <-> In e (values (entities s))
                    /\ match entity_type with
                       | Some t => t = EmptyString \/ type_ e = t
                       | None => True
                       end).
Proof.
  cbv zeta. unfold get_recent_entities. cbv zeta.
  set (candidates := entities_of_type entity_type s).
  destruct (slice_to_firstn limit (sorted_by_recency candidates)) as (m & -> & Hm).
  split; [|split].
  - exists (skipn m (sorted_by_recency candidates)). rewrite firstn_skipn.
    split; [apply sorted_by_recency_perm|].
    split; [apply sorted_by_recency_sorted|]. intros t. apply sorted_by_recency_stable.
  - rewrite length_firstn, Hm.
    rewrite (Permutation_length (sorted_by_recency_perm candidates)). reflexivity.
  - intros e. subst candidates. unfold entities_of_type.
    destruct entity_type as [t|]; [|tauto].
    destruct (String.eqb_spec t EmptyString) as [->|Hne]; [tauto|].
    rewrite filter_In. split.
    + intros [Hin Ht]. apply String.eqb_eq in Ht. auto.
    + intros [Hin [Ht|Ht]]; [contradiction|]. split; [exact Hin|].
      apply String.eqb_eq. exact Ht.
Qed.

End RecentEntities.

Section EntityDict.
Import Py Session Sessions.

Lemma dict_get_set_eq {V} key (v : V) d : dict_get key (dict_set key v d) = Some v.
Proof.
  induction d as [|[k x] d IH]; simpl.
  - rewrite String.eqb_refl. reflexivity.
  - destruct (String.eqb k key) eqn:E; simpl; rewrite E; [reflexivity|exact IH].
Qed.

Lemma dict_get_set_ne {V} key (v : V) k' d :
  k' <> key -> dict_get k' (dict_set key v d) = dict_get k' d.
Proof.
  intros Hne. induction d as [|[k x] d IH]; simpl.
  - destruct (String.eqb_spec key k'); [congruence|reflexivity].
  - destruct (String.eqb_spec k key) as [->|Hk]; simpl.
    + destruct (String.eqb_spec key k'); [congruence|reflexivity].
    + rewrite IH. reflexivity.
Qed.

Lemma keys_dict_set {V} key (v : V) d :
  keys (dict_set key v d)
  = match dict_get key d with
    | Some _ => keys d
    | None => keys d ++ [key]
    end.
Proof.
  unfold keys. induction d as [|[k x] d IH]; simpl; [reflexivity|].
  destruct (String.eqb k key) eqn:E; simpl; [reflexivity|].
  rewrite IH. destruct (dict_get key d); reflexivity.
Qed.

Lemma dict_get_keys {V} key (d : list (string * V)) :
  dict_get key d = None <-> ~ In key (keys d).
Proof.
  unfold keys. induction d as [|[k x] d IH]; simpl; [tauto|].
  destruct (String.eqb_spec k key) as [->|Hk].
  - split; [discriminate|tauto].
  - rewrite IH. tauto.
Qed.

Lemma dict_set_NoDup {V} key (v : V) d :
  NoDup (keys d) -> NoDup (keys (dict_set key v d)).
Proof.
  intros H. rewrite keys_dict_set.
  destruct (dict_get key d) eqn:E; [exact H|].
  apply dict_get_keys in E.
  apply NoDup_app. split; [exact H|]. split.
  - intros x Hx [->|[]]%list_elem_of_In. apply E. apply list_elem_of_In. exact Hx.
  - apply NoDup_singleton.
Qed.

Lemma values_dict_set {V} key (v : V) d e :
  In e (values (dict_set key v d)) -> e = v \/ In e (values d).
Proof.
  unfold values. induction d as [|[k x] d IH]; simpl.
  - intros [<-|[]]. auto.
  - destruct (String.eqb k key); simpl.
    + intros [<-|H]; auto.
    + intros [<-|H]; [auto|]. destruct (IH H); auto.
Qed.

Lemma values_dict_set_new {V} key (v : V) d : In v (values (dict_set key v d)).
Proof.
  unfold values. induction d as [|[k x] d IH]; simpl; [auto|].
  destruct (String.eqb k key); simpl; auto.
Qed.

Lemma list_to_map_dict_set key (v : EntityInfo) d :
  (list_to_map (dict_set key v d) : gmap string EntityInfo)
  = <[key := v]> (list_to_map d).
Proof.
  induction d as [|[k x] d IH]; simpl; [reflexivity|].
  destruct (String.eqb_spec k key) as [->|Hk]; simpl.
  - rewrite insert_insert_eq. reflexivity.
  - rewrite IH. apply insert_insert_ne. congruence.
Qed.

(** X13.  [add_entity] inserts or overwrites.  After the call the key
    [type:value] holds the new entity, with the clock reading as
    [last_mentioned] and the given metadata; every other key holds what it
    held; a key that was there keeps its place and the number of entities,
    a new key comes last; distinct keys stay distinct; [last_accessed] is
    the second clock reading; history and active task are untouched.  The
    dict in insertion order and the finite map of module [Session] agree
    on it. *)
Theorem add_entity_is_an_upsert
    (entity_type val : string) (meta : option (list (string * Value)))
    (now1 now2 : Time) (s : SessionMemory) :
  let key := entity_key entity_type val in
  let info := {| type_ := entity_type; value := val; last_mentioned := now1;
                 metadata := match meta with Some d => d | None => [] end |} in
  let s' := add_entity entity_type val meta now1 now2 s in
  dict_get key (entities s') = Some info
  /\ (forall k, k <> key -> dict_get k (entities s') = dict_get k (entities s))
  /\ keys (entities s')
     = match dict_get key (entities s) with
       | Some _ => keys (entities s)
       | None => keys (entities s) ++ [key]
       end
  /\ (NoDup (keys (entities s)) -> NoDup (keys (entities s')))
  /\ entity_map s' = <[key := info]> (entity_map s)
  /\ last_accessed s' = now2
  /\ conversation_history s' = conversation_history s
  /\ active_task s' = active_task s.
Proof.
  cbv zeta. unfold add_entity, entity_map. simpl.
  split; [apply dict_get_set_eq|].
  split; [intros k Hk; apply dict_get_set_ne; exact Hk|].
  split; [apply keys_dict_set|].
  split; [apply dict_set_NoDup|].
  split; [apply list_to_map_dict_set|]. auto.
Qed.

Lemma sorted_head_newest l h rest :
  sorted_by_recency l = h :: rest ->
  In h l /\ forall e, In e l -> last_mentioned e <= last_mentioned h.
Proof.
  intros H.
  pose proof (sorted_by_recency_perm l) as Hp.
  pose proof (sorted_by_recency_sorted l) as Hs.
  rewrite H in Hp, Hs. split.
  - eapply Permutation_in; [exact Hp|left; reflexivity].
  - intros e He.
    apply (Permutation_in _ (Permutation_sym Hp)) in He.
    inversion Hs as [|? ? _ Hall]; subst.
    destruct He as [<-|He]; [lia|].
    rewrite Forall_forall in Hall. apply Hall. apply list_elem_of_In. exact He.
Qed.
End EntityDict.

Section NewestFirst.
Import Py Session Sessions.

(** X12.  The entity just added is the first of the recent ones: when
    every entity of the session was mentioned before the clock reading
    [add_entity] takes, [get_recent_entities], asked with a positive limit
    for all types or for the type of the new entity, returns the new
    entity first. *)
Theorem added_entity_comes_first
    (entity_type val : string) (meta : option (list (string * Value)))
    (now1 now2 : Time) (s : SessionMemory)
    (wanted : option string) (limit : Z) :
  Forall (fun e => last_mentioned e < now1) (values (entities s)) ->
  0 < limit ->
  wanted = None \/ wanted = Some EmptyString \/ wanted = Some entity_type ->
  exists rest,
    get_recent_entities wanted limit (add_entity entity_type val meta now1 now2 s)
    = {| type_ := entity_type; value := val; last_mentioned := now1;
         metadata := match meta with Some d => d | None => [] end |} :: rest.
Proof.
  intros Hold Hlimit Hwanted.
  set (info := {| type_ := entity_type; value := val; last_mentioned := now1;
                  metadata := match meta with Some d => d | None => [] end |}).
  set (s' := add_entity entity_type val meta now1 now2 s).
  unfold get_recent_entities. cbv zeta.
  set (candidates := entities_of_type wanted s').
  assert (Hvalues : forall e, In e (values (entities s')) ->
                      e = info \/ last_mentioned e < now1).
  { intros e He. subst s'. unfold add_entity in He. simpl in He.
    apply values_dict_set in He. destruct He as [->|He]; [left; reflexivity|].
    right. rewrite Forall_forall in Hold. apply Hold. apply list_elem_of_In. exact He. }
  assert (Hnew : In info (values (entities s'))).
  { subst s'. unfold add_entity. simpl. apply values_dict_set_new. }
  assert (Hcand : In info candidates
                  /\ forall e, In e candidates -> e = info \/ last_mentioned e < now1).
  { subst candidates. unfold entities_of_type.
    destruct Hwanted as [-> | [-> | ->]]; simpl; auto.
    destruct (String.eqb_spec entity_type EmptyString); [auto|].
    split.
    - apply filter_In. split; [exact Hnew|]. simpl. apply String.eqb_refl.
    - intros e He. apply filter_In in He. apply Hvalues. tauto. }
  destruct Hcand as [Hin Hothers].
  destruct (sorted_by_recency candidates) as [|h tail] eqn:Es.
  - exfalso.
    apply (Permutation_in _ (Permutation_sym (sorted_by_recency_perm candidates))) in Hin.
    rewrite Es in Hin. exact Hin.
  - destruct (sorted_head_newest _ _ _ Es) as [Hh Hmax].
    assert (Ehead : h = info).
    { destruct (Hothers h Hh) as [->|Hlt]; [reflexivity|].
      specialize (Hmax info Hin). simpl in Hmax. lia. }
    rewrite Ehead. unfold slice_to.
    destruct (Z.leb_spec 0 limit) as [_|H]; [|lia].
    destruct (Z.to_nat limit) as [|m] eqn:Em; [lia|].
    simpl. eexists. reflexivity.
Qed.

(** the key, read up to its first colon, gives the type back *)
Lemma entity_key_cut (t1 : string) : forall t2 v1 v2,
  Text.mem_char ":" t1 = false -> Text.mem_char ":" t2 = false ->
  entity_key t1 v1 = entity_key t2 v2 -> t1 = t2 /\ v1 = v2.
Proof.
  unfold entity_key.
  induction t1 as [|a t1 IH]; intros [|b t2] v1 v2 H1 H2;
    rewrite ?text_append_cons, ?text_append_nil; intros E.
  - injection E as ->. auto.
  - injection E as <- _. cbn [Text.mem_char] in H2.
    rewrite Ascii.eqb_refl in H2. discriminate.
  - injection E as -> _. cbn [Text.mem_char] in H1.
    rewrite Ascii.eqb_refl in H1. discriminate.
  - injection E as -> E. cbn [Text.mem_char] in H1, H2. revert H1 H2.
    destruct (Ascii.eqb ":" b); [discriminate|]. intros H1 H2.
    destruct (IH t2 v1 v2 H1 H2 E) as [-> ->]. auto.
Qed.

(** X14.  Keys collide only through a colon in the type (compare C10).
    For types without a colon, as all the types the sources use are, two
    entities have the same key exactly when they have the same type and
    the same value; so adding two different such pairs, one after the
    other, leaves each under its own key. *)
Theorem entity_key_without_colon
    (t1 v1 t2 v2 : string) (meta1 meta2 : option (list (string * Value)))
    (r1 r2 r3 r4 : Time) (s : SessionMemory) :
  Text.mem_char ":" t1 = false ->
  Text.mem_char ":" t2 = false ->
  (entity_key t1 v1 = entity_key t2 v2 <-> t1 = t2 /\ v1 = v2)
  /\ ((t1, v1) <> (t2, v2) ->
      let s' := add_entity t2 v2 meta2 r3 r4 (add_entity t1 v1 meta1 r1 r2 s) in
      dict_get (entity_key t1 v1) (entities s')
      = Some {| type_ := t1; value := v1; last_mentioned := r1;
                metadata := match meta1 with Some d => d | None => [] end |}
      /\ dict_get (entity_key t2 v2) (entities s')
         = Some {| type_ := t2; value := v2; last_mentioned := r3;
                   metadata := match meta2 with Some d => d | None => [] end |}).
Proof.
  intros H1 H2.
  assert (Hkey : entity_key t1 v1 = entity_key t2 v2 <-> t1 = t2 /\ v1 = v2).
  { split; [apply entity_key_cut; assumption|]. intros [-> ->]. reflexivity. }
  split; [exact Hkey|].
  intros Hne. cbv zeta. unfold add_entity. simpl. split.
  - rewrite dict_get_set_ne; [apply dict_get_set_eq|].
    intros E. apply Hkey in E. destruct E as [-> ->]. congruence.
  - apply dict_get_set_eq.
Qed.

End NewestFirst.

Section Extraction.
Import Py Session Sessions.

Variable time : nat -> Time.
Variable os_path_exists : string -> bool.
Variable os_path_isdir : string -> bool.

#[local] Abbreviation written := (Sessions.written os_path_exists os_path_isdir).
#[local] Abbreviation extended :=
  (Sessions.extended time os_path_exists os_path_isdir).

Lemma extended_refl cs : extended cs cs.
Proof. unfold extended. repeat split; auto. Qed.

Lemma extended_add_entity_now cs0 cs entity_type val meta :
  written {| type_ := entity_type; value := val; last_mentioned := 0;
             metadata := match meta with Some d => d | None => [] end |} ->
  extended cs0 cs -> extended cs0 (add_entity_now time entity_type val meta cs).
Proof.
  intros Hw (Hn & Hsid & Hc & Hh & Hx & Ht & Hk & He).
  destruct cs as [n s]. unfold extended, add_entity_now, add_entity. simpl in *.
  repeat (split; [assumption || lia|]). split.
  - rewrite keys_dict_set. destruct (dict_get _ (entities s)); [exact Hk|].
    etrans; [exact Hk|]. apply prefix_app_r. reflexivity.
  - intros key e.
    destruct (String.eqb_spec key (entity_key entity_type val)) as [->|Hne].
    + rewrite dict_get_set_eq. intros [= <-]. right. simpl.
      split; [reflexivity|]. split; [exact Hw|]. exists n. split; [lia|reflexivity].
    + rewrite dict_get_set_ne by exact Hne. intros H.
      destruct (He key e H) as [H0|(Hkey & Hwr & m & Hm & Hl)]; [auto|].
      right. split; [exact Hkey|]. split; [exact Hwr|]. exists m. split; [lia|exact Hl].
Qed.

Lemma extended_fold (cs0 : Clocked) (f : Clocked -> string -> Clocked) :
  (forall cs x, extended cs0 cs -> extended cs0 (f cs x)) ->
  forall l cs, extended cs0 cs -> extended cs0 (fold_left f l cs).
Proof.
  intros Hf. induction l as [|x l IH]; intros cs H; simpl; [exact H|].
  apply IH. apply Hf. exact H.
Qed.

Lemma extract_entities_extended query_ cs :
  extended cs (extract_entities_from_query time os_path_exists os_path_isdir query_ cs).
Proof.
  unfold extract_entities_from_query. cbv zeta.
  apply extended_fold.
  { intros c ext H. destruct (Nat.leb_spec (String.length ext) 5); [|exact H].
    apply extended_add_entity_now; [|exact H].
    right. right. right. simpl. split; [reflexivity|]. split; [reflexivity|].
    exists ext. auto. }
  apply extended_fold.
  { intros c repo H. apply extended_add_entity_now; [|exact H].
    right. right. left. simpl. auto. }
  apply extended_fold.
  { intros c path H. destruct (os_path_isdir path) eqn:E; [|exact H].
    apply extended_add_entity_now; [|exact H].
    right. left. simpl. auto. }
  apply extended_fold.
  { intros c path H. destruct (os_path_exists path) eqn:E; [|exact H].
    apply extended_add_entity_now; [|exact H].
    left. simpl. auto. }
  apply extended_refl.
Qed.

(** X15.  [extract_entities_from_query] only adds.  Whatever the query,
    the clock and the file system: the history and the active task are as
    they were, the keys that were there are still there in their order,
    and an entity found afterwards under a key either was there before,
    unchanged, or was written by this call: it is stored under the key of
    its own type and value, was mentioned at one of the clock readings of
    the call, and is a file whose path exists, a directory whose path is
    one, a repository, or an extension that is a dot and at most five
    characters. *)
Theorem extract_entities_only_adds (query_ : string) (n : nat) (s : SessionMemory) :
  let cs' := extract_entities_from_query time os_path_exists os_path_isdir
               query_ (n, s) in
  let s' := snd cs' in
  conversation_history s' = conversation_history s
  /\ active_task s' = active_task s
  /\ (exists added, keys (entities s') = keys (entities s) ++ added)
  /\ forall key e,
       dict_get key (entities s') = Some e ->
       dict_get key (entities s) = Some e
       \/ (key = entity_key (type_ e) (value e)
           /\ (exists m, (n <= m < fst cs')%nat /\ last_mentioned e = time m)
           /\ ((type_ e = "file" /\ os_path_exists (value e) = true
                /\ metadata e = [("exists", VBool true)])
               \/ (type_ e = "directory" /\ os_path_isdir (value e) = true
                   /\ metadata e = [("exists", VBool true)])
               \/ (type_ e = "repository" /\ metadata e = [])
               \/ (type_ e = "extension" /\ metadata e = []
                   /\ exists ext, value e = "." +:+ ext
                                  /\ (String.length ext <= 5)%nat))).
Proof.
  cbv zeta.
  destruct (extract_entities_extended query_ (n, s))
    as (_ & _ & _ & Hh & _ & Ht & Hk & He).
  simpl in *. split; [exact Hh|]. split; [exact Ht|]. split; [exact Hk|].
  intros key e H. destruct (He key e H) as [H0|(Hkey & Hw & Hm)]; [auto|].
  right. split; [exact Hkey|]. split; [exact Hm|]. exact Hw.
Qed.

End Extraction.

(** ** The query with the context of the session *)

Section Enhance.
Import Py Session Sessions.

Variable time : nat -> Time.
Variable os_path_exists : string -> bool.
Variable os_path_isdir : string -> bool.

Lemma context_parts_fresh query_ s :
  conversation_history s = [] ->
  existsb (fun ref => ConversationAgent.is_in ref (Text.lower query_))
          ConversationAgent.context_references = false ->
  ConversationAgent.context_parts query_ s = [].
Proof.
  intros Hh Hr. unfold ConversationAgent.context_parts. cbv zeta.
  rewrite Hr, Hh. reflexivity.
Qed.

Lemma context_parts_history query_ s :
  conversation_history s <> [] ->
  exists turn rest,
    ConversationAgent.context_parts query_ s
    = "Recent conversation:" :: ("- You: " +:+ query turn) :: rest
    /\ In turn (conversation_history s).
Proof.
  intros Hh. unfold ConversationAgent.context_parts. cbv zeta.
  assert (Hlen : Nat.ltb 0 (length (conversation_history s)) = true).
  { destruct (conversation_history s); [congruence|reflexivity]. }
  rewrite Hlen, orb_true_r.
  assert (Hlast : last_items 3 (conversation_history s) <> []).
  { apply last_n_nonempty; [lia|exact Hh]. }
  destruct (conversation_history s) as [|t0 h] eqn:Eh; [congruence|].
  destruct (last_items 3 (t0 :: h)) as [|turn more] eqn:El; [congruence|].
  exists turn. eexists. split.
  - cbn [flat_map ConversationAgent.turn_lines app]. reflexivity.
  - apply (In_last_n 3 (t0 :: h) turn).
    change (In turn (last_items 3 (t0 :: h))). rewrite El. left. reflexivity.
Qed.

(** X16.  [_enhance_with_memory] never loses the query.  What it
    returns is the query itself, or the context from memory followed by
    the line [Current query:] and the query; in both cases it ends with
    the query.  With an empty history and none of the reference words in
    the lower-cased query it is the query unchanged; with a history that
    is not empty it starts with the context header and a turn of the
    history.  The session is left as [extract_entities_from_query] leaves
    it. *)
Theorem enhanced_query_ends_with_query (query_ : string) (cs : Clocked) :
  let enhanced :=
    fst (ConversationAgent._enhance_with_memory time os_path_exists os_path_isdir
           query_ cs) in
  let cs' :=
    snd (ConversationAgent._enhance_with_memory time os_path_exists os_path_isdir
           query_ cs) in
  cs' = extract_entities_from_query time os_path_exists os_path_isdir query_ cs
  /\ (enhanced = query_
      \/ exists context_,
           enhanced = "Context from memory:" +:+ Text.newline +:+ context_
                      +:+ Text.newline +:+ Text.newline +:+ "Current query: " +:+ query_)
  /\ (exists before, enhanced = before +:+ query_)
  /\ (conversation_history (snd cs) = [] ->
      existsb (fun ref => ConversationAgent.is_in ref (Text.lower query_))
              ConversationAgent.context_references = false ->
      enhanced = query_)
  /\ (conversation_history (snd cs) <> [] ->
      exists turn rest,
        In turn (conversation_history (snd cs))
        /\ enhanced = "Context from memory:" +:+ Text.newline
                      +:+ "Recent conversation:" +:+ Text.newline
                      +:+ "- You: " +:+ query turn +:+ rest).
Proof.
  cbv zeta. unfold ConversationAgent._enhance_with_memory. cbv zeta.
  set (cs1 := extract_entities_from_query time os_path_exists os_path_isdir query_ cs).
  destruct (extract_entities_extended time os_path_exists os_path_isdir query_ cs)
    as (_ & _ & _ & Hh & _). fold cs1 in Hh.
  assert (Hshape :
    forall parts, parts <> [] ->
      exists context_, (* the text of the parts *)
        "Context from memory:" +:+ Text.newline +:+ ConversationAgent.join Text.newline parts
        +:+ Text.newline +:+ Text.newline +:+ "Current query: " +:+ query_
        = "Context from memory:" +:+ Text.newline +:+ context_
          +:+ Text.newline +:+ Text.newline +:+ "Current query: " +:+ query_).
  { intros parts _. eexists. reflexivity. }
  split.
  { destruct (ConversationAgent.context_parts query_ (snd cs1)); reflexivity. }
  split.
  { destruct (ConversationAgent.context_parts query_ (snd cs1)) as [|p ps] eqn:Ep;
      [left; reflexivity|right]. simpl fst. eexists. reflexivity. }
  split.
  { destruct (ConversationAgent.context_parts query_ (snd cs1)) as [|p ps];
      [exists EmptyString; reflexivity|]. simpl fst.
    exists ("Context from memory:" +:+ Text.newline
            +:+ ConversationAgent.join Text.newline (p :: ps)
            +:+ Text.newline +:+ Text.newline +:+ "Current query: ").
    rewrite !text_append_assoc. reflexivity. }
  split.
  { intros He Hr. rewrite <- Hh in He.
    rewrite (context_parts_fresh query_ (snd cs1) He Hr). reflexivity. }
  intros Hne. rewrite <- Hh in Hne.
  destruct (context_parts_history query_ (snd cs1) Hne) as (turn & rest & -> & Hin).
  rewrite Hh in Hin. exists turn. simpl fst.
  destruct rest as [|r rest].
  - eexists. split; [exact Hin|]. cbn [ConversationAgent.join].
    rewrite !text_append_assoc. reflexivity.
  - eexists. split; [exact Hin|]. cbn [ConversationAgent.join].
    rewrite !text_append_assoc. reflexivity.
Qed.

End Enhance.

(** ** The working input of the conversation loop *)

Section WorkingInput.
Import Py Agent ConversationAgent.

Variable policy : nat -> string -> list (AgentAction * string) -> PolicyReply.
Variable llm : nat -> Prompt -> option Message.
Variable json_loads : string -> option Value.
Variable tools : list Tool.

#[local] Abbreviation step := (ConversationAgent.step policy llm json_loads tools).
#[local] Abbreviation trace := (ConversationAgent.trace policy llm json_loads tools).

Lemma loop_check_input now st st1 :
  loop_check llm now st = Ok st1 ->
  input st1 = input st /\ session_id st1 = session_id st
  /\ memory_context st1 = memory_context st.
Proof.
  intros H. apply loop_check_cases in H. cbv zeta in H.
  destruct H as [[_ ->]|[(r & _ & _ & _ & ->)|(r & a & _ & _ & _ & _ & ->)]];
    simpl; auto.
Qed.

Lemma efficiency_check_input now st0 st st2 :
  efficiency_check llm now st0 st = Ok st2 ->
  session_id st2 = session_id st /\ memory_context st2 = memory_context st
  /\ (input st2 = input st
      \/ 5 < step_counter st0
         /\ exists reflection, input st2 = enhanced_input reflection (input st)).
Proof.
  unfold efficiency_check.
  destruct (Z.ltb_spec 5 (step_counter st0)) as [H5|H5]; simpl.
  - destruct (negb (is_finish (agent_outcome st))).
    + destruct (llm now (EfficiencyPrompt _ _ _)) as [r|]; [|discriminate].
      intros [= <-]. simpl. split; [reflexivity|]. split; [reflexivity|].
      right. split; [exact H5|]. exists r. reflexivity.
    + intros [= <-]. auto.
  - intros [= <-]. auto.
Qed.

Lemma conversation_step_input c c' :
  step c = Goes c' ->
  session_id (state c') = session_id (state c)
  /\ memory_context (state c') = memory_context (state c)
  /\ (input (state c') = input (state c)
      \/ 5 < step_counter (state c)
         /\ exists reflection,
              input (state c') = enhanced_input reflection (input (state c))).
Proof.
  destruct c as [p now st]. unfold ConversationAgent.step. simpl.
  destruct p; simpl.
  - unfold _reason_node.
    destruct (policy now (input st) (intermediate_steps st));
      simpl; try discriminate; intros [= <-]; simpl; auto.
  - unfold _should_continue.
    destruct (10 <=? step_counter st); [intros [= <-]; simpl; auto|].
    destruct (is_finish (agent_outcome st)); intros [= <-]; simpl; auto.
  - unfold _reflect_node.
    destruct (is_finish (agent_outcome st)); [intros [= <-]; simpl; auto|].
    destruct ((step_counter st <? 2) || Nat.ltb (length (intermediate_steps st)) 2)%bool;
      [intros [= <-]; simpl; auto|].
    destruct (loop_check llm now st) as [st1|] eqn:E1; [|discriminate]. simpl.
    destruct (efficiency_check llm now st st1) as [st2|] eqn:E2; [|discriminate]. simpl.
    intros [= <-]. simpl.
    destruct (loop_check_input _ _ _ E1) as (I1 & S1 & M1).
    destruct (efficiency_check_input _ _ _ _ E2) as (S2 & M2 & I2).
    rewrite S2, S1, M2, M1. split; [reflexivity|]. split; [reflexivity|].
    rewrite I1 in I2. exact I2.
  - unfold _post_reflection_router.
    destruct (is_finish (agent_outcome st)); intros [= <-]; simpl; auto.
  - unfold _act_node. simpl.
    destruct (agent_outcome st) as [[a|f]|]; simpl.
    + destruct (tool_map_get (tool a) (conversation_tools tools)) as [t|].
      * destruct (_parse_tool_input json_loads (tool a) (tool_input a)) as [v|];
          simpl; [|discriminate].
        destruct (invoke t now v); [|discriminate].
        intros [= <-]. simpl. auto.
      * intros [= <-]. simpl. auto.
    + discriminate.
    + intros [= <-]. simpl. auto.
  - intros [= <-]. simpl. auto.
  - discriminate.
Qed.

Lemma enhanced_input_contains reflection original_input text :
  Words.contains text original_input ->
  Words.contains text (enhanced_input reflection original_input).
Proof.
  intros H. unfold enhanced_input.
  repeat lazymatch goal with
         | |- Words.contains _ (_ +:+ (_ +:+ (_ +:+ _))) => apply contains_append_l
         end.
  apply contains_append_r. exact H.
Qed.

Lemma conversation_step_input_kept enhanced_query query_ sid c c' :
  input_kept enhanced_query query_ sid c -> step c = Goes c' ->
  input_kept enhanced_query query_ sid c'.
Proof.
  intros (H5 & Hc & Hs & Hm) Hstep.
  destruct (conversation_step_input c c' Hstep) as (Es & Em & Ei).
  destruct (conversation_step_grown policy llm json_loads tools c c' Hstep) as (_ & _ & Hk).
  unfold input_kept. rewrite Es, Em. split; [|split; [|auto]].
  - intros H. destruct Ei as [->|[Hgt _]]; [apply H5; lia|lia].
  - destruct Ei as [->|[_ [r ->]]]; [exact Hc|].
    apply enhanced_input_contains. exact Hc.
Qed.

Lemma conversation_trace_input_kept (fuel : nat) (enhanced_query query_ sid : string) :
  Forall (input_kept enhanced_query query_ sid)
         (trace fuel (start enhanced_query query_ sid)).
Proof.
  apply (conversation_trace_Forall policy llm json_loads tools
           (input_kept enhanced_query query_ sid)
           (conversation_step_input_kept enhanced_query query_ sid)).
  unfold input_kept. simpl. split; [auto|]. split; [apply contains_refl|auto].
Qed.

End WorkingInput.

Section ExtractionInput.
Import Py Agent ExtractionAgent.

Variable policy : nat -> string -> list (AgentAction * string) -> PolicyReply.
Variable json_loads : string -> option Value.
Variable tools : list Tool.

Lemma extraction_step_input c c' :
  ExtractionAgent.step policy json_loads tools c = Goes c' ->
  input (state c') = input (state c) /\ session_id (state c') = session_id (state c).
Proof.
  destruct c as [p now st]. unfold ExtractionAgent.step. simpl.
  destruct p; simpl.
  - unfold _reason_node.
    destruct (policy now (input st) (intermediate_steps st));
      simpl; try discriminate; intros [= <-]; simpl; auto.
  - unfold _should_continue.
    destruct (5 <=? step_counter st); [intros [= <-]; simpl; auto|].
    destruct (is_finish (agent_outcome st)); intros [= <-]; simpl; auto.
  - unfold _act_node. simpl.
    destruct (agent_outcome st) as [[a|f]|]; simpl.
    + destruct (tool_map_get (tool a) (extraction_tools tools)) as [t|].
      * destruct (_parse_tool_input json_loads (tool a) (tool_input a)) as [v|];
          simpl; [|discriminate].
        destruct (invoke t now v); [|discriminate].
        intros [= <-]. simpl. auto.
      * intros [= <-]. simpl. auto.
    + discriminate.
    + intros [= <-]. simpl. auto.
  - intros [= <-]. simpl. auto.
  - discriminate.
Qed.

Lemma extraction_trace_input_kept (fuel : nat) (query_ : string) (sid : option string) :
  Forall (fun c => input (state c) = query_
                   /\ session_id (state c)
                      = match sid with Some s => s | None => EmptyString end)
         (ExtractionAgent.trace policy json_loads tools fuel (start query_ sid)).
Proof.
  apply (extraction_trace_Forall policy json_loads tools
           (fun c => input (state c) = query_
                     /\ session_id (state c)
                        = match sid with Some s => s | None => EmptyString end)).
  - intros c c' [Hi Hs] Hstep.
    destruct (extraction_step_input c c' Hstep) as [-> ->]. auto.
  - simpl. auto.
Qed.

End ExtractionInput.

(** X17.  The input the model reasons about.  In the conversation loop
    the working input is the text [process] started with as long as the
    counter is at most 5 (only the efficiency check, which needs a counter
    above 5, rewrites it), and whatever has been rewritten, that text is
    still a part of it; the session id and the memory context never
    change.  In the extraction loop, which has no reflect node, the input
    and the session id are the same at every configuration of a run. *)
Theorem working_input_is_kept
    (policy : nat -> string -> list (Agent.AgentAction * string) -> Agent.PolicyReply)
    (llm : nat -> Agent.Prompt -> option Agent.Message)
    (json_loads : string -> option Py.Value) (tools : list Agent.Tool) :
  (forall fuel enhanced_query query_ sid,
     Forall (fun c =>
               (ConversationAgent.step_counter (ConversationAgent.state c) <= 5 ->
                ConversationAgent.input (ConversationAgent.state c) = enhanced_query)
               /\ Words.contains enhanced_query
                    (ConversationAgent.input (ConversationAgent.state c))
               /\ ConversationAgent.session_id (ConversationAgent.state c) = sid
               /\ ConversationAgent.memory_context (ConversationAgent.state c)
                  = Py.VDict [("original_input", Py.VStr query_)])
            (ConversationAgent.trace policy llm json_loads tools fuel
               (ConversationAgent.start enhanced_query query_ sid)))
  /\ (forall fuel query_ sid,
        Forall (fun c =>
                  ExtractionAgent.input (ExtractionAgent.state c) = query_
                  /\ ExtractionAgent.session_id (ExtractionAgent.state c)
                     = match sid with Some s => s | None => EmptyString end)
               (ExtractionAgent.trace policy json_loads tools fuel
                  (ExtractionAgent.start query_ sid))).
Proof.
  split.
  - intros fuel enhanced_query query_ sid.
    exact (conversation_trace_input_kept policy llm json_loads tools
             fuel enhanced_query query_ sid).
  - intros fuel query_ sid.
    exact (extraction_trace_input_kept policy json_loads tools fuel query_ sid).
Qed.

(** ** What free text is normalised to *)

Section FreeText.
Import Py Agent Words.

(** every text [re.findall] lists is a match somewhere in the text *)
Lemma findall_fuel_In (r : Re.regex) x :
  (forall s m, Re.match_at r s = Some m -> s = Re.whole m +:+ Re.rest m) ->
  forall fuel s,
    In x (Re.findall_fuel fuel r s) ->
    exists pre s2 m, s = pre +:+ s2 /\ Re.match_at r s2 = Some m /\ x = Re.whole m.
Proof.
  intros Hcut. induction fuel as [|fuel IH]; intros s; simpl; [contradiction|].
  destruct (Re.match_at r s) as [m|] eqn:Em; destruct s as [|c s'].
  - intros [<-|[]]. exists EmptyString, EmptyString, m. auto.
  - assert (Hhere : exists pre s2 m0, String c s' = pre +:+ s2
                      /\ Re.match_at r s2 = Some m0 /\ Re.whole m = Re.whole m0).
    { exists EmptyString, (String c s'), m. auto. }
    assert (Hlater : forall s3 : string,
              (exists pre, String c s' = pre +:+ s3) ->
              In x (Re.findall_fuel fuel r s3) ->
              exists pre s2 m0, String c s' = pre +:+ s2
                                /\ Re.match_at r s2 = Some m0 /\ x = Re.whole m0).
    { intros s3 [pre0 Hpre] Hin. destruct (IH s3 Hin) as (pre & s2 & m0 & -> & Hm & Hx).
      exists (pre0 +:+ pre), s2, m0. rewrite text_append_assoc. auto. }
    destruct (Nat.eqb (String.length (Re.whole m)) 0).
    + intros [<-|Hin]; [exact Hhere|].
      apply (Hlater s'); [exists (String c EmptyString); reflexivity|exact Hin].
    + intros [<-|Hin]; [exact Hhere|].
      apply (Hlater (Re.rest m)); [exists (Re.whole m); apply Hcut; exact Em|exact Hin].
  - contradiction.
  - intros Hin. destruct (IH s' Hin) as (pre & s2 & m0 & -> & Hm & Hx).
    exists (String c pre), s2, m0. auto.
Qed.

Lemma search_found_match (r : Re.regex) m : forall s,
  Re.search r s = Some m ->
  exists pre s2, s = pre +:+ s2 /\ Re.match_at r s2 = Some m.
Proof.
  induction s as [|c s IH]; simpl.
  - destruct (Re.match_at r EmptyString) eqn:E; [|discriminate].
    intros [= <-]. exists EmptyString, EmptyString. auto.
  - destruct (Re.match_at r (String c s)) eqn:E.
    + intros [= <-]. exists EmptyString, (String c s). auto.
    + intros H. destruct (IH H) as (pre & s2 & -> & H2).
      exists (String c pre), s2. auto.
Qed.

Lemma findall_extensions_dotted s :
  Forall (fun e => dotted e /\ contains e s)
         (Re.findall ExtractionAgent.extension_pattern s).
Proof.
  apply Forall_forall. intros e He. apply list_elem_of_In in He.
  unfold Re.findall in He.
  apply (findall_fuel_In ExtractionAgent.extension_pattern e) in He.
  - destruct He as (pre & s2 & m & -> & Hm & ->).
    apply match_at_Lit_Plus_whole in Hm. destruct Hm as (Hs & body & Hw & Hb & Hall).
    split.
    + exists body. auto.
    + exists pre, (Re.rest m). rewrite Hs at 1. reflexivity.
  - intros s0 m Hm. apply match_at_Lit_Plus_whole in Hm. tauto.
Qed.

(** the text [directory_pattern] finds: a slash and path characters *)
Lemma search_directory_found s m :
  Re.search ExtractionAgent.directory_pattern s = Some m ->
  contains (Re.whole m) s
  /\ exists body, Re.whole m = "/" +:+ body /\ body <> EmptyString
                  /\ all_chars (fun c => (Text.is_word c || Text.mem_char c "/.-")%bool)
                        body = true.
Proof.
  intros H. apply search_found_match in H. destruct H as (pre & s2 & -> & Hm).
  apply match_at_Lit_Plus_whole in Hm. destruct Hm as (Hs & Hbody).
  split; [|exact Hbody]. exists pre, (Re.rest m). rewrite Hs at 1. reflexivity.
Qed.

(** [l] and [r+] over a class, before something that cannot fail *)
Lemma exec_Lit_Plus {R} (l : string) (p : ascii -> bool)
    (k : string -> option string -> option R) cap :
  (forall s, k s cap <> None) ->
  forall s, Re.exec (Re.Seq (Re.Lit l) (Re.Plus (Re.Set_ p))) s cap k
            = if Text.starts_with l s
              then match Text.drop (String.length l) s with
                   | String c t => if p c then k (Text.lstrip_by p t) cap else None
                   | EmptyString => None
                   end
              else None.
Proof.
  intros Hk s. cbn [Re.exec]. rewrite exec_Lit.
  destruct (Text.starts_with l s); [|reflexivity].
  apply exec_Plus_class. exact Hk.
Qed.

(** what is read of [s] when [l], a character [c] of the class and all
    that follow have been read *)
Lemma read_Lit_Plus (l : string) (p : ascii -> bool) (before u t : string) c :
  Text.starts_with l u = true ->
  Text.drop (String.length l) u = String c t ->
  p c = true ->
  exists body,
    before +:+ u = (before +:+ l +:+ body) +:+ Text.lstrip_by p t
    /\ Text.take (String.length (before +:+ u) - String.length (Text.lstrip_by p t))
                 (before +:+ u)
       = before +:+ l +:+ body
    /\ body <> EmptyString /\ all_chars p body = true.
Proof.
  intros Hl Hd Hc.
  pose proof (starts_with_split l u Hl) as Hu. rewrite Hd in Hu.
  destruct (lstrip_by_split p t) as (mid & Ht & Hm).
  exists (String c mid).
  assert (E : before +:+ u = (before +:+ l +:+ String c mid) +:+ Text.lstrip_by p t).
  { rewrite Hu, !text_append_assoc, text_append_cons, <- Ht. reflexivity. }
  split; [exact E|]. split.
  - rewrite E at 1 2. apply text_take_read.
  - split; [discriminate|]. simpl. rewrite Hc, Hm. reflexivity.
Qed.

(** the text [git_url_pattern] finds: the scheme and what follows it up
    to the next blank *)
Lemma search_git_url_found s m :
  Re.search ExtractionAgent.git_url_pattern s = Some m ->
  contains (Re.whole m) s
  /\ exists scheme body,
       (scheme = "https://" \/ scheme = "http://")
       /\ Re.whole m = scheme +:+ body /\ body <> EmptyString
       /\ all_chars (fun c => negb (Text.is_space c)) body = true.
Proof.
  intros H. apply search_found_match in H. destruct H as (pre & s2 & -> & Hm).
  revert Hm. unfold Re.match_at, ExtractionAgent.git_url_pattern, Re.Opt.
  set (np := fun c => negb (Text.is_space c)).
  set (K := fun (s1 : string) (cap : option string) =>
              Some {| Re.whole := Text.take (String.length s2 - String.length s1) s2;
                      Re.group1 := cap; Re.rest := s1 |}).
  change (Re.exec (Re.Seq (Re.Lit "http")
            (Re.Seq (Re.Alt (Re.Lit "s") Re.Eps)
               (Re.Seq (Re.Lit "://") (Re.Plus (Re.Set_ np))))) s2 None K = Some m ->
          contains (Re.whole m) (pre +:+ s2)
          /\ exists scheme body,
               (scheme = "https://" \/ scheme = "http://")
               /\ Re.whole m = scheme +:+ body /\ body <> EmptyString
               /\ all_chars np body = true).
  assert (HK : forall s1, K s1 None <> None) by (intros s1; discriminate).
  set (E := fun u => Re.exec (Re.Seq (Re.Lit "://") (Re.Plus (Re.Set_ np))) u None K).
  set (t := Text.drop (String.length "http") s2).
  assert (Hexec :
    Re.exec (Re.Seq (Re.Lit "http")
               (Re.Seq (Re.Alt (Re.Lit "s") Re.Eps)
                  (Re.Seq (Re.Lit "://") (Re.Plus (Re.Set_ np))))) s2 None K
    = if Text.starts_with "http" s2
      then Re.orelse (if Text.starts_with "s" t
                      then E (Text.drop (String.length "s") t) else None)
                     (E t)
      else None).
  { cbn [Re.exec]. rewrite (exec_Lit "http"). cbv beta. rewrite (exec_Lit "s").
    reflexivity. }
  rewrite Hexec. clear Hexec.
  destruct (Text.starts_with "http" s2) eqn:E1; [|discriminate].
  pose proof (starts_with_split "http" s2 E1) as Hs2. fold t in Hs2.
  assert (Hend : forall before u,
            s2 = before +:+ u ->
            Re.exec (Re.Seq (Re.Lit "://") (Re.Plus (Re.Set_ np))) u None K = Some m ->
            exists body, Re.whole m = before +:+ "://" +:+ body
                         /\ s2 = Re.whole m +:+ Re.rest m
                         /\ body <> EmptyString /\ all_chars np body = true).
  { intros before u Hu. rewrite (exec_Lit_Plus "://" np K None HK).
    destruct (Text.starts_with "://" u) eqn:E3; [|discriminate].
    destruct (Text.drop (String.length "://") u) as [|c t'] eqn:Ed; [discriminate|].
    destruct (np c) eqn:Ec; [|discriminate].
    intros [= <-]. simpl.
    destruct (read_Lit_Plus "://" np before u t' c E3 Ed Ec) as (body & Hcut & Htake & Hb).
    rewrite <- Hu in Hcut, Htake. exists body. rewrite Htake. auto. }
  assert (Hdone : forall scheme body,
            (scheme = "https://" \/ scheme = "http://") ->
            Re.whole m = scheme +:+ body -> s2 = Re.whole m +:+ Re.rest m ->
            body <> EmptyString -> all_chars np body = true ->
            contains (Re.whole m) (pre +:+ s2)
            /\ exists scheme body,
                 (scheme = "https://" \/ scheme = "http://")
                 /\ Re.whole m = scheme +:+ body /\ body <> EmptyString
                 /\ all_chars np body = true).
  { intros scheme body Hsch Hw Hcut Hb Hall. split.
    - exists pre, (Re.rest m). rewrite Hcut at 1. reflexivity.
    - exists scheme, body. auto. }
  destruct (Text.starts_with "s" t) eqn:E2.
  - pose proof (starts_with_split "s" t E2) as Ht.
    destruct (E (Text.drop (String.length "s") t)) as [m1|] eqn:Ef.
    + cbn [Re.orelse]. intros [= <-].
      destruct (Hend ("http" +:+ "s") (Text.drop (String.length "s") t))
        as (body & Hw & Hcut & Hb & Hall); [|exact Ef|].
      { rewrite text_append_assoc, <- Ht. exact Hs2. }
      apply (Hdone "https://" body); auto.
    + cbn [Re.orelse]. intros Hm.
      destruct (Hend "http" t Hs2 Hm) as (body & Hw & Hcut & Hb & Hall).
      apply (Hdone "http://" body); auto.
  - cbn [Re.orelse]. intros Hm.
    destruct (Hend "http" t Hs2 Hm) as (body & Hw & Hcut & Hb & Hall).
    apply (Hdone "http://" body); auto.
Qed.

(** on a text that [json.loads] rejects *)
Lemma extraction_parse_local_text json_loads s :
  json_loads s = None ->
  ExtractionAgent._parse_tool_input json_loads "extract_content_local" (VStr s)
  = Ok (VDict [("directory",
                VStr (ExtractionAgent.whole_or (Text.strip s)
                        (Re.search ExtractionAgent.directory_pattern s)));
               ("extensions",
                VList (map VStr
                         match Re.findall ExtractionAgent.extension_pattern s with
                         | [] => [".py"]
                         | _ => Re.findall ExtractionAgent.extension_pattern s
                         end));
               ("clipboard_only", VBool false)]).
Proof.
  intros H. unfold ExtractionAgent._parse_tool_input, ExtractionAgent.parsed_input_of.
  rewrite H. reflexivity.
Qed.

Lemma extraction_parse_git_text json_loads s :
  json_loads s = None ->
  ExtractionAgent._parse_tool_input json_loads "extract_git_content" (VStr s)
  = Ok (VDict [("git_url",
                VStr (ExtractionAgent.whole_or (Text.strip s)
                        (Re.search ExtractionAgent.git_url_pattern s)));
               ("extensions",
                VList (map VStr (Re.findall ExtractionAgent.extension_pattern s)));
               ("clone", VBool false);
               ("clipboard_only", VBool true)]).
Proof.
  intros H. unfold ExtractionAgent._parse_tool_input, ExtractionAgent.parsed_input_of.
  rewrite H. reflexivity.
Qed.

(** X18.  What the extraction normaliser makes of free text, that is of
    a text [json.loads] rejects.  For the local tool: a dict with the
    keys directory, extensions and clipboard_only (false), where the
    directory is the trimmed text or a part of the text that is a slash
    followed by path characters, and the extensions are [.py] alone or a
    list, not empty, of parts of the text that are a dot followed by
    letters.  For the git tool: a dict with the keys git_url, extensions,
    clone (false) and clipboard_only (true), where the url is the trimmed
    text or a part of the text that is http:// or https:// followed by
    characters that are not blank, and every extension is a part of the
    text that is a dot followed by letters. *)
Theorem free_text_for_the_extraction_tools
    (json_loads : string -> option Value) (s : string) :
  json_loads s = None ->
  (exists directory extensions,
     ExtractionAgent._parse_tool_input json_loads "extract_content_local" (VStr s)
     = Ok (VDict [("directory", VStr directory);
                  ("extensions", VList (map VStr extensions));
                  ("clipboard_only", VBool false)])
     /\ (directory = Text.strip s
         \/ contains directory s
            /\ exists body,
                 directory = "/" +:+ body /\ body <> EmptyString
                 /\ all_chars (fun c => (Text.is_word c || Text.mem_char c "/.-")%bool)
                       body = true)
     /\ (extensions = [".py"]
         \/ extensions <> []
            /\ Forall (fun e => dotted e /\ contains e s) extensions))
  /\ (exists git_url extensions,
        ExtractionAgent._parse_tool_input json_loads "extract_git_content" (VStr s)
        = Ok (VDict [("git_url", VStr git_url);
                     ("extensions", VList (map VStr extensions));
                     ("clone", VBool false);
                     ("clipboard_only", VBool true)])
        /\ (git_url = Text.strip s
            \/ contains git_url s
               /\ exists scheme body,
                    (scheme = "https://" \/ scheme = "http://")
                    /\ git_url = scheme +:+ body /\ body <> EmptyString
                    /\ all_chars (fun c => negb (Text.is_space c)) body = true)
        /\ Forall (fun e => dotted e /\ contains e s) extensions).
Proof.
  intros H. split.
  - eexists. eexists. split; [apply extraction_parse_local_text; exact H|]. split.
    + unfold ExtractionAgent.whole_or.
      destruct (Re.search ExtractionAgent.directory_pattern s) as [m|] eqn:Em;
        [right; apply search_directory_found; exact Em|left; reflexivity].
    + pose proof (findall_extensions_dotted s) as Hall.
      destruct (Re.findall ExtractionAgent.extension_pattern s) as [|e es];
        [left; reflexivity|right]. split; [discriminate|exact Hall].
  - eexists. eexists. split; [apply extraction_parse_git_text; exact H|]. split.
    + unfold ExtractionAgent.whole_or.
      destruct (Re.search ExtractionAgent.git_url_pattern s) as [m|] eqn:Em;
        [right; apply search_git_url_found; exact Em|left; reflexivity].
    + apply findall_extensions_dotted.
Qed.

(** the pattern of the extensions finds [.com] in front of a slash *)
Lemma findall_fuel_com (post : string) : forall n pre fuel,
  (String.length pre <= n)%nat -> (String.length pre < fuel)%nat ->
  In ".com" (Re.findall_fuel fuel ExtractionAgent.extension_pattern
               (pre +:+ ".com/" +:+ post)).
Proof.
  assert (Htail : Text.lstrip_by Text.is_ascii_letter (".com/" +:+ post)
                  = ".com/" +:+ post) by reflexivity.
  assert (Hbase : forall fuel,
            In ".com" (Re.findall_fuel (S fuel) ExtractionAgent.extension_pattern
                         (".com/" +:+ post))).
  { intros fuel. cbn [Re.findall_fuel].
    unfold ExtractionAgent.extension_pattern. rewrite match_at_Lit_Plus.
    change (".com/" +:+ post) with (String "." ("com/" +:+ post)).
    change (Text.starts_with "." (String "." ("com/" +:+ post))) with true.
    cbv iota.
    change (Text.drop (String.length ".") (String "." ("com/" +:+ post)))
      with (String "c" ("om/" +:+ post)).
    cbv iota.
    change (Text.is_ascii_letter "c") with true. cbv iota.
    change (Text.lstrip_by Text.is_ascii_letter ("om/" +:+ post)) with (String "/" post).
    change (String "." ("com/" +:+ post)) with (".com" +:+ String "/" post).
    rewrite (text_take_read ".com" (String "/" post)). cbn [Re.whole].
    destruct (Nat.eqb _ 0); left; reflexivity. }
  induction n as [|n IH]; intros pre fuel Hlen Hfuel;
    (destruct fuel as [|fuel]; [lia|]); destruct pre as [|c pre]; simpl in Hlen; try lia.
  - rewrite text_append_nil. apply Hbase.
  - rewrite text_append_nil. apply Hbase.
  - rewrite text_append_cons. cbn [Re.findall_fuel]. simpl in Hfuel.
    assert (Hnext : In ".com" (Re.findall_fuel fuel ExtractionAgent.extension_pattern
                                 (pre +:+ ".com/" +:+ post))).
    { apply IH; lia. }
    destruct (Re.match_at ExtractionAgent.extension_pattern
                (String c (pre +:+ ".com/" +:+ post))) as [m|] eqn:Em; [|exact Hnext].
    destruct (Nat.eqb (String.length (Re.whole m)) 0); [right; exact Hnext|].
    right. revert Em. unfold ExtractionAgent.extension_pattern.
    rewrite match_at_Lit_Plus.
    destruct (Text.starts_with "." (String c (pre +:+ ".com/" +:+ post)));
      [|discriminate].
    cbn [Text.drop String.length].
    destruct pre as [|d pre].
    + rewrite text_append_nil. cbn. discriminate.
    + rewrite text_append_cons.
      destruct (Text.is_ascii_letter d); [|discriminate].
      intros [= <-]. cbn [Re.rest].
      rewrite (lstrip_by_append _ _ Htail).
      apply IH.
      * pose proof (lstrip_by_length Text.is_ascii_letter pre). simpl in Hlen. lia.
      * pose proof (lstrip_by_length Text.is_ascii_letter pre). simpl in Hfuel. lia.
Qed.

(** X19.  A GitHub address in free text is read as an extension.  For
    every text that contains [github.com/] and that [json.loads] rejects,
    the extensions the normaliser hands to the git tool contain [.com]:
    the dot of the host name starts a match of the pattern of the
    extensions.  So for such a text the list of extensions is never
    empty. *)
Theorem github_url_names_the_extension_com
    (json_loads : string -> option Value) (pre post : string) :
  json_loads (pre +:+ "github.com/" +:+ post) = None ->
  exists git_url extensions,
    ExtractionAgent._parse_tool_input json_loads "extract_git_content"
      (VStr (pre +:+ "github.com/" +:+ post))
    = Ok (VDict [("git_url", VStr git_url);
                 ("extensions", VList (map VStr extensions));
                 ("clone", VBool false);
                 ("clipboard_only", VBool true)])
    /\ In ".com" extensions.
Proof.
  intros H. eexists. eexists.
  split; [apply extraction_parse_git_text; exact H|].
  unfold Re.findall.
  replace (pre +:+ "github.com/" +:+ post)
    with ((pre +:+ "github") +:+ ".com/" +:+ post)
    by (rewrite text_append_assoc; reflexivity).
  apply (findall_fuel_com post (String.length (pre +:+ "github"))); [lia|].
  rewrite !text_length_append. simpl. lia.
Qed.

End FreeText.

(** ** What the conversation normaliser makes of free text *)

Section ConversationFreeText.
Import Py Agent Words.











(** *** [str.strip] *)







End ConversationFreeText.

(** ** The efficiency check of the reflector *)

Section Efficiency.
Import Py Agent ConversationAgent.

Variable llm : nat -> Prompt -> option Message.

(** what [efficiency_check] gives when its call to the model does not fail *)
Lemma efficiency_check_cases now st0 st st2 :
  efficiency_check llm now st0 st = Ok st2 ->
  (((5 <? step_counter st0) && negb (is_finish (agent_outcome st)))%bool = false
   /\ st2 = st)
  \/ (5 < step_counter st0 /\ is_finish (agent_outcome st) = false
      /\ exists reflection,
           llm now (EfficiencyPrompt (step_counter st0) (tool_sequence st0)
                      (last_n 3 (intermediate_steps st0))) = Some reflection
           /\ st2 = set_input (enhanced_input reflection (input st))
                      (set_reflections
                         (reflections st
                          ++ [{| r_step := step_counter st0; r_type := "efficiency";
                                 r_content := reflection |}]) st)).
Proof.
  unfold efficiency_check.
  destruct (Z.ltb_spec 5 (step_counter st0)) as [H5|H5]; simpl.
  - destruct (is_finish (agent_outcome st)) eqn:Ef; simpl.
    + intros [= <-]. left. auto.
    + destruct (llm now (EfficiencyPrompt _ _ _)) as [r|] eqn:El; [|discriminate].
      intros [= <-]. right. split; [exact H5|]. split; [reflexivity|].
      exists r. auto.
  - intros [= <-]. left. auto.
Qed.

(** X20.  The efficiency check of [_reflect_node], on a state with a
    pending outcome, a counter [k] of at least 2 and at least two entries
    of history, when the node returns:
    (1) the input is rewritten only if [k > 5] and the outcome is still
        pending afterwards;
    (2) if [k > 5] and the outcome is still pending afterwards, the model
        was asked with the efficiency prompt, the input is the rewritten
        one built from its reply and the old input, the efficiency
        reflection is the last of the reflections, after at most one
        loop_detection reflection of this pass, the outcome is as it was
        and the router goes on to act;
    (3) if [k <= 5], or if the pass synthesized a final answer, the input
        is as it was. *)
Theorem reflector_efficiency_check (now : nat) (st st' : State) (ws : list Write) :
  let k := step_counter st in
  let history := intermediate_steps st in
  let names := map (fun s => tool (fst s)) (last_n 3 history) in
  is_finish (agent_outcome st) = false -> 2 <= k -> (2 <= length history)%nat ->
  _reflect_node llm now st = Ok (st', ws) ->
  (input st' <> input st -> 5 < k /\ is_finish (agent_outcome st') = false)
  /\ (5 < k -> is_finish (agent_outcome st') = false ->
      exists reflection before,
        llm now (EfficiencyPrompt k names (last_n 3 history)) = Some reflection
        /\ input st' = enhanced_input reflection (input st)
        /\ reflections st'
           = before ++ [{| r_step := k; r_type := "efficiency";
                           r_content := reflection |}]
        /\ (before = reflections st
            \/ exists noted,
                 before = reflections st
                          ++ [{| r_step := k; r_type := "loop_detection";
                                 r_content := noted |}])
        /\ agent_outcome st' = agent_outcome st
        /\ snd (_post_reflection_router st') = route_act)
  /\ (k <= 5 \/ is_finish (agent_outcome st') = true -> input st' = input st).
Proof.
  cbv zeta. intros Hf Hk Hl Hr.
  destruct (reflect_node_returns llm now st st' ws Hf Hk Hl Hr) as (st1 & E1 & E2 & _).
  apply loop_check_cases in E1. cbv zeta in E1.
  apply efficiency_check_cases in E2.
  assert (H1 : input st1 = input st
               /\ (is_finish (agent_outcome st1) = false ->
                   agent_outcome st1 = agent_outcome st
                   /\ (reflections st1 = reflections st
                       \/ exists noted,
                            reflections st1
                            = reflections st
                              ++ [{| r_step := step_counter st;
                                     r_type := "loop_detection";
                                     r_content := noted |}]))).
  { destruct E1 as [[_ ->]|[(r & _ & _ & _ & ->)|(r & a & _ & _ & _ & _ & ->)]]; simpl.
    - auto.
    - split; [reflexivity|]. intros _. split; [reflexivity|]. right. eauto.
    - split; [reflexivity|]. discriminate. }
  destruct H1 as [Hi1 Hp1].
  destruct E2 as [[Hoff ->]|(H5 & Hp & r & Hllm & ->)].
  - split; [intros H; congruence|]. split.
    + intros H5 Hp. exfalso.
      destruct (Z.ltb_spec 5 (step_counter st)) as [_|H]; [|lia].
      rewrite Hp in Hoff. discriminate.
    + intros _. exact Hi1.
  - simpl. split; [intros _; split; [exact H5|exact Hp]|]. split.
    + intros _ _. destruct (Hp1 Hp) as [Ho Hrefl].
      exists r, (reflections st1). rewrite Hi1.
      split; [exact Hllm|]. split; [reflexivity|]. split; [reflexivity|].
      split; [exact Hrefl|]. split; [exact Ho|].
      unfold _post_reflection_router. simpl. rewrite Hp. reflexivity.
    + intros [H|H]; [lia|]. rewrite Hp in H. discriminate.
Qed.

End Efficiency.

(** ** The theorems at concrete inputs *)

Section Instances.
Import Py Agent.

Lemma nth_error_cut {A} (l : list A) : forall n x,
  nth_error l n = Some x -> l = firstn n l ++ x :: skipn (S n) l.
Proof.
  induction l as [|a l IH]; intros [|n] x H; simpl in *; try discriminate.
  - injection H as ->. reflexivity.
  - rewrite <- (IH n x H). reflexivity.
Defined.

(** A model that asks for the repository at every step, and no tool
    registered: the run ends with a counter of 5, that tool call as its
    outcome and 10 history entries, and [process] raises. *)
Lemma extraction_budget_run_witness :
  let proposal := {| tool := "extract_git_content";
                     tool_input := VStr "https://github.com/a/b"; log := "extract" |} in
  let policy := fun (_ : nat) (_ : string) (_ : list (AgentAction * string)) =>
                  Parsed (Action proposal) in
  let no_json := fun _ : string => @None Value in
  (forall now i h, exists a, policy now i h = Parsed (Action a))
  /\ match ExtractionAgent.app_invoke policy no_json []
             (ExtractionAgent.start "extract the repo" (Some "s1")) with
     | ExtractionAgent.Finished st =>
         ExtractionAgent.step_counter st = 5
         /\ (exists a, ExtractionAgent.agent_outcome st = Some (Action a))
         /\ length (ExtractionAgent.intermediate_steps st) = 10%nat
         /\ ExtractionAgent.process_output st = Raise AttributeError
     | _ => False
     end.
Proof.
  cbv zeta.
  assert (Hnever : forall (now : nat) (i : string) (h : list (AgentAction * string)),
            exists a, Parsed (Action {| tool := "extract_git_content";
                                        tool_input := VStr "https://github.com/a/b";
                                        log := "extract" |}) = Parsed (Action a))
    by (intros; eexists; reflexivity).
  split; [exact Hnever|].
  match goal with
  | |- match ?r with _ => _ end => destruct r as [st| |] eqn:E
  end.
  - exact (proj2 (extraction_budget_run _ _ _ _ _ Hnever) st E).
  - vm_compute in E. discriminate.
  - vm_compute in E. discriminate.
Defined.

(** The model gives a final answer when the budget is spent: the
    configurations after the one that holds this answer still hold it,
    and none stands before act. *)
Lemma C2_witness :
  let proposal := {| tool := "extract_content_local";
                     tool_input := VStr "/srv/app"; log := "extract" |} in
  let done := {| output := "done"; finish_log := "done" |} in
  let policy := fun (now : nat) (_ : string) (_ : list (AgentAction * string)) =>
                  if Nat.ltb now 15 then Parsed (Action proposal)
                  else Parsed (Finish done) in
  let no_json := fun _ : string => @None Value in
  let tr := ExtractionAgent.trace policy no_json [] ExtractionAgent.enough
              (ExtractionAgent.start "extract /srv/app" None) in
  match nth_error tr 16 with
  | Some c1 =>
      ExtractionAgent.agent_outcome (ExtractionAgent.state c1) = Some (Finish done)
      /\ length (skipn 17 tr) = 2%nat
      /\ Forall (fun c2 =>
                   ExtractionAgent.point c2 <> ExtractionAgent.at_act
                   /\ (ExtractionAgent.agent_outcome (ExtractionAgent.state c2)
                       = ExtractionAgent.agent_outcome (ExtractionAgent.state c1)
                       \/ ExtractionAgent.agent_outcome (ExtractionAgent.state c2)
                          = Some (Finish ExtractionAgent.budget_apology)))
                (skipn 17 tr)
  | None => False
  end.
Proof.
  cbv zeta.
  match goal with
  | |- match nth_error (ExtractionAgent.trace ?policy ?json ?tools ?fuel ?c0) 16
       with _ => _ end =>
      pose proof (proj2 (C2_final_answer_is_kept policy (fun _ _ => None) json tools))
        as kept;
      set (tr := ExtractionAgent.trace policy json tools fuel c0);
      destruct (nth_error tr 16) as [c1|] eqn:E
  end.
  - assert (Ho : ExtractionAgent.agent_outcome (ExtractionAgent.state c1)
                 = Some (Finish {| output := "done"; finish_log := "done" |})).
    { vm_compute in E. injection E as <-. reflexivity. }
    split; [exact Ho|]. split; [vm_compute; reflexivity|].
    apply (kept ExtractionAgent.enough "extract /srv/app" None
             (firstn 16 tr) c1 (skipn 17 tr)).
    + apply nth_error_cut. exact E.
    + rewrite Ho. reflexivity.
  - vm_compute in E. discriminate.
Defined.

(** The parser fails on a text with a labelled final answer: the
    reasoning step of the conversation loop returns that answer. *)
Lemma C3_witness :
  let policy := fun (_ : nat) (_ : string) (_ : list (AgentAction * string)) =>
                  OutputParserException
                    "Could not parse LLM output: I know it. Final Answer:  Paris " in
  let cst := ConversationAgent.initial_state "capital of France?" "capital of France?" "s1" in
  ConversationAgent._reason_node policy 0 cst
  = Ok (cst, [ConversationAgent.W_agent_outcome
                (Some (Finish {| output := "Paris"; finish_log := "Paris" |}))]).
Proof.
  cbv zeta.
  rewrite (proj1 (C3_parse_failure_recovery _ 0
                    "Could not parse LLM output: I know it. Final Answer:  Paris "
                    (ConversationAgent.initial_state "capital of France?"
                       "capital of France?" "s1")
                    (ExtractionAgent.initial_state "capital of France?" None))
                 eq_refl).
  vm_compute. reflexivity.
Defined.


(** A structured input for a tool the conversation normaliser does not
    know comes back as it is. *)
Lemma C7_witness :
  ConversationAgent._parse_tool_input (fun _ => None) "list_memory_sessions"
    (VDict [("verbose", VBool true)])
  = Ok (VDict [("verbose", VBool true)]).
Proof.
  exact (proj1 (proj2 (C7_structured_input (fun _ => None) "list_memory_sessions"
                         [("verbose", VBool true)])) eq_refl).
Defined.

(** The extraction loop is asked for the search tool, which it does not
    register. *)
Lemma C8_witness :
  let search := {| tool := "tavily_search_results_json";
                   tool_input := VStr "weather"; log := "search" |} in
  let policy := fun (_ : nat) (_ : string) (_ : list (AgentAction * string)) =>
                  Parsed (Action search) in
  let local := {| name := "extract_content_local";
                  invoke := fun _ _ => Some "---- app.py ----" |} in
  let web := {| name := "tavily_search_results_json";
                invoke := fun _ _ => Some "sunny" |} in
  let st := ExtractionAgent.set_agent_outcome (Some (Action search))
              (ExtractionAgent.initial_state "weather?" None) in
  exists observation rest,
    observation = "Tool '" +:+ "tavily_search_results_json" +:+ "' not found" +:+ rest
    /\ ExtractionAgent.step policy (fun _ => None) [local; web]
         {| ExtractionAgent.point := ExtractionAgent.at_act;
            ExtractionAgent.clock := 2; ExtractionAgent.state := st |}
       = ExtractionAgent.Goes
           {| ExtractionAgent.point := ExtractionAgent.at_reason;
              ExtractionAgent.clock := 3;
              ExtractionAgent.state :=
                ExtractionAgent.set_intermediate_steps [(search, observation)]
                  (ExtractionAgent.set_step_counter 1 st) |}.
Proof.
  cbv zeta.
  match goal with
  | |- exists _ _, _ /\ ExtractionAgent.step ?policy ?json ?tools
                        {| ExtractionAgent.state := ?st |} = _ =>
      exact (proj1 (proj2 (C8_unknown_tool policy (fun _ _ => None) json tools 2
                             {| tool := "tavily_search_results_json";
                                tool_input := VStr "weather"; log := "search" |})
                     st eq_refl) eq_refl)
  end.
Defined.

(** In a fresh session, the colliding pair leaves one entity, and an
    entry under another key is as it was. *)
Lemma C10_witness :
  let s := {| Session.session_id := "s1"; Session.created_at := 0;
              Session.last_accessed := 0;
              Session.entities := {["file:/srv/app.py" :=
                                      {| Session.type_ := "file";
                                         Session.value := "/srv/app.py";
                                         Session.last_mentioned := 0;
                                         Session.metadata := [] |}]} |} in
  let s1 := Session.add_entity "a" "b:c" None 1 2 s in
  let s2 := Session.add_entity "a:b" "c" None 3 4 s1 in
  Session.entity_count s2 = Session.entity_count s1
  /\ Session.entities s2 !! "file:/srv/app.py" = Session.entities s1 !! "file:/srv/app.py".
Proof.
  cbv zeta.
  match goal with
  | |- Session.entity_count (Session.add_entity _ _ _ _ _ (Session.add_entity _ _ _ _ _ ?s))
       = _ /\ _ =>
      pose proof (proj2 (proj2 (proj2 C10_entity_key_collision)) s None None 1 2 3 4) as H
  end.
  cbv zeta in H. destruct H as (H1 & _ & _ & _ & _ & H6).
  split; [exact H1|]. apply H6. discriminate.
Defined.

(** A session that knows one extension, mentioned at 5; a file is added
    at 7 and comes first. *)
Lemma added_entity_comes_first_witness :
  let s := {| Sessions.session_id := "s1"; Sessions.created_at := 0;
              Sessions.last_accessed := 5; Sessions.conversation_history := [];
              Sessions.entities :=
                [("extension:.py",
                  {| Session.type_ := "extension"; Session.value := ".py";
                     Session.last_mentioned := 5; Session.metadata := [] |})];
              Sessions.context := []; Sessions.active_task := None |} in
  Sessions.get_recent_entities None 5 (Sessions.add_entity "file" "/srv/app.py" None 7 8 s)
  = [{| Session.type_ := "file"; Session.value := "/srv/app.py";
        Session.last_mentioned := 7; Session.metadata := [] |};
     {| Session.type_ := "extension"; Session.value := ".py";
        Session.last_mentioned := 5; Session.metadata := [] |}]
  /\ exists rest,
       Sessions.get_recent_entities None 5
         (Sessions.add_entity "file" "/srv/app.py" None 7 8 s)
       = {| Session.type_ := "file"; Session.value := "/srv/app.py";
            Session.last_mentioned := 7; Session.metadata := [] |} :: rest.
Proof.
  cbv zeta. split; [vm_compute; reflexivity|].
  apply (added_entity_comes_first "file" "/srv/app.py" None 7 8).
  - repeat constructor.
  - lia.
  - left. reflexivity.
Defined.

(** A file and a directory of the same path have different keys, and
    both are there after both are added. *)
Lemma entity_key_without_colon_witness :
  let s := {| Sessions.session_id := "s1"; Sessions.created_at := 0;
              Sessions.last_accessed := 0; Sessions.conversation_history := [];
              Sessions.entities := []; Sessions.context := [];
              Sessions.active_task := None |} in
  (Session.entity_key "file" "/srv" = Session.entity_key "directory" "/srv"
   <-> "file" = "directory" /\ "/srv" = "/srv")
  /\ (("file", "/srv") <> ("directory", "/srv") ->
      let s' := Sessions.add_entity "directory" "/srv" None 3 4
                  (Sessions.add_entity "file" "/srv" None 1 2 s) in
      Sessions.dict_get (Session.entity_key "file" "/srv") (Sessions.entities s')
      = Some {| Session.type_ := "file"; Session.value := "/srv";
                Session.last_mentioned := 1; Session.metadata := [] |}
      /\ Sessions.dict_get (Session.entity_key "directory" "/srv") (Sessions.entities s')
         = Some {| Session.type_ := "directory"; Session.value := "/srv";
                   Session.last_mentioned := 3; Session.metadata := [] |}).
Proof.
  cbv zeta.
  exact (entity_key_without_colon "file" "/srv" "directory" "/srv" None None 1 2 3 4 _
           eq_refl eq_refl).
Defined.

(** A request in plain words: the directory and the two extensions are
    read off the text. *)
Lemma free_text_for_the_extraction_tools_witness :
  let no_json := fun _ : string => @None Value in
  let s := "extract /srv/app for .py and .md files" in
  ExtractionAgent._parse_tool_input no_json "extract_content_local" (VStr s)
  = Ok (VDict [("directory", VStr "/srv/app");
               ("extensions", VList [VStr ".py"; VStr ".md"]);
               ("clipboard_only", VBool false)])
  /\ (exists directory extensions,
        ExtractionAgent._parse_tool_input no_json "extract_content_local" (VStr s)
        = Ok (VDict [("directory", VStr directory);
                     ("extensions", VList (map VStr extensions));
                     ("clipboard_only", VBool false)])
        /\ (directory = Text.strip s
            \/ Words.contains directory s
               /\ exists body,
                    directory = "/" +:+ body /\ body <> EmptyString
                    /\ Words.all_chars
                         (fun c => (Text.is_word c || Text.mem_char c "/.-")%bool)
                         body = true)
        /\ (extensions = [".py"]
            \/ extensions <> []
               /\ Forall (fun e => Words.dotted e /\ Words.contains e s) extensions)).
Proof.
  cbv zeta. split; [vm_compute; reflexivity|].
  exact (proj1 (free_text_for_the_extraction_tools (fun _ => None)
                  "extract /srv/app for .py and .md files" eq_refl)).
Defined.

(** A GitHub address and no word about extensions: the git tool is handed
    the extension [.com]. *)
Lemma github_url_names_the_extension_com_witness :
  let no_json := fun _ : string => @None Value in
  ExtractionAgent._parse_tool_input no_json "extract_git_content"
    (VStr ("clone https://" +:+ "github.com/" +:+ "acme/widgets"))
  = Ok (VDict [("git_url", VStr "https://github.com/acme/widgets");
               ("extensions", VList [VStr ".com"]);
               ("clone", VBool false);
               ("clipboard_only", VBool true)])
  /\ exists git_url extensions,
       ExtractionAgent._parse_tool_input no_json "extract_git_content"
         (VStr ("clone https://" +:+ "github.com/" +:+ "acme/widgets"))
       = Ok (VDict [("git_url", VStr git_url);
                    ("extensions", VList (map VStr extensions));
                    ("clone", VBool false);
                    ("clipboard_only", VBool true)])
       /\ In ".com" extensions.
Proof.
  cbv zeta. split; [vm_compute; reflexivity|].
  exact (github_url_names_the_extension_com (fun _ => None)
           "clone https://" "acme/widgets" eq_refl).
Defined.

(** Six steps and no answer yet, the last two with different tools: the
    reflector asks the model how the run is going and rewrites the
    input. *)
Lemma reflector_efficiency_check_witness :
  let search := {| tool := "tavily_search_results_json";
                   tool_input := VStr "weather"; log := "search" |} in
  let clock_ := {| tool := "get_system_time"; tool_input := VStr "%H"; log := "time" |} in
  let reply := {| content := "Answer now."; shown := "Answer now." |} in
  let llm := fun (_ : nat) (_ : Prompt) => Some reply in
  let st := {| ConversationAgent.input := "weather?";
               ConversationAgent.agent_outcome := Some (Action search);
               ConversationAgent.intermediate_steps :=
                 [(search, "sunny"); (clock_, "12")];
               ConversationAgent.session_id := "s1";
               ConversationAgent.memory_context := VDict [("original_input", VStr "weather?")];
               ConversationAgent.step_counter := 6;
               ConversationAgent.reflections := [] |} in
  let st' :=
    ConversationAgent.set_input (ConversationAgent.enhanced_input reply "weather?")
      (ConversationAgent.set_reflections
         [{| ConversationAgent.r_step := 6;
             ConversationAgent.r_type := "efficiency";
             ConversationAgent.r_content := reply |}] st) in
  ConversationAgent._reflect_node llm 0 st = Ok (st', ConversationAgent.whole_state st')
  /\ (ConversationAgent.input st' <> ConversationAgent.input st ->
      5 < ConversationAgent.step_counter st
      /\ is_finish (ConversationAgent.agent_outcome st') = false).
Proof.
  cbv zeta.
  match goal with
  | |- ConversationAgent._reflect_node ?llm 0 ?st = Ok (?st', ?ws) /\ _ =>
      assert (Hr : ConversationAgent._reflect_node llm 0 st = Ok (st', ws))
        by (vm_compute; reflexivity);
      split; [exact Hr|];
      exact (proj1 (reflector_efficiency_check llm 0 st st' ws
                      eq_refl ltac:(simpl; lia) ltac:(simpl; lia) Hr))
  end.
Defined.


End Instances.
